(** * watcher: a shallow embedding of [watcher.py] and [ansi_color.py]

    The development follows the two Python modules of the repository.

    - [ansi_color] holds the palettes and the two rotating allocators.
    - [DispQueue] is the process-wide displayer (the console sink).
    - [ScanQueue] is the line reader queue: the private FIFO, its reading
      worker and the fan-out to the displayer.
    - [Watcher] is the endpoint: the attach calls, [watchFor] and [send].

    Modelling conventions.

    - A Python [str] is a [string] whose characters are the code points
      U+0000..U+00FF; [bytes] is a [list byte].
    - [time.time()] reads a clock oracle held by the world: the n-th call
      returns [clock n].  Times are rationals, in seconds: the doubles of
      the code at their exact value.  A sum of two times is the exact sum,
      where the code has the sum rounded to a double; the statements on
      deadlines say on which side of the rounding they stand.
    - The operating system (processes, sockets, serial ports, threads, the
      bytes handed to a transport) is a record of logs, the [World].
    - Exceptions are values of [exn]; a call returns an [outcome] together
      with the state it leaves behind, so the effects performed before a
      raise are kept.
    - Threads interleave at the granularity of one loop iteration: a reading
      worker runs whole iterations of its loop while the caller sleeps. *)

From Stdlib Require Import ZArith QArith Qabs String Ascii List Lia Bool.
From Stdlib Require Import DecimalString.
From Stdlib.Strings Require Import Byte.
From stdpp Require Import gmap strings list fin_maps.
Import ListNotations.

Local Open Scope string_scope.
Local Open Scope list_scope.

(** ** Python values and exceptions *)

(** The exceptions the modelled code can raise.  The four watcher
    exceptions carry their message, as in the source. *)
Inductive exn : Type :=
  | AssertionError
  | AttributeError (what : string)
  | IndexError
  | TypeError (what : string)
  | UnboundLocalError (var : string)
  | OSError (what : string)
  | re_error (what : string)
  | WatcherException (msg : string)
  | WatcherTimeoutException (msg : string)
  | WatcherNotFoundException (msg : string)
  | WatcherFailPatFoundException (msg : string).

Inductive outcome (A : Type) : Type :=
  | Return (a : A)
  | Raise (e : exn).
Arguments Return {A} a.
Arguments Raise {A} e.

(** A computation over a state [S] that may raise.  The state is returned
    in both cases. *)
Definition M (S A : Type) : Type := S -> outcome A * S.

Definition ret {S A} (a : A) : M S A := fun s => (Return a, s).
Definition bind {S A B} (c : M S A) (k : A -> M S B) : M S B :=
  fun s => match c s with
           | (Return a, s') => k a s'
           | (Raise e, s') => (Raise e, s')
           end.
Definition modify {S} (f : S -> S) : M S unit := fun s => (Return tt, f s).

Declare Scope py_scope.
Delimit Scope py_scope with py.
Notation "c ;;; k" := (bind c (fun _ => k))
  (at level 200, k at level 200, right associativity) : py_scope.

(** [l[i]] on a Python list: negative indices count from the end, anything
    out of range raises [IndexError]. *)
Definition py_index {A} (l : list A) (i : Z) : outcome A :=
  let n := Z.of_nat (length l) in
  let j := if (i <? 0)%Z then (i + n)%Z else i in
  if ((0 <=? j) && (j <? n))%Z
  then match nth_error l (Z.to_nat j) with
       | Some x => Return x
       | None => Raise IndexError
       end
  else Raise IndexError.

(** The exceptions of the colour module and of the displayer's thread,
    which [exn] does not have, and the result of a call that may raise
    one. *)
Inductive error : Type :=
  | ValueError (msg : string)
  | KeyError (key : string)
  | Builtin (e : exn).

Inductive res (A : Type) : Type :=
  | Ok (a : A)
  | Fail (e : error).
Arguments Ok {A} a.
Arguments Fail {A} e.

(** ** ansi_color.py *)

Module ansi_color.

(** [CONFIG["colors"]] and [CONFIG["styles"]]. *)
Definition colors : list string :=
  [ "black"; "red"; "green"; "yellow"; "blue"; "magenta"; "cyan"; "white";
    "nochange" ].

Definition styles : list string :=
  [ "normal"; "bold"; "dim"; "italic"; "underline"; "blink"; "fastblink";
    "reverse"; "hide"; "strikethrough"; "nochange" ].

(** The two function attributes [getnextcolor.index] and
    [getnextstyle.index]; [None] while the attribute does not exist. *)
Record attrs : Type := {
  getnextcolor_index : option Z;
  getnextstyle_index : option Z
}.

Definition fresh : attrs :=
  {| getnextcolor_index := None; getnextstyle_index := None |}.

(** [getattr(f, "index", 0)] *)
Definition getattr0 (a : option Z) : Z :=
  match a with Some i => i | None => 0%Z end.

Definition getnextcolor : M attrs string := fun st =>
  let index := (getattr0 (getnextcolor_index st) + 1)%Z in
  let st' := {| getnextcolor_index := Some index;
                getnextstyle_index := getnextstyle_index st |} in
  (py_index colors (1 + index mod (Z.of_nat (length colors) - 2))%Z, st').

(** The body increments [getnextstyle.index] and then reads
    [getnextcolor.index], which does not exist before the first call of
    [getnextcolor]. *)
Definition getnextstyle : M attrs string := fun st =>
  let index := (getattr0 (getnextstyle_index st) + 1)%Z in
  let st' := {| getnextcolor_index := getnextcolor_index st;
                getnextstyle_index := Some index |} in
  match getnextcolor_index st' with
  | None => (Raise (AttributeError "index"), st')
  | Some ci =>
      (py_index styles (0 + ci mod (Z.of_nat (length styles) - 1))%Z, st')
  end.

(** [n] successive calls of [getnextcolor]; the colours returned, oldest
    first. *)
Fixpoint getnextcolor_n (n : nat) (st : attrs) : list (outcome string) * attrs :=
  match n with
  | O => ([], st)
  | S k => let '(c, st1) := getnextcolor st in
           let '(cs, st2) := getnextcolor_n k st1 in
           (c :: cs, st2)
  end.

(** The entries a rotation may produce. *)
Definition real_colors : list string :=
  [ "red"; "green"; "yellow"; "blue"; "magenta"; "cyan"; "white" ].

Definition rotated_styles : list string :=
  [ "normal"; "bold"; "dim"; "italic"; "underline"; "blink"; "fastblink";
    "reverse"; "hide"; "strikethrough" ].

(** [CONFIG["open_escape"]] and [CONFIG["close_escape"]]. *)
Definition open_escape : string := String "027"%char "[".
Definition close_escape : string := "m".

(** [l.index(x)]: the first position of [x], [ValueError] when there is
    none. *)
Fixpoint position (x : string) (l : list string) : option nat :=
  match l with
  | [] => None
  | y :: rest =>
      if String.eqb y x then Some 0%nat
      else match position x rest with
           | Some n => Some (S n)
           | None => None
           end
  end.

Definition index (x : string) (l : list string) : res nat :=
  match position x l with
  | Some n => Ok n
  | None => Fail (ValueError ("'" ++ x ++ "' is not in list"))
  end.

(** [str(n)] for a list position. *)
Definition str_of_position (n : nat) : string :=
  NilZero.string_of_uint (Nat.to_uint n).

(** [colorize(string, foreground, background, style, bright_fg,
    bright_bg)].  The three positions are looked up in the order the list
    [colorbytes] is written: style, foreground, background. *)
Definition colorize (text foreground background style : string)
    (bright_fg bright_bg : bool) : res string :=
  let fg_prefix := if bright_fg then "9" else "3" in
  let bg_prefix := if bright_bg then "10" else "4" in
  match index style styles with
  | Fail e => Fail e
  | Ok si =>
      match index foreground colors with
      | Fail e => Fail e
      | Ok fi =>
          match index background colors with
          | Fail e => Fail e
          | Ok bi =>
              let colorbytes :=
                [ str_of_position si;
                  (fg_prefix ++ str_of_position fi)%string;
                  (bg_prefix ++ str_of_position bi)%string ] in
              let olist :=
                [ open_escape; String.concat ";" colorbytes; close_escape;
                  text; open_escape; "0"; close_escape ] in
              Ok (String.concat "" olist)
          end
      end
  end.

End ansi_color.


(** ** Python strings *)

(** [str.isspace] on the code points below U+0100. *)
Definition isspace (c : ascii) : bool :=
  let n := nat_of_ascii c in
  ((9 <=? n) && (n <=? 13) || (28 <=? n) && (n <=? 32)
   || (n =? 133) || (n =? 160))%nat.

Fixpoint lstrip (s : string) : string :=
  match s with
  | EmptyString => EmptyString
  | String c s' => if isspace c then lstrip s' else s
  end.

Fixpoint rstrip (s : string) : string :=
  match s with
  | EmptyString => EmptyString
  | String c s' =>
      match rstrip s' with
      | EmptyString => if isspace c then EmptyString else String c EmptyString
      | r => String c r
      end
  end.

Definition strip (s : string) : string := rstrip (lstrip s).

(** [sep.join(l)] *)
Definition join (sep : string) (l : list string) : string :=
  String.concat sep l.

(** [s.encode("utf-8")] for code points below U+0100: one byte below
    U+0080, two bytes otherwise. *)
Definition utf8_char (c : ascii) : list byte :=
  let n := N_of_ascii c in
  if (n <? 128)%N then [byte_of_ascii c]
  else [ byte_of_ascii (ascii_of_N (N.lor 192 (N.shiftr n 6)));
         byte_of_ascii (ascii_of_N (N.lor 128 (N.land n 63))) ].

Fixpoint encode_utf8 (s : string) : list byte :=
  match s with
  | EmptyString => []
  | String c s' => utf8_char c ++ encode_utf8 s'
  end.

(** [str(i)] for an [int]. *)
Definition str_of_int (i : Z) : string :=
  NilZero.string_of_int (Z.to_int i).

(** The values a [line] can hold.  The reading worker only produces [str];
    a transform, or a direct [put], may supply anything else. *)
Inductive value : Type :=
  | VNone
  | VStr (s : string)
  | VBytes (b : list byte)
  | VInt (i : Z).

(** The dictionary [{"ts": .., "name": .., "line": ..}] passed from a queue
    to its consumers; ["ts"] may be missing until the displayer sets it. *)
Module Rec.
Record t : Type := { ts : option Q; name : string; line : value }.
End Rec.

(** ** The world outside the interpreter *)

(** What a blocking [readline()] on an input file gives: a line (the empty
    string at end of file) or an exception with its message. *)
Inductive read_result : Type :=
  | Line (s : string)
  | ReadError (msg : string).

(** The object bound to [Watcher.istream]. *)
Inductive stream : Type :=
  | ProcStdin (pid : nat)
  | SocketStream (sid : nat)
  | SerialStream (sid : nat).

Inductive thread : Type :=
  | ReaderThread (qname : string)
  | ExitWatchThread (wname : string).

Inductive os_event : Type :=
  | Popen (cmdargs : list string)
  | Connect (host : string) (port : Z)
  | OpenSerial (port : string) (speed : Z)
  | ThreadStart (t : thread)
  | SendAll (s : stream) (b : list byte).

(** What the environment decides. *)
Record Env : Type := {
  clock : nat -> Q;
  have_pyserial : bool;
  popen_ok : list string -> bool;
  connect_ok : string -> Z -> bool;
  serial_ok : string -> Z -> bool;
  proc_stdout : nat -> list read_result;
  proc_stderr : nat -> list read_result;
  sock_input : nat -> list read_result;
  serial_input : nat -> list read_result
}.

Record World : Type := {
  env : Env;
  ticks : nat;
  displayed : list Rec.t;
  os_log : list os_event
}.

Definition set_ticks (n : nat) (w : World) : World :=
  {| env := env w; ticks := n; displayed := displayed w; os_log := os_log w |}.

Definition show (v : Rec.t) (w : World) : World :=
  {| env := env w; ticks := ticks w; displayed := displayed w ++ [v];
     os_log := os_log w |}.

Definition emit (e : os_event) (w : World) : World :=
  {| env := env w; ticks := ticks w; displayed := displayed w;
     os_log := os_log w ++ [e] |}.

(** [time.time()] *)
Definition time_time (w : World) : Q * World :=
  (clock (env w) (ticks w), set_ticks (S (ticks w)) w).

(** The number of processes spawned so far names the next one. *)
Definition count_popen (w : World) : nat :=
  length (List.filter (fun e => match e with Popen _ => true | _ => false end)
                 (os_log w)).

Definition count_connect (w : World) : nat :=
  length (List.filter (fun e => match e with Connect _ _ => true | _ => false end)
                 (os_log w)).

Definition count_serial (w : World) : nat :=
  length (List.filter (fun e => match e with OpenSerial _ _ => true | _ => false end)
                 (os_log w)).

(** ** Formatting *)

Fixpoint padding (n : nat) (fill : ascii) : string :=
  match n with
  | O => EmptyString
  | S k => String fill (padding k fill)
  end.

(** [s.rjust(width, fill)], the alignment [>] of a format: the text is
    never cut. *)
Definition rjust (width : nat) (fill : ascii) (s : string) : string :=
  (padding (width - String.length s) fill ++ s)%string.

(** The integer nearest to [n / d], for [n >= 0] and [d > 0]; a tie goes
    to the even one. *)
Definition round_half_even (n d : Z) : Z :=
  let a := (n / d)%Z in
  let r := (n mod d)%Z in
  if (2 * r <? d)%Z then a
  else if (d <? 2 * r)%Z then (a + 1)%Z
  else if Z.even a then a else (a + 1)%Z.

(** The format [.3f] of a number: sign, integer part, three decimals. *)
Definition format_3f (x : Q) : string :=
  let m := round_half_even (Z.abs (Qnum x) * 1000) (Z.pos (Qden x)) in
  ((if (Qnum x <? 0)%Z then "-" else "")
   ++ str_of_int (m / 1000) ++ "."
   ++ rjust 3 "0" (str_of_int (m mod 1000)))%string.

(** The format [8.3f]. *)
Definition format_8_3f (x : Q) : string := rjust 8 " " (format_3f x).

Definition hex_digit (n : nat) : ascii :=
  match String.get n "0123456789abcdef" with
  | Some c => c
  | None => "0"%char
  end.

Definition double_quote : ascii := "034"%char.
Definition single_quote : ascii := "039"%char.
Definition backslash : ascii := "092"%char.

(** One byte in the [repr] of a [bytes] object delimited by [quote]. *)
Definition repr_byte (quote : ascii) (c : ascii) : string :=
  let n := nat_of_ascii c in
  if Ascii.eqb c quote || Ascii.eqb c backslash
  then String backslash (String c EmptyString)
  else if (n =? 9)%nat then String backslash "t"
  else if (n =? 10)%nat then String backslash "n"
  else if (n =? 13)%nat then String backslash "r"
  else if (n <? 32)%nat || (127 <=? n)%nat
  then String backslash
         (String "x" (String (hex_digit (n / 16))
                        (String (hex_digit (n mod 16)) EmptyString)))
  else String c EmptyString.

(** [repr(b)] for [bytes]: single quotes, unless the bytes hold a single
    quote and no double quote. *)
Definition repr_bytes (b : list byte) : string :=
  let cs := List.map ascii_of_byte b in
  let quote :=
    if existsb (Ascii.eqb single_quote) cs
       && negb (existsb (Ascii.eqb double_quote) cs)
    then double_quote else single_quote in
  (String "b" (String quote (String.concat "" (List.map (repr_byte quote) cs)))
   ++ String quote EmptyString)%string.

(** [str(line)], which is what the format [{line}] prints. *)
Definition str_of_value (v : value) : string :=
  match v with
  | VNone => "None"
  | VStr s => s
  | VBytes b => repr_bytes b
  | VInt i => str_of_int i
  end.

(** ** _DispQueue: the displayer *)

Module DispQueue.

(** The object [getDisplayer()] returns. *)
Inductive t : Type := displayer.

(** [_DispQueue.put]: stamp the record when it has no ["ts"], enqueue. *)
Definition put (v : Rec.t) (w : World) : World :=
  match Rec.ts v with
  | Some _ => show v w
  | None =>
      let '(now, w1) := time_time w in
      show {| Rec.ts := Some now; Rec.name := Rec.name v;
              Rec.line := Rec.line v |} w1
  end.

(** [_DispQueue.print] with one positional argument. *)
Definition print (s : string) (w : World) : World :=
  put {| Rec.ts := None; Rec.name := "DispQueue";
         Rec.line := VStr (strip (s ++ String "010"%char EmptyString)) |} w.

(** *** The printing thread *)

(** An entry of [colorlist]: the keywords given to [colorize]. *)
Record colour : Type := {
  foreground : string;
  background : string;
  style : string
}.

(** The displayer and its thread: the attributes of the object the thread
    uses, the local variable [last_name] of [printLoop], the number of
    records the thread has taken from the inbound queue (the queue holds the
    records of [displayed] from that position on), the counters of the
    colour module, and the lines printed on the standard output. *)
Record state : Type := {
  starttime : Q;
  running : bool;
  colorlist : gmap string colour;
  colorize : bool;
  last_name : string;
  taken : nat;
  palette : ansi_color.attrs;
  stdout : list string
}.

(** The records waiting in the inbound queue. *)
Definition waiting (w : World) (s : state) : list Rec.t :=
  skipn (taken s) (displayed w).

(** The body of the loop of [printLoop] once [get] has returned the record
    [v].  The state is returned as the pass leaves it, with the exception
    that ended the pass, if any. *)
Definition show_record (v : Rec.t) (s : state) : option error * state :=
  match Rec.ts v with
  | None => (Some (KeyError "ts"), s)
  | Some ts =>
      let timestamp := (ts - starttime s)%Q in
      let name := Rec.name v in
      let '(assigned, cl, pal) :=
        match colorlist s !! name with
        | Some _ => (None, colorlist s, palette s)
        | None =>
            if colorize s then
              match ansi_color.getnextcolor (palette s) with
              | (Return c, pal') =>
                  (None,
                   <[name := {| foreground := c; background := "nochange";
                                style := "normal" |}]> (colorlist s),
                   pal')
              | (Raise e, pal') => (Some (Builtin e), colorlist s, pal')
              end
            else (None, colorlist s, palette s)
        end in
      match assigned with
      | Some e =>
          (Some e,
           {| starttime := starttime s; running := running s;
              colorlist := cl; colorize := colorize s;
              last_name := last_name s; taken := taken s;
              palette := pal; stdout := stdout s |})
      | None =>
          let shown := if String.eqb name (last_name s) then "" else name in
          let os := (format_8_3f timestamp ++ " | " ++ rjust 17 " " shown
                     ++ " | " ++ str_of_value (Rec.line v))%string in
          let printed :=
            if colorize s then
              match cl !! name with
              | None => Fail (KeyError name)
              | Some c =>
                  ansi_color.colorize os (foreground c) (background c)
                                      (style c) true false
              end
            else Ok os in
          match printed with
          | Fail e =>
              (Some e,
               {| starttime := starttime s; running := running s;
                  colorlist := cl; colorize := colorize s;
                  last_name := name; taken := taken s;
                  palette := pal; stdout := stdout s |})
          | Ok out =>
              (None,
               {| starttime := starttime s; running := running s;
                  colorlist := cl; colorize := colorize s;
                  last_name := name; taken := taken s;
                  palette := pal; stdout := stdout s ++ [out] |})
          end
      end
  end.

Definition take (s : state) : state :=
  {| starttime := starttime s; running := running s;
     colorlist := colorlist s; colorize := colorize s;
     last_name := last_name s; taken := S (taken s);
     palette := palette s; stdout := stdout s |}.

(** One pass of the loop of [printLoop]: the timed [get], which raises
    [queue.Empty] on an empty queue, caught, and the printing of the
    record. *)
Definition printLoop_body (w : World) (s : state) : option error * state :=
  match waiting w s with
  | [] => (None, s)
  | v :: _ => show_record v (take s)
  end.

Inductive thread_status : Type :=
  | Looping
  | Ended
  | Died (e : error).

(** [printLoop], at most [n] passes, while nothing else is put in the
    queue. *)
Fixpoint printLoop (n : nat) (w : World) (s : state) : thread_status * state :=
  if running s || negb (length (waiting w s) =? 0)%nat
  then
    match n with
    | O => (Looping, s)
    | S k =>
        match printLoop_body w s with
        | (None, s1) => printLoop k w s1
        | (Some e, s1) => (Died e, s1)
        end
    end
  else (Ended, s).

Definition set_running (b : bool) (s : state) : state :=
  {| starttime := starttime s; running := b;
     colorlist := colorlist s; colorize := colorize s;
     last_name := last_name s; taken := taken s;
     palette := palette s; stdout := stdout s |}.

(** [stop]: clear the flag, put the last record, join the thread.  The
    thread runs on its own.  [between] says what it does between the two
    statements of [stop]: nothing ([None]), or up to [k] passes and then a
    test of its loop condition ([Some k]), at which it ends if it finds the
    queue empty, before the last record is put.  The join lets a thread
    that is still looping run, at most [n] passes; on a thread that has
    ended it returns at once. *)
Definition stop (between : option nat) (n : nat) (s : state) (w : World)
    : thread_status * state * World :=
  let s1 := set_running false s in
  let '(r1, s2) := match between with
                   | Some k => printLoop k w s1
                   | None => (Looping, s1)
                   end in
  let w1 := put {| Rec.ts := None; Rec.name := "DispQueue";
                   Rec.line := VStr "stopping" |} w in
  match r1 with
  | Looping => let '(r, s3) := printLoop n w1 s2 in (r, s3, w1)
  | Ended | Died _ => (r1, s2, w1)
  end.

End DispQueue.

(** ** _ScanQueue: the line reader queue *)

Module ScanQueue.

(** The input file a queue reads: the results its next [readline()] calls
    will give, and whether [close()] was called on it.  A read with nothing
    pending blocks. *)
Record infile : Type := { pending : list read_result; fh_closed : bool }.

Record t : Type := {
  name : string;
  fh : option infile;
  disper : option DispQueue.t;
  xformer : option (value -> value);
  q : list Rec.t;
  _closed : bool
}.

Definition set_fh (h : option infile) (self : t) : t :=
  {| name := name self; fh := h; disper := disper self;
     xformer := xformer self; q := q self; _closed := _closed self |}.

Definition set_q (l : list Rec.t) (self : t) : t :=
  {| name := name self; fh := fh self; disper := disper self;
     xformer := xformer self; q := l; _closed := _closed self |}.

Definition set_closed (b : bool) (self : t) : t :=
  {| name := name self; fh := fh self; disper := disper self;
     xformer := xformer self; q := q self; _closed := b |}.

(** The methods run on a queue and the world. *)
Definition st : Type := t * World.

(** [__init__]: the reading thread is started only when a file is given. *)
Definition init (nm : string) (input : option (list read_result))
    (d : option DispQueue.t) (x : option (value -> value)) (w : World) : st :=
  let self :=
    {| name := nm;
       fh := match input with
             | Some l => Some {| pending := l; fh_closed := false |}
             | None => None
             end;
       disper := d; xformer := x; q := []; _closed := false |} in
  match input with
  | Some _ => (self, emit (ThreadStart (ReaderThread nm)) w)
  | None => (self, w)
  end.

Definition closed (self : t) : bool := _closed self.

Definition empty (self : t) : bool :=
  match q self with [] => true | _ :: _ => false end.

Definition done (self : t) : bool := empty self && closed self.

(** [get]: the oldest record, or [None] on an empty queue. *)
Definition get : M st (option Rec.t) := fun '(self, w) =>
  match q self with
  | v :: rest => (Return (Some v), (set_q rest self, w))
  | [] => (Return None, (self, w))
  end.

(** [line is not None and not (isinstance(line, str) and not len(line))] *)
Definition kept (line : value) : bool :=
  match line with
  | VNone => false
  | VStr s => negb (String.length s =? 0)%nat
  | VBytes _ | VInt _ => true
  end.

Definition transformed (self : t) (line : value) : value :=
  match xformer self with
  | Some f => f line
  | None => line
  end.

(** [put]: the record goes to the displayer first, then to the private
    FIFO; the same record to both. *)
Definition put (line : value) : M st unit := fun '(self, w) =>
  if closed self then (Raise AssertionError, (self, w))
  else
    let line := transformed self line in
    let '(now, w1) := time_time w in
    let v := {| Rec.ts := Some now; Rec.name := name self;
                Rec.line := line |} in
    if kept line then
      let w2 := match disper self with
                | Some _ => DispQueue.put v w1
                | None => w1
                end in
      (Return tt, (set_q (q self ++ [v]) self, w2))
    else (Return tt, (self, w1)).

Definition close : M st unit :=
  (put (VStr "<<EOF>>") ;;;
   modify (fun '(self, w) => (set_closed true self, w)))%py.

(** [self.fh.readline()], decoded.  [Return None] stands for a read that
    blocks: nothing is pending. *)
Definition readline : M st (option string) := fun '(self, w) =>
  match fh self with
  | None => (Raise (AttributeError "readline"), (self, w))
  | Some h =>
      match pending h with
      | [] => (Return None, (self, w))
      | Line s :: rest =>
          (Return (Some s),
           (set_fh (Some {| pending := rest; fh_closed := fh_closed h |}) self, w))
      | ReadError msg :: rest =>
          (Raise (OSError msg),
           (set_fh (Some {| pending := rest; fh_closed := fh_closed h |}) self, w))
      end
  end.

(** [self.fh.close()] *)
Definition fh_close : M st unit := fun '(self, w) =>
  match fh self with
  | None => (Raise (AttributeError "close"), (self, w))
  | Some h =>
      (Return tt,
       (set_fh (Some {| pending := pending h; fh_closed := true |}) self, w))
  end.

(** [str(e)] for the exceptions a read raises. *)
Definition str_of_exn (e : exn) : string :=
  match e with
  | OSError msg | re_error msg => msg
  | AttributeError a => "'NoneType' object has no attribute '" ++ a ++ "'"
  | TypeError msg | WatcherException msg | WatcherTimeoutException msg
  | WatcherNotFoundException msg | WatcherFailPatFoundException msg => msg
  | UnboundLocalError v => v
  | AssertionError | IndexError => ""
  end.

Inductive progress : Type := Continue | Stop | Blocked.

(** One pass through the body of the [while] loop of [readLineAndQPut]. *)
Definition readLineAndQPut_body : M st progress := fun s =>
  match readline s with
  | (Raise e, s1) =>
      (put (VStr ("<<Exception on stream: " ++ str_of_exn e ++ ">>")) ;;;
       fh_close ;;;
       close ;;;
       ret Stop)%py s1
  | (Return None, s1) => (Return Blocked, s1)
  | (Return (Some line), s1) =>
      if (String.length line =? 0)%nat
      then (fh_close ;;; close ;;; ret Stop)%py s1
      else (put (VStr (rstrip line)) ;;; ret Continue)%py s1
  end.

(** Whether the worker thread is still alive after a run. *)
Inductive worker : Type := Running | Finished.

(** [readLineAndQPut], at most [n] passes of its loop.  An exception that
    escapes the body ends the thread. *)
Fixpoint readLineAndQPut (n : nat) : M st worker := fun s =>
  if closed (fst s) then (Return Finished, s)
  else
    match n with
    | O => (Return Running, s)
    | S k =>
        match readLineAndQPut_body s with
        | (Return Continue, s1) => readLineAndQPut k s1
        | (Return Stop, s1) => (Return Finished, s1)
        | (Return Blocked, s1) => (Return Running, s1)
        | (Raise e, s1) => (Raise e, s1)
        end
    end.

(** The calls a client or the worker can make on a queue. *)
Inductive call : Type :=
  | CallPut (line : value)
  | CallGet
  | CallClose
  | CallWorker (n : nat).

Definition perform (c : call) (s : st) : st :=
  match c with
  | CallPut line => snd (put line s)
  | CallGet => snd (get s)
  | CallClose => snd (close s)
  | CallWorker n => snd (readLineAndQPut n s)
  end.

Definition perform_all (cs : list call) (s : st) : st :=
  fold_left (fun s c => perform c s) cs s.

(** A sequence of [put] calls; stops at the first one that raises. *)
Fixpoint put_all (lines : list value) : M st unit :=
  match lines with
  | [] => ret tt
  | l :: rest => (put l ;;; put_all rest)%py
  end.

End ScanQueue.

(** ** The regular expression engine

    Python's [re] module, as far as the watcher uses it: patterns are
    compiled from a source string, searched in a [str], and printed in
    messages.  A match object is always true. *)
Class RegexEngine : Type := {
  pattern : Type;
  mtch : Type;
  compile : string -> outcome pattern;
  search : pattern -> string -> option mtch;
  repr : pattern -> string
}.

(** One call of [search] made by the watcher, with the role of the pattern
    that was tried. *)
Inductive probe `{RegexEngine} : Type :=
  | FailProbe (fp : pattern) (line : string)
  | PatProbe (pat : pattern) (line : string).

(** ** Watcher: the endpoint *)

Module Watcher.

Record t : Type := {
  name : string;
  disper : option DispQueue.t;
  xformer : option (value -> value);
  queues : gmap string ScanQueue.t;
  istream : option stream;
  ostream : option stream;
  retcode : option Z;
  started : bool;
  proc_handle : option nat
}.

Definition st : Type := t * World.

(** What an attach call returns: [self], or nothing. *)
Inductive returned : Type := ReturnedSelf | ReturnedNone.

(** [__init__].  [d] is the [disper] keyword when given; the default is the
    displayer.  Every default name is ["watcher:0"]: the class attribute
    [creation_number] is never advanced, the increment lands on the
    instance. *)
Definition init (nm : option string) (d : option (option DispQueue.t))
    (x : option (value -> value)) : t :=
  {| name := match nm with
             | None => "watcher:" ++ str_of_int 0
             | Some n => n
             end;
     disper := match d with
               | Some given => given
               | None => Some DispQueue.displayer
               end;
     xformer := x;
     queues := ∅;
     istream := None; ostream := None; retcode := None;
     started := false; proc_handle := None |}.

Definition _print (s : string) : M st unit := fun '(self, w) =>
  match disper self with
  | Some _ => (Return tt, (self, DispQueue.print s w))
  | None => (Return tt, (self, w))
  end.

(** The keywords [subprocess.Popen] still accepts once [subprocess] has
    set its own. *)
Definition popen_keywords : list string :=
  [ "executable"; "preexec_fn"; "startupinfo"; "creationflags";
    "restore_signals"; "start_new_session"; "pass_fds"; "user"; "group";
    "extra_groups"; "encoding"; "text"; "umask"; "pipesize";
    "process_group" ].

Definition attach_queue (key : string) (sq : ScanQueue.t) (self : t) : t :=
  {| name := name self; disper := disper self; xformer := xformer self;
     queues := <[key := sq]> (queues self);
     istream := istream self; ostream := ostream self;
     retcode := retcode self; started := started self;
     proc_handle := proc_handle self |}.

Definition set_istream (s : stream) (self : t) : t :=
  {| name := name self; disper := disper self; xformer := xformer self;
     queues := queues self;
     istream := Some s; ostream := ostream self;
     retcode := retcode self; started := started self;
     proc_handle := proc_handle self |}.

Definition set_proc_handle (pid : nat) (self : t) : t :=
  {| name := name self; disper := disper self; xformer := xformer self;
     queues := queues self;
     istream := istream self; ostream := ostream self;
     retcode := retcode self; started := started self;
     proc_handle := Some pid |}.

Definition set_started (self : t) : t :=
  {| name := name self; disper := disper self; xformer := xformer self;
     queues := queues self;
     istream := istream self; ostream := ostream self;
     retcode := retcode self; started := true;
     proc_handle := proc_handle self |}.

(** [self.queues[key] = _ScanQueue(nm, infile=..., disper=self.disper,
    xformer=self.xformer)] *)
Definition new_queue (key nm : string) (input : list read_result) : M st unit :=
  fun '(self, w) =>
    let '(sq, w1) :=
      ScanQueue.init nm (Some input) (disper self) (xformer self) w in
    (Return tt, (attach_queue key sq self, w1)).

(** [subprocess(cmdargs, **kwargs)]; [extra] lists the keywords that are
    passed through to [Popen]. *)
Definition subprocess (cmdargs : list string) (extra : list string) : M st returned :=
  fun '(self, w) =>
    if started self then
      (_print "Error: this class can only do one stream at a time" ;;;
       ret ReturnedNone)%py (self, w)
    else if negb (forallb (fun k => existsb (String.eqb k) popen_keywords) extra)
    then (Raise (TypeError "unexpected keyword argument"), (self, w))
    else if negb (popen_ok (env w) cmdargs)
    then (Raise (OSError "Popen"), (self, w))
    else
      let pid := count_popen w in
      (modify (fun '(self, w) =>
                 (set_istream (ProcStdin pid) (set_proc_handle pid self),
                  emit (Popen cmdargs) w)) ;;;
       new_queue "stdout" (name self ++ ":stdout") (proc_stdout (env w) pid) ;;;
       new_queue "stderr" (name self ++ ":stderr") (proc_stderr (env w) pid) ;;;
       modify (fun '(self, w) =>
                 (set_started self,
                  emit (ThreadStart (ExitWatchThread (name self))) w)) ;;;
       ret ReturnedSelf)%py (self, w).

(** [serial(port, speed)] *)
Definition serial (port : string) (speed : Z) : M st returned :=
  fun '(self, w) =>
    if negb (have_pyserial (env w)) then
      (_print "Error: pyserial module not instaled" ;;;
       ret ReturnedNone)%py (self, w)
    else if started self then
      (_print "Error: this class can only do one stream at a time" ;;;
       ret ReturnedNone)%py (self, w)
    else if negb (serial_ok (env w) port speed)
    then (Raise (OSError "Serial"), (self, w))
    else
      let sid := count_serial w in
      (modify (fun '(self, w) => (self, emit (OpenSerial port speed) w)) ;;;
       _print ("Opened serial port " ++ port ++ " at " ++ str_of_int speed
               ++ " b/s") ;;;
       modify (fun '(self, w) => (set_istream (SerialStream sid) self, w)) ;;;
       new_queue (name self) (name self) (serial_input (env w) sid) ;;;
       modify (fun '(self, w) => (set_started self, w)) ;;;
       ret ReturnedSelf)%py (self, w).

(** [socket(host)], [host] being the pair [(hostname, port)]. *)
Definition socket (hostname : string) (port : Z) : M st returned :=
  fun '(self, w) =>
    if started self then
      (_print "Error: this class can only do one stream at a time" ;;;
       ret ReturnedNone)%py (self, w)
    else if negb (connect_ok (env w) hostname port)
    then (Raise (OSError "connect"), (self, w))
    else
      let sid := count_connect w in
      (modify (fun '(self, w) => (self, emit (Connect hostname port) w)) ;;;
       _print "Socket opened successfully" ;;;
       modify (fun '(self, w) => (set_istream (SocketStream sid) self, w)) ;;;
       new_queue (name self) (name self) (sock_input (env w) sid) ;;;
       modify (fun '(self, w) => (set_started self, w)) ;;;
       ret ReturnedSelf)%py (self, w).

(** [ssh(user, host, port=...)].  The keywords, [port] included, are handed
    on to [subprocess] as they came. *)
Definition ssh (user host : string) (port : option Z) : M st returned :=
  fun '(self, w) =>
    if started self then
      (_print "Error: this class can only do one stream at a time" ;;;
       ret ReturnedNone)%py (self, w)
    else
      let ssh_args :=
        [ "ssh"; "-t"; "-t"; "-o"; "StrictHostKeyChecking=no";
          (user ++ "@" ++ host)%string ] ++
        match port with
        | Some p => [ "-p"; str_of_int p ]
        | None => []
        end in
      subprocess ssh_args
        (match port with Some _ => ["port"] | None => [] end) (self, w).

(** *** Pattern search *)

(** A polling loop either ends, or is still polling when the schedule it
    was given is used up. *)
Inductive polled (A : Type) : Type :=
  | Got (a : A)
  | StillPolling.
Arguments Got {A} a.
Arguments StillPolling {A}.

Section Search.
Context `{RE : RegexEngine}.

(** The loop [for fp in failpats]: the failure patterns are tried in the
    order given, up to the first that matches. *)
Fixpoint check_failpats (failpats : list pattern) (line : string)
    : option pattern * list probe :=
  match failpats with
  | [] => (None, [])
  | fp :: rest =>
      match search fp line with
      | Some _ => (Some fp, [FailProbe fp line])
      | None =>
          let '(r, tr) := check_failpats rest line in
          (r, FailProbe fp line :: tr)
      end
  end.

(** The loop [while not q.empty(): v = q.get() ...] over the records in the
    FIFO.  Returns what the loop ends with, the records left in the FIFO
    and the searches made. *)
Fixpoint drain (items : list Rec.t) (pat : pattern) (failpats : list pattern)
    : outcome (option mtch) * list Rec.t * list probe :=
  match items with
  | [] => (Return None, [], [])
  | v :: rest =>
      match Rec.line v with
      | VNone => drain rest pat failpats
      | VInt _ =>
          (Raise (TypeError "object of type 'int' has no len()"), rest, [])
      | VBytes b =>
          if (length b =? 0)%nat then drain rest pat failpats
          else (Raise (TypeError "cannot use a string pattern on a bytes-like object"),
                rest, [])
      | VStr line =>
          if (String.length line =? 0)%nat then drain rest pat failpats
          else
            match check_failpats failpats line with
            | (Some fp, tr) =>
                (Raise (WatcherFailPatFoundException
                          (" while look for " ++ repr fp)), rest, tr)
            | (None, tr) =>
                match search pat line with
                | Some m => (Return (Some m), rest, tr ++ [PatProbe pat line])
                | None =>
                    let '(r, rest', tr') := drain rest pat failpats in
                    (r, rest', tr ++ PatProbe pat line :: tr')
                end
            end
      end
  end.

Definition _internalSearcher (sq : ScanQueue.t) (pat : pattern)
    (failpats : list pattern)
    : outcome (option mtch) * ScanQueue.t * list probe :=
  let '(r, rest, tr) := drain (ScanQueue.q sq) pat failpats in
  let sq' := ScanQueue.set_q rest sq in
  match r with
  | Return None =>
      if ScanQueue.empty sq' && ScanQueue.closed sq'
      then (Raise (WatcherNotFoundException ("while looking for " ++ repr pat)),
            sq', tr)
      else (Return None, sq', tr)
  | _ => (r, sq', tr)
  end.

(** The [failpats] / [failpat] keyword: a list of sources, one source, or
    [None]. *)
Inductive failpats_arg : Type :=
  | FailPatList (l : list string)
  | FailPatStr (s : string)
  | FailPatNone.

(** The keyword arguments of [watchFor]; [None] for a keyword not given. *)
Record watch_kwargs : Type := {
  kw_stderr : bool;
  kw_timeout : option Q;
  kw_to : option Q;
  kw_iterdelay : option Q;
  kw_failpats : option failpats_arg;
  kw_failpat : option failpats_arg
}.

Definition no_kwargs : watch_kwargs :=
  {| kw_stderr := false; kw_timeout := None; kw_to := None;
     kw_iterdelay := None; kw_failpats := None; kw_failpat := None |}.

(** [kwargs.get("timeout", kwargs.get("to", 5))] *)
Definition get_timeout (kw : watch_kwargs) : Q :=
  match kw_timeout kw with
  | Some t => t
  | None => match kw_to kw with Some t => t | None => 5 end
  end.


(** [kwargs.get("failpats", kwargs.get("failpat", []))] *)
Definition get_failpats (kw : watch_kwargs) : failpats_arg :=
  match kw_failpats kw with
  | Some f => f
  | None => match kw_failpat kw with Some f => f | None => FailPatList [] end
  end.

(** [[re.compile(fp) for fp in failpats]] *)
Fixpoint compile_all (l : list string) : outcome (list pattern) :=
  match l with
  | [] => Return []
  | src :: rest =>
      match compile src with
      | Raise e => Raise e
      | Return p =>
          match compile_all rest with
          | Raise e => Raise e
          | Return ps => Return (p :: ps)
          end
      end
  end.

(** [failpats] once a single source is wrapped in a list and every source
    is compiled. *)
Definition compile_failpats (kw : watch_kwargs) : outcome (list pattern) :=
  match get_failpats kw with
  | FailPatList l => compile_all l
  | FailPatStr fp => compile_all [fp]
  | FailPatNone => Raise (TypeError "'NoneType' object is not iterable")
  end.

(** The queue name [watchFor] settles on; [None] when [qname] is left
    unbound. *)
Definition select_qname (self : t) (kw : watch_kwargs) : option string :=
  if (size (queues self) =? 1)%nat
  then fst <$> head (map_to_list (queues self))
  else if (size (queues self) =? 2)%nat
  then Some (if kw_stderr kw then "stderr" else "stdout")
  else None.

(** One turn of the reading worker of queue [key], if it has one. *)
Definition run_worker (key : string) (s : st) : st :=
  let '(self, w) := s in
  match queues self !! key with
  | Some sq =>
      match ScanQueue.fh sq with
      | Some _ =>
          let '(_, (sq', w')) := ScanQueue.readLineAndQPut 1 (sq, w) in
          (attach_queue key sq' self, w')
      | None => s
      end
  | None => s
  end.

(** [time.sleep(iterdel)] for a delay that is not negative: the caller is
    suspended while the workers named in [turns] each take a turn, in that
    order.  (On a negative delay [time.sleep] raises [ValueError]; such
    calls are outside this model.) *)
Definition time_sleep (turns : list string) (s : st) : st :=
  fold_left (fun s key => run_worker key s) turns s.

(** The [while True] loop of [watchFor].  [sched] gives, for each sleep, the
    turns the workers take during it.  The queue object [q] of the source
    is the one bound to [qname] in [self.queues]: it is shared with its
    worker, and the binding does not change during the call.  The deadline
    [start + timeout] is the exact sum; the code rounds it to a double.  The
    two tests agree on a reading that is not after the exact deadline, and
    on one that is after it by more than the rounding. *)
Fixpoint watchFor_loop (sched : list (list string)) (qname : string)
    (start timeout : Q) (src : string) (pat : pattern)
    (failpats : list pattern) (s : st)
    : outcome (polled mtch) * st * list probe :=
  let '(self, w) := s in
  let '(now, w1) := time_time w in
  if negb (Qle_bool now (start + timeout))
  then (Raise (WatcherTimeoutException ("while looking for " ++ src)),
        (self, w1), [])
  else
    match queues self !! qname with
    | None => (Raise (WatcherException "queue not found"), (self, w1), [])
    | Some sq =>
        let '(rv, sq', tr) := _internalSearcher sq pat failpats in
        let s1 := (attach_queue qname sq' self, w1) in
        match rv with
        | Raise e => (Raise e, s1, tr)
        | Return (Some m) => (Return (Got m), s1, tr)
        | Return None =>
            match sched with
            | [] => (Return StillPolling, s1, tr)
            | turns :: sched' =>
                let '(r, s2, tr') :=
                  watchFor_loop sched' qname start timeout src pat failpats
                                (time_sleep turns s1) in
                (r, s2, tr ++ tr')
            end
        end
    end.

Definition watchFor (src : string) (kw : watch_kwargs)
    (sched : list (list string)) (s : st)
    : outcome (polled mtch) * st * list probe :=
  let '(self, w) := s in
  let qname := select_qname self kw in
  let timeout := get_timeout kw in
  match compile src with
  | Raise e => (Raise e, s, [])
  | Return pat =>
      match compile_failpats kw with
      | Raise e => (Raise e, s, [])
      | Return failpats =>
              match qname with
              | None => (Raise (UnboundLocalError "qname"), s, [])
              | Some qn =>
                  match queues self !! qn with
                  | None =>
                      (Raise (WatcherException "queue not found"),
                       snd (_print ("Queue " ++ qn ++ " not found") s), [])
                  | Some _ =>
                      let '(start, w1) := time_time w in
                      watchFor_loop sched qn start timeout src pat failpats
                                    (self, w1)
                  end
              end
      end
  end.

(** Calls of [watchFor] one after the other, one for each schedule given;
    the outcomes, oldest first. *)
Fixpoint watchFor_each (scheds : list (list (list string))) (src : string)
    (kw : watch_kwargs) (s : st) : list (outcome (polled mtch)) * st :=
  match scheds with
  | [] => ([], s)
  | sched :: rest =>
      let '(r, s1, _) := watchFor src kw sched s in
      let '(rs, s2) := watchFor_each rest src kw s1 in
      (r :: rs, s2)
  end.

End Search.

(** *** Sending *)

(** A positional argument of [send]. *)
Inductive arg : Type :=
  | ArgStr (s : string)
  | ArgInt (i : Z)
  | ArgBool (b : bool)
  | ArgNone.

(** [x if isinstance(x, str) else str(x)] *)
Definition str_of_arg (x : arg) : string :=
  match x with
  | ArgStr s => s
  | ArgInt i => str_of_int i
  | ArgBool true => "True"
  | ArgBool false => "False"
  | ArgNone => "None"
  end.

(** The values the [json] keyword can be given. *)
#[local] Set Warnings "-register-all".
Inductive pyobj : Type :=
  | PNone
  | PBool (b : bool)
  | PInt (i : Z)
  | PStr (s : string)
  | PList (l : list pyobj)
  | PDict (l : list (string * pyobj)).

Definition is_None (v : pyobj) : bool :=
  match v with PNone => true | _ => false end.

(** The keyword arguments of [send]; [None] for a keyword not given. *)
Record send_kwargs : Type := {
  kw_raw : option (list byte);
  kw_json : option pyobj
}.

(** [json.dump(js)].  The function is [dump(obj, fp, ...)]: called with one
    positional argument it raises before it looks at [obj]. *)
Definition json_dump (js : pyobj) : outcome string :=
  Raise (TypeError "dump() missing 1 required positional argument: 'fp'").

(** [self.istream.sendall(b)].  The log keeps the bytes handed to the
    transport; for a process they are decoded again before they reach its
    standard input. *)
Definition sendall (sink : stream) (b : list byte) : M st unit :=
  modify (fun '(self, w) => (self, emit (SendAll sink b) w)).

Definition newline : string := String "010"%char EmptyString.
Definition crlf : string := String "013"%char (String "010"%char EmptyString).

Definition send (args : list arg) (kw : send_kwargs) : M st unit :=
  fun '(self, w) =>
    match istream self with
    | Some sink =>
        let js := match kw_json kw with Some v => v | None => PNone end in
        match kw_raw kw with
        | Some raw => sendall sink raw (self, w)
        | None =>
            if negb (is_None js) then
              match json_dump js with
              | Raise e => (Raise e, (self, w))
              | Return text =>
                  sendall sink (encode_utf8 (join "" [text; newline])) (self, w)
              end
            else
              let omsg := join " " (map (fun x => strip (str_of_arg x)) args) in
              let omsg := (omsg ++ crlf)%string in
              sendall sink (encode_utf8 omsg) (self, w)
        end
    | None => (Return tt, (self, w))
    end.

(** *** The child process *)

Definition set_retcode (rc : Z) (self : t) : t :=
  {| name := name self; disper := disper self; xformer := xformer self;
     queues := queues self;
     istream := istream self; ostream := ostream self;
     retcode := Some rc; started := started self;
     proc_handle := proc_handle self |}.

(** [_subp_watchForExit], the body of the exit-watch thread.  [returncode]
    is what the blocking [wait()] leaves in the process handle.  The
    attribute [proc_handle] exists only once [subprocess] has set it. *)
Definition _subp_watchForExit (returncode : Z) : M st unit :=
  fun '(self, w) =>
    match proc_handle self with
    | None => (Raise (AttributeError "proc_handle"), (self, w))
    | Some _ =>
        (modify (fun '(self, w) => (set_retcode returncode self, w)) ;;;
         _print (name self ++ " exited status " ++ str_of_int returncode))%py
          (self, w)
    end.

(** The [while] loop of [wait_subp_done].  The loop does not sleep; [sched]
    gives, for each pass that finds no exit code, what the exit-watch
    thread does before the next pass: [Some rc] when the process ends with
    status [rc] and the thread records it, [None] when nothing happens.
    The deadline [now + timeout] is the exact sum; the code rounds it to a
    double.  The two tests agree on a reading that is not before the exact
    deadline, and on one that is before it by more than the rounding. *)
Fixpoint wait_loop (sched : list (option Z)) (now timeout : Q) (s : st)
    : outcome (polled Z) * st :=
  let '(self, w) := s in
  let '(t, w1) := time_time w in
  if negb (Qle_bool (now + timeout) t) || Qeq_bool timeout 0%Q
  then
    match retcode self with
    | Some rc => (Return (Got rc), (self, w1))
    | None =>
        match sched with
        | [] => (Return StillPolling, (self, w1))
        | ev :: sched' =>
            let s2 := match ev with
                      | Some rc => snd (_subp_watchForExit rc (self, w1))
                      | None => (self, w1)
                      end in
            wait_loop sched' now timeout s2
        end
    end
  else
    (Raise (WatcherTimeoutException
              ("ran out of time wating for " ++ name self ++ " to complete")),
     (self, w1)).

(** [wait_subp_done(timeout=0)] *)
Definition wait_subp_done (timeout : option Q) (sched : list (option Z))
    (s : st) : outcome (polled Z) * st :=
  let '(self, w) := s in
  let timeout := match timeout with Some t => t | None => 0%Q end in
  let '(now, w1) := time_time w in
  wait_loop sched now timeout (self, w1).

(** [proc_running]; [poll] is what [Popen.poll()] answers for a process:
    its exit status, or [None] while it runs. *)
Definition proc_running (poll : nat -> option Z) : M st bool :=
  fun '(self, w) =>
    match proc_handle self with
    | None => (Raise (AttributeError "proc_handle"), (self, w))
    | Some pid =>
        (Return (match poll pid with None => true | Some _ => false end),
         (self, w))
    end.

End Watcher.

(** ** Vocabulary of the statements *)

(** The two sentinel lines a reading worker can emit. *)
Definition eof_mark : value := VStr "<<EOF>>".

Definition exception_mark (msg : string) : value :=
  VStr ("<<Exception on stream: " ++ msg ++ ">>").

(** A read that ends the worker: end of file, or an exception. *)
Definition terminal (r : read_result) : Prop :=
  r = Line "" \/ exists msg, r = ReadError msg.

(** The sentinel lines handed to [put] when the worker ends on [r]. *)
Definition sentinels (r : read_result) : list value :=
  match r with
  | Line _ => [eof_mark]
  | ReadError msg => [exception_mark msg; eof_mark]
  end.

(** A line is null or the empty string. *)
Definition null_or_empty (v : value) : Prop := v = VNone \/ v = VStr "".

(** A property of a queue and the world that a computation keeps. *)
Definition preserves {A} (P : ScanQueue.st -> Prop) (c : M ScanQueue.st A) : Prop :=
  forall s, P s -> P (snd (c s)).

(** The record [put] builds for [line] on queue [self] in world [w]. *)
Definition stamped (self : ScanQueue.t) (w : World) (line : value) : Rec.t :=
  {| Rec.ts := Some (clock (env w) (ticks w));
     Rec.name := ScanQueue.name self;
     Rec.line := ScanQueue.transformed self line |}.

(** A record whose line is neither the empty string nor null, and a queue
    that holds only such records. *)
Definition sound_line (v : Rec.t) : Prop :=
  Rec.line v <> VStr "" /\ Rec.line v <> VNone.

Definition sound (s : ScanQueue.st) : Prop :=
  Forall sound_line (ScanQueue.q (fst s)).

(** The records one [put] of [line] adds: one, or none when the line is
    dropped. *)
Definition put_recs (self : ScanQueue.t) (w : World) (line : value) : list Rec.t :=
  if ScanQueue.kept (ScanQueue.transformed self line)
  then [stamped self w line] else [].

(** The records a queue forwards reach the displayer when it has one. *)
Definition forwarded (self : ScanQueue.t) (recs : list Rec.t) : list Rec.t :=
  match ScanQueue.disper self with
  | Some _ => recs
  | None => []
  end.

(** *** Vocabulary for the pattern search *)

Section SearchVocabulary.
Context `{RE : RegexEngine}.

(** A record the drain can look at without a type error: its line is null,
    a [str], or empty [bytes]. *)
Definition searchable (r : Rec.t) : Prop :=
  match Rec.line r with
  | VNone | VStr _ => True
  | VBytes b => b = []
  | VInt _ => False
  end.

(** The success pattern does not match the line of [r]. *)
Definition misses (pat : pattern) (r : Rec.t) : Prop :=
  match Rec.line r with
  | VStr l => l = "" \/ search pat l = None
  | _ => True
  end.

(** No failure pattern matches the line of [r]. *)
Definition no_fail_hit (failpats : list pattern) (r : Rec.t) : Prop :=
  match Rec.line r with
  | VStr l => l = "" \/ Forall (fun fp => search fp l = None) failpats
  | _ => True
  end.

(** Some failure pattern matches [l]. *)
Definition fail_hit (failpats : list pattern) (l : string) : Prop :=
  Exists (fun fp => search fp l <> None) failpats.

(** The searches due on a record on which nothing matches: none when the
    line is skipped; otherwise every failure pattern in the order given,
    then the success pattern. *)
Definition quiet_probes (pat : pattern) (failpats : list pattern) (r : Rec.t)
    : list probe :=
  match Rec.line r with
  | VStr l =>
      if (String.length l =? 0)%nat then []
      else List.map (fun fp => FailProbe fp l) failpats ++ [PatProbe pat l]
  | _ => []
  end.

(** A line on which nothing matches: it is empty, or neither the success
    pattern nor any failure pattern matches it. *)
Definition quiet_line (pat : pattern) (fps : list pattern) (l : string) : Prop :=
  l = "" \/ (search pat l = None /\ Forall (fun fp => search fp l = None) fps).

(** A record on which nothing matches: the drain passes over it. *)
Definition quiet (pat : pattern) (fps : list pattern) (r : Rec.t) : Prop :=
  searchable r /\ misses pat r /\ no_fail_hit fps r.

(** A value that, put on a queue, is dropped or makes a record on which
    nothing matches. *)
Definition quiet_value (pat : pattern) (fps : list pattern) (v : value)
    : Prop :=
  match v with
  | VNone => True
  | VStr l => quiet_line pat fps l
  | VBytes b => b = []
  | VInt _ => False
  end.

(** The clock has not passed [start + timeout] at the next reading. *)
Definition in_time (w : World) (start timeout : Q) : Prop :=
  Qle_bool (clock (env w) (ticks w)) (start + timeout) = true.

End SearchVocabulary.

(** *** Vocabulary for [send] *)

(** Every character of [s] is whitespace. *)
Definition all_space (s : string) : Prop :=
  forallb isspace (list_ascii_of_string s) = true.

Definition first_char (s : string) : option ascii :=
  match s with
  | EmptyString => None
  | String c _ => Some c
  end.

Fixpoint last_char (s : string) : option ascii :=
  match s with
  | EmptyString => None
  | String c EmptyString => Some c
  | String _ r => last_char r
  end.

(** [s] neither starts nor ends with whitespace. *)
Definition trimmed (s : string) : Prop :=
  match first_char s with Some c => isspace c = false | None => True end
  /\ match last_char s with Some c => isspace c = false | None => True end.

(** The message of the text form, in the words of the specification: each
    piece stripped, the pieces joined with single spaces. *)
Fixpoint spaced (pieces : list string) : string :=
  match pieces with
  | [] => ""
  | [p] => strip p
  | p :: rest => strip p ++ " " ++ spaced rest
  end.

(** *** Vocabulary for the further properties *)

(** [n] calls of [get] one after the other; what they return, oldest
    first. *)
Fixpoint get_times (n : nat) (s : ScanQueue.st)
    : list (option Rec.t) * ScanQueue.st :=
  match n with
  | O => ([], s)
  | S k =>
      match ScanQueue.get s with
      | (Return v, s1) =>
          let '(vs, s2) := get_times k s1 in (v :: vs, s2)
      | (Raise _, s1) => ([], s1)
      end
  end.

(** The line a search was made on. *)
Definition probe_line `{RegexEngine} (p : probe) : string :=
  match p with
  | FailProbe _ l => l
  | PatProbe _ l => l
  end.

(** The search [p] was made on the line of one of the records
    [consumed]. *)
Definition searched_in `{RegexEngine} (consumed : list Rec.t) (p : probe) : Prop :=
  In (VStr (probe_line p)) (List.map Rec.line consumed).


(** *** Vocabulary for the deadlines *)

(** The code computes a deadline as a sum of two doubles, rounded to the
    nearest double: the sum it compares the clock with differs from the
    exact sum [x] by at most [|x| / 2^53]. *)
Definition float_slack (x : Q) : Q := Qabs x * (1 # 9007199254740992).

(** The reading [t] is after the deadline by more than the rounding of the
    deadline: after the exact sum and after the rounded one. *)
Definition clearly_after (t deadline : Q) : Prop :=
  Qle_bool t (deadline + float_slack deadline) = false.

(** The reading [t] is before the deadline by more than the rounding of
    the deadline. *)
Definition clearly_before (t deadline : Q) : Prop :=
  Qle_bool (deadline - float_slack deadline) t = false.

(** *** Vocabulary for the displayer *)

(** The thread of the displayer ends between the two statements of [stop]:
    it makes there at least as many passes as records are waiting, and
    then finds its queue empty. *)
Definition ends_before_put (between : option nat) (backlog : nat) : bool :=
  match between with
  | Some k => (backlog <=? k)%nat
  | None => false
  end.

(** The escape sequence that ends a coloured text. *)
Definition reset : string :=
  (ansi_color.open_escape ++ "0" ++ ansi_color.close_escape)%string.

(** An entry of [colorlist] that names entries of the palettes. *)
Definition valid_colour (c : DispQueue.colour) : Prop :=
  In (DispQueue.style c) ansi_color.styles
  /\ In (DispQueue.foreground c) ansi_color.colors
  /\ In (DispQueue.background c) ansi_color.colors.

Definition colorlist_ok (s : DispQueue.state) : Prop :=
  forall name c, DispQueue.colorlist s !! name = Some c -> valid_colour c.

(** The line [out] ends with the text of the record [v], after the last
    column separator, followed by nothing or by the reset sequence. *)
Definition printed_as (v : Rec.t) (out : string) : Prop :=
  exists pre post,
    out = (pre ++ " | " ++ str_of_value (Rec.line v) ++ post)%string
    /\ (post = "" \/ post = reset).

(** The uncoloured row of a record: time since the start, name column,
    text. *)
Definition row (start ts : Q) (name_column : string) (line : value) : string :=
  (format_8_3f (ts - start) ++ " | " ++ name_column ++ " | "
   ++ str_of_value line)%string.

(** ** Concrete instances *)

Module Examples.

(** A clock that stands still at 100 s, and an environment in which
    everything can be opened and nothing is ever read. *)
Definition env0 : Env :=
  {| clock := fun _ => 100%Q;
     have_pyserial := true;
     popen_ok := fun _ => true;
     connect_ok := fun _ _ => true;
     serial_ok := fun _ _ => true;
     proc_stdout := fun _ => [];
     proc_stderr := fun _ => [];
     sock_input := fun _ => [];
     serial_input := fun _ => [] |}.

Definition w0 : World :=
  {| env := env0; ticks := 0; displayed := []; os_log := [] |}.

(** A fresh queue reading the given script, wired to the displayer. *)
Definition queue_on (script : list read_result) : ScanQueue.st :=
  ScanQueue.init "dev" (Some script) (Some DispQueue.displayer) None w0.


(** A world in which the pyserial module is not installed. *)
Definition no_pyserial : World :=
  {| env := {| clock := fun _ => 100%Q;
               have_pyserial := false;
               popen_ok := fun _ => true;
               connect_ok := fun _ _ => true;
               serial_ok := fun _ _ => true;
               proc_stdout := fun _ => [];
               proc_stderr := fun _ => [];
               sock_input := fun _ => [];
               serial_input := fun _ => [] |};
     ticks := 0; displayed := []; os_log := [] |}.

(** A displayer started at 100 s whose thread has printed nothing yet. *)
Definition fresh_displayer (coloured : bool) : DispQueue.state :=
  {| DispQueue.starttime := 100%Q;
     DispQueue.running := true;
     DispQueue.colorlist := ∅;
     DispQueue.colorize := coloured;
     DispQueue.last_name := "";
     DispQueue.taken := 0;
     DispQueue.palette := ansi_color.fresh;
     DispQueue.stdout := [] |}.


(** A queue after its worker has taken [n] turns on [script]. *)
Definition queue_after (script : list read_result) (n : nat) : ScanQueue.st :=
  snd (ScanQueue.readLineAndQPut n (queue_on script)).

(** A queue whose stream has ended and whose FIFO has been read out. *)
Definition closed_and_empty : ScanQueue.st :=
  ScanQueue.perform_all [ScanQueue.CallWorker 1; ScanQueue.CallGet]
                        (queue_on [Line ""]).

(** A socket endpoint named ["dev"] whose only queue is [sq]. *)
Definition endpoint (sq : ScanQueue.t) : Watcher.t :=
  {| Watcher.name := "dev";
     Watcher.disper := Some DispQueue.displayer;
     Watcher.xformer := None;
     Watcher.queues := {[ "dev" := sq ]};
     Watcher.istream := Some (SocketStream 0);
     Watcher.ostream := None;
     Watcher.retcode := None;
     Watcher.started := true;
     Watcher.proc_handle := None |}.

(** The same endpoint with no input sink. *)
Definition read_only (sq : ScanQueue.t) : Watcher.t :=
  {| Watcher.name := "dev";
     Watcher.disper := Some DispQueue.displayer;
     Watcher.xformer := None;
     Watcher.queues := {[ "dev" := sq ]};
     Watcher.istream := None;
     Watcher.ostream := None;
     Watcher.retcode := None;
     Watcher.started := true;
     Watcher.proc_handle := None |}.

(** A socket endpoint named ["dev"] made with the transform
    [lambda s: ''], after the worker of its queue has met the end of the
    stream at its first read. *)
Definition blanked : Watcher.st :=
  let '(sq, w) :=
    snd (ScanQueue.readLineAndQPut 1
           (ScanQueue.init "dev" (Some [Line ""]) (Some DispQueue.displayer)
                           (Some (fun _ => VStr "")) w0)) in
  ({| Watcher.name := "dev";
      Watcher.disper := Some DispQueue.displayer;
      Watcher.xformer := Some (fun _ => VStr "");
      Watcher.queues := {[ "dev" := sq ]};
      Watcher.istream := Some (SocketStream 0);
      Watcher.ostream := None;
      Watcher.retcode := None;
      Watcher.started := true;
      Watcher.proc_handle := None |}, w).

(** [failpats=["ERROR"]] *)
Definition failpats_error : Watcher.watch_kwargs :=
  {| Watcher.kw_stderr := false; Watcher.kw_timeout := None;
     Watcher.kw_to := None; Watcher.kw_iterdelay := None;
     Watcher.kw_failpats := Some (Watcher.FailPatList ["ERROR"]);
     Watcher.kw_failpat := None |}.

(** [failpat="EOF"] *)
Definition failpat_eof : Watcher.watch_kwargs :=
  {| Watcher.kw_stderr := false; Watcher.kw_timeout := None;
     Watcher.kw_to := None; Watcher.kw_iterdelay := None;
     Watcher.kw_failpats := None;
     Watcher.kw_failpat := Some (Watcher.FailPatStr "EOF") |}.

(** [timeout=-1] *)
Definition timeout_minus_one : Watcher.watch_kwargs :=
  {| Watcher.kw_stderr := false; Watcher.kw_timeout := Some (-1)%Q;
     Watcher.kw_to := None; Watcher.kw_iterdelay := None;
     Watcher.kw_failpats := None; Watcher.kw_failpat := None |}.

(** Patterns that are plain text: a search looks for the text anywhere in
    the line and reports where it starts. *)
#[local] Instance literal : RegexEngine :=
  {| pattern := string;
     mtch := nat;
     compile := fun src => Return src;
     search := fun p line => String.index 0 p line;
     repr := fun p => ("re.compile('" ++ p ++ "')")%string |}.

End Examples.

(** * Properties *)

(** ** The palettes *)

Section Palettes.
Import ansi_color.

Lemma mod7_cases (i : Z) :
  let r := (i mod 7)%Z in
  r = 0%Z \/ r = 1%Z \/ r = 2%Z \/ r = 3%Z \/ r = 4%Z \/ r = 5%Z \/ r = 6%Z.
Proof. pose proof (Z.mod_pos_bound i 7); lia. Qed.

Lemma mod10_cases (i : Z) :
  let r := (i mod 10)%Z in
  r = 0%Z \/ r = 1%Z \/ r = 2%Z \/ r = 3%Z \/ r = 4%Z \/ r = 5%Z \/ r = 6%Z
  \/ r = 7%Z \/ r = 8%Z \/ r = 9%Z.
Proof. pose proof (Z.mod_pos_bound i 10); lia. Qed.

(** The colour a call returns is decided by the counter it leaves. *)
Lemma getnextcolor_eq (st : attrs) :
  getnextcolor st =
  (py_index colors (1 + (getattr0 (getnextcolor_index st) + 1) mod 7)%Z,
   {| getnextcolor_index := Some (getattr0 (getnextcolor_index st) + 1)%Z;
      getnextstyle_index := getnextstyle_index st |}).
Proof. reflexivity. Qed.

Lemma getnextcolor_real (st : attrs) :
  exists c, fst (getnextcolor st) = Return c /\ In c real_colors
            /\ c <> "black" /\ c <> "nochange".
Proof.
  rewrite getnextcolor_eq; cbn [fst].
  destruct (mod7_cases (getattr0 (getnextcolor_index st) + 1))
    as [E|[E|[E|[E|[E|[E|E]]]]]]; cbv zeta in E; rewrite E;
    eexists; (split; [vm_compute; reflexivity|]);
    (split; [cbn; tauto | split; discriminate]).
Qed.

(** Seven calls in a row produce each of the seven real colours. *)
Lemma getnextcolor_cycle (st : attrs) (c : string) :
  In c real_colors -> In (Return c) (fst (getnextcolor_n 7 st)).
Proof.
  intros Hc.
  set (i := getattr0 (getnextcolor_index st)).
  assert (Hout : fst (getnextcolor_n 7 st) =
                 List.map (fun k => py_index colors (1 + (i + k) mod 7)%Z)
                     [1; 2; 3; 4; 5; 6; 7]%Z).
  { unfold getnextcolor_n. rewrite !getnextcolor_eq. cbn [fst getnextcolor_index getattr0 List.map].
    fold i.
    repeat (f_equal; try (f_equal; f_equal; lia)). }
  rewrite Hout. cbn [List.map].
  assert (Hk : forall k, ((i + k) mod 7 = (i mod 7 + k) mod 7)%Z).
  { intros k. rewrite (Z.add_mod i k 7) by lia.
    rewrite (Z.add_mod (i mod 7) k 7) by lia.
    rewrite Z.mod_mod by lia. reflexivity. }
  rewrite !Hk.
  destruct (mod7_cases i) as [E|[E|[E|[E|[E|[E|E]]]]]]; cbv zeta in E;
    rewrite E; vm_compute;
    cbn in Hc; intuition (subst; tauto).
Qed.

Lemma getnextstyle_rotated (st : attrs) (ci : Z) :
  getnextcolor_index st = Some ci ->
  exists s, fst (getnextstyle st) = Return s
            /\ nth_error styles (Z.to_nat (ci mod 10)) = Some s
            /\ In s rotated_styles
            /\ s <> "nochange".
Proof.
  intros H. unfold getnextstyle. cbn [getnextcolor_index]. rewrite H.
  cbn [fst]. change (Z.of_nat (length styles) - 1)%Z with 10%Z.
  destruct (mod10_cases ci) as [E|[E|[E|[E|[E|[E|[E|[E|[E|E]]]]]]]]];
    cbv zeta in E; rewrite E;
    eexists; (split; [vm_compute; reflexivity|]);
    (split; [vm_compute; reflexivity|]);
    (split; [cbn; tauto | discriminate]).
Qed.

(** Each of the first ten styles is returned in a state that calls from the
    fresh state reach. *)
Lemma getnextstyle_covers (s : string) :
  In s rotated_styles ->
  exists k, (1 <= k <= 10)%nat
            /\ fst (getnextstyle (snd (getnextcolor_n k fresh))) = Return s.
Proof.
  intros Hs. cbn in Hs.
  destruct Hs as [E|[E|[E|[E|[E|[E|[E|[E|[E|[E|[]]]]]]]]]]]; subst s.
  - exists 10%nat. split; [lia | vm_compute; reflexivity].
  - exists 1%nat. split; [lia | vm_compute; reflexivity].
  - exists 2%nat. split; [lia | vm_compute; reflexivity].
  - exists 3%nat. split; [lia | vm_compute; reflexivity].
  - exists 4%nat. split; [lia | vm_compute; reflexivity].
  - exists 5%nat. split; [lia | vm_compute; reflexivity].
  - exists 6%nat. split; [lia | vm_compute; reflexivity].
  - exists 7%nat. split; [lia | vm_compute; reflexivity].
  - exists 8%nat. split; [lia | vm_compute; reflexivity].
  - exists 9%nat. split; [lia | vm_compute; reflexivity].
Qed.

End Palettes.

(** C7 (as the code has it): every call of [getnextcolor] returns one of the
    seven real colours, never the first entry ["black"] nor the last entry
    ["nochange"], and seven successive calls go through all seven of them;
    every call of [getnextstyle] made once the colour counter exists returns
    the entry of [styles] at the counter's value modulo ten, which is one of
    the first ten entries and never the last entry ["nochange"]; and the
    rotation covers these ten: each of them, the first entry ["normal"]
    included, is returned by [getnextstyle] in a state reached from the
    fresh one by one to ten calls of [getnextcolor]. *)
Theorem palette_rotation (st : ansi_color.attrs) :
  (exists c, fst (ansi_color.getnextcolor st) = Return c
             /\ In c ansi_color.real_colors
             /\ c <> "black" /\ c <> "nochange")
  /\ (forall c, In c ansi_color.real_colors ->
                In (Return c) (fst (ansi_color.getnextcolor_n 7 st)))
  /\ (forall ci, ansi_color.getnextcolor_index st = Some ci ->
        exists s, fst (ansi_color.getnextstyle st) = Return s
                  /\ nth_error ansi_color.styles (Z.to_nat (ci mod 10)) = Some s
                  /\ In s ansi_color.rotated_styles
                  /\ s <> "nochange")
  /\ (forall s, In s ansi_color.rotated_styles ->
        exists k, (1 <= k <= 10)%nat
                  /\ fst (ansi_color.getnextstyle
                            (snd (ansi_color.getnextcolor_n k ansi_color.fresh)))
                     = Return s).
Proof.
  split; [apply getnextcolor_real|].
  split; [apply getnextcolor_cycle|].
  split; [intros ci H; exact (getnextstyle_rotated st ci H)|].
  exact getnextstyle_covers.
Qed.

Lemma palette_rotation_witness :
  let st := snd (ansi_color.getnextcolor ansi_color.fresh) in
  ansi_color.getnextcolor_index st = Some 1%Z
  /\ exists s, fst (ansi_color.getnextstyle st) = Return s
               /\ nth_error ansi_color.styles (Z.to_nat (1 mod 10)) = Some s
               /\ In s ansi_color.rotated_styles /\ s <> "nochange".
Proof.
  split; [reflexivity|].
  apply (proj1 (proj2 (proj2 (palette_rotation
                         (snd (ansi_color.getnextcolor ansi_color.fresh)))))
               1%Z).
  reflexivity.
Defined.

(** C7 fails as stated: after ten calls of [getnextcolor], a call of
    [getnextstyle] returns ["normal"], the first entry of the style
    palette. *)
Lemma getnextstyle_returns_first_entry :
  let st := snd (ansi_color.getnextcolor_n 10 ansi_color.fresh) in
  fst (ansi_color.getnextstyle st) = Return "normal"
  /\ nth_error ansi_color.styles 0 = Some "normal".
Proof. split; vm_compute; reflexivity. Qed.

(** ** The line reader queue *)

Section QueueFacts.
Import ScanQueue.

Lemma preserves_ret {A} (P : st -> Prop) (a : A) : preserves P (ret a).
Proof. intros s H; exact H. Qed.

Lemma preserves_bind {A B} (P : st -> Prop) (c : M st A) (k : A -> M st B) :
  preserves P c -> (forall a, preserves P (k a)) -> preserves P (bind c k).
Proof.
  intros Hc Hk s H. unfold bind.
  specialize (Hc s H). destruct (c s) as [[a|e] s1]; cbn [snd] in *.
  - apply Hk, Hc.
  - exact Hc.
Qed.

Lemma preserves_modify (P : st -> Prop) (f : st -> st) :
  (forall s, P s -> P (f s)) -> preserves P (modify f).
Proof. intros Hf s H; apply Hf, H. Qed.

Lemma put_open (self : t) (w : World) (line : value) :
  closed self = false ->
  put line (self, w) =
  (Return tt,
   if kept (transformed self line)
   then (set_q (q self ++ [stamped self w line]) self,
         match disper self with
         | Some _ => show (stamped self w line) (set_ticks (S (ticks w)) w)
         | None => set_ticks (S (ticks w)) w
         end)
   else (self, set_ticks (S (ticks w)) w)).
Proof.
  intros Hc. unfold put. rewrite Hc. cbn.
  destruct (kept (transformed self line)); [|reflexivity].
  destruct (disper self); reflexivity.
Qed.

Lemma put_closed (self : t) (w : World) (line : value) :
  closed self = true -> put line (self, w) = (Raise AssertionError, (self, w)).
Proof. intros Hc. unfold put. rewrite Hc. reflexivity. Qed.

Lemma kept_false_iff (v : value) : kept v = false <-> null_or_empty v.
Proof.
  unfold null_or_empty. destruct v as [|s|b|i]; cbn.
  - tauto.
  - destruct s; cbn; split; intros H; try discriminate; try tauto;
      destruct H as [H|H]; discriminate.
  - split; [discriminate|intros [H|H]; discriminate].
  - split; [discriminate|intros [H|H]; discriminate].
Qed.

(** *** Every record in the FIFO has a line that is neither null nor empty *)

Lemma kept_sound (self : t) (w : World) (line : value) :
  kept (transformed self line) = true -> sound_line (stamped self w line).
Proof.
  intros H. unfold sound_line; cbn. split; intros E; rewrite E in H;
    discriminate.
Qed.

Lemma put_sound (line : value) : preserves sound (put line).
Proof.
  intros [self w] H. destruct (closed self) eqn:Hc.
  - rewrite put_closed by assumption. exact H.
  - rewrite put_open by assumption. cbn [snd].
    destruct (kept (transformed self line)) eqn:Hk; [|exact H].
    unfold sound in *; cbn [fst set_q q] in *.
    apply Forall_app; split; [exact H|].
    constructor; [|constructor]. apply kept_sound, Hk.
Qed.

Lemma get_sound : preserves sound get.
Proof.
  intros [self w] H. unfold get, sound in *; cbn [fst] in *.
  destruct (q self) as [|v rest] eqn:E; cbn; [rewrite E; exact H|].
  inversion H; assumption.
Qed.

Lemma close_sound : preserves sound close.
Proof.
  unfold close. apply preserves_bind; [apply put_sound|].
  intros _. apply preserves_modify. intros [self w] H; exact H.
Qed.

Lemma fh_close_sound : preserves sound fh_close.
Proof.
  intros [self w] H. unfold fh_close. destruct (fh self); exact H.
Qed.

Lemma readline_sound : preserves sound readline.
Proof.
  intros [self w] H. unfold readline.
  destruct (fh self) as [h|]; [|exact H].
  destruct (pending h) as [|[s|msg] rest]; exact H.
Qed.

Lemma body_sound : preserves sound readLineAndQPut_body.
Proof.
  intros s H. unfold readLineAndQPut_body.
  pose proof (readline_sound s H) as H1.
  destruct (readline s) as [[[line|]|e] s1]; cbn [snd] in H1.
  - destruct (String.length line =? 0)%nat.
    + revert s1 H1. change (preserves sound (fh_close ;;; close ;;; ret Stop)%py).
      apply preserves_bind; [apply fh_close_sound|intros _].
      apply preserves_bind; [apply close_sound|intros _].
      apply preserves_ret.
    + revert s1 H1.
      change (preserves sound (put (VStr (rstrip line)) ;;; ret Continue)%py).
      apply preserves_bind; [apply put_sound|intros ?; apply preserves_ret].
  - exact H1.
  - revert s1 H1.
    change (preserves sound
              (put (VStr ("<<Exception on stream: " ++ str_of_exn e ++ ">>")) ;;;
               fh_close ;;; close ;;; ret Stop)%py).
    apply preserves_bind; [apply put_sound|intros _].
    apply preserves_bind; [apply fh_close_sound|intros _].
    apply preserves_bind; [apply close_sound|intros _].
    apply preserves_ret.
Qed.

Lemma worker_sound (n : nat) : preserves sound (readLineAndQPut n).
Proof.
  induction n as [|n IH]; intros s H; cbn [readLineAndQPut].
  - destruct (closed (fst s)); exact H.
  - destruct (closed (fst s)); [exact H|].
    pose proof (body_sound s H) as H1.
    destruct (readLineAndQPut_body s) as [[[| |]|e] s1]; cbn [snd] in *;
      auto.
Qed.

Lemma perform_sound (c : call) (s : st) : sound s -> sound (perform c s).
Proof.
  destruct c; cbn [perform].
  - apply put_sound.
  - apply get_sound.
  - apply close_sound.
  - apply worker_sound.
Qed.

Lemma perform_all_sound (cs : list call) (s : st) :
  sound s -> sound (perform_all cs s).
Proof.
  revert s. induction cs as [|c cs IH]; intros s H; cbn; [exact H|].
  apply IH, perform_sound, H.
Qed.

End QueueFacts.

(** C5: whatever calls are made on a queue from its creation on ([put], with
    or without a transform, [get], [close], turns of the reading worker),
    no record in its private FIFO has the empty string, or null, as its
    line. *)
Theorem fifo_lines_never_empty (nm : string)
    (input : option (list read_result)) (d : option DispQueue.t)
    (x : option (value -> value)) (w : World) (cs : list ScanQueue.call) :
  Forall (fun v => Rec.line v <> VStr "" /\ Rec.line v <> VNone)
         (ScanQueue.q
            (fst (ScanQueue.perform_all cs (ScanQueue.init nm input d x w)))).
Proof.
  apply perform_all_sound.
  unfold sound, ScanQueue.init. destruct input; cbn; constructor.
Qed.

Section FanOut.
Import ScanQueue.

Lemma put_all_cons (l : value) (rest : list value) (self : t) (w : World) :
  closed self = false ->
  put_all (l :: rest) (self, w) = put_all rest (snd (put l (self, w))).
Proof.
  intros Hc. cbn [put_all]. unfold bind at 1.
  rewrite (put_open self w l Hc). reflexivity.
Qed.

Lemma put_all_open (d : DispQueue.t) (lines : list value) :
  forall (self : t) (w : World),
    closed self = false -> disper self = Some d ->
    exists self' w' recs,
      put_all lines (self, w) = (Return tt, (self', w'))
      /\ q self' = q self ++ recs
      /\ displayed w' = displayed w ++ recs
      /\ List.map Rec.line recs
         = List.filter kept (List.map (transformed self) lines)
      /\ closed self' = false.
Proof.
  induction lines as [|l rest IH]; intros self w Hc Hd.
  - exists self, w, []. cbn. rewrite !app_nil_r. auto.
  - rewrite put_all_cons by assumption. rewrite put_open by assumption.
    cbn [snd List.map List.filter].
    destruct (kept (transformed self l)) eqn:Hk.
    + rewrite Hd.
      destruct (IH (set_q (q self ++ [stamped self w l]) self)
                   (show (stamped self w l) (set_ticks (S (ticks w)) w)))
        as (self' & w' & recs & E & Hq & Hs & Hl & Hc'); [exact Hc|exact Hd|].
      exists self', w', (stamped self w l :: recs).
      cbn [set_q q show displayed set_ticks] in Hq, Hs.
      rewrite <- !app_assoc in Hq, Hs. cbn [app] in Hq, Hs.
      repeat split; try assumption.
      cbn [List.map]. f_equal. exact Hl.
    + destruct (IH self (set_ticks (S (ticks w)) w))
        as (self' & w' & recs & E & Hq & Hs & Hl & Hc'); [exact Hc|exact Hd|].
      exists self', w', recs. repeat split; assumption.
Qed.

End FanOut.

(** C3: a sequence of [put] calls on an open queue wired to the displayer
    sends to the displayer exactly the records it appends to the private
    FIFO, in the same order: they are the given lines, transformed, in the
    order of the calls, less those that are null or the empty string. *)
Theorem put_fans_out_in_order (d : DispQueue.t) (lines : list value)
    (self : ScanQueue.t) (w : World) :
  ScanQueue.closed self = false ->
  ScanQueue.disper self = Some d ->
  exists self' w' recs,
    ScanQueue.put_all lines (self, w) = (Return tt, (self', w'))
    /\ ScanQueue.q self' = ScanQueue.q self ++ recs
    /\ displayed w' = displayed w ++ recs
    /\ List.map Rec.line recs
       = List.filter ScanQueue.kept
           (List.map (ScanQueue.transformed self) lines)
    /\ (forall v, ScanQueue.kept v = false <-> null_or_empty v).
Proof.
  intros Hc Hd.
  destruct (put_all_open d lines self w Hc Hd)
    as (self' & w' & recs & E & Hq & Hs & Hl & _).
  exists self', w', recs. repeat split; try assumption;
    apply kept_false_iff.
Qed.

Lemma put_fans_out_in_order_witness :
  let s := Examples.queue_on [] in
  exists self' w' recs,
    ScanQueue.put_all [VStr "a"; VStr ""; VNone; VStr "b"] s
    = (Return tt, (self', w'))
    /\ ScanQueue.q self' = ScanQueue.q (fst s) ++ recs
    /\ displayed w' = displayed (snd s) ++ recs
    /\ List.map Rec.line recs
       = List.filter ScanQueue.kept
           (List.map (ScanQueue.transformed (fst s))
                     [VStr "a"; VStr ""; VNone; VStr "b"])
    /\ (forall v, ScanQueue.kept v = false <-> null_or_empty v).
Proof.
  apply (put_fans_out_in_order DispQueue.displayer
           [VStr "a"; VStr ""; VNone; VStr "b"]
           (fst (Examples.queue_on [])) (snd (Examples.queue_on []))).
  - reflexivity.
  - reflexivity.
Defined.

(** ** The reading worker *)

Section Worker.
Import ScanQueue.

Lemma put_recs_lines (self : t) (w : World) (line : value) :
  List.map Rec.line (put_recs self w line)
  = List.filter kept [transformed self line].
Proof.
  unfold put_recs. cbn [List.filter].
  destruct (kept (transformed self line)); reflexivity.
Qed.

(** [put] on an open queue, in one equation for both branches. *)
Lemma put_step (self : t) (w : World) (line : value) :
  closed self = false ->
  exists w',
    put line (self, w)
    = (Return tt, (set_q (q self ++ put_recs self w line) self, w'))
    /\ displayed w' = displayed w ++ forwarded self (put_recs self w line)
    /\ env w' = env w.
Proof.
  intros Hc. rewrite put_open by assumption. unfold put_recs, forwarded.
  destruct (kept (transformed self line)).
  - destruct (disper self); eexists; (split; [reflexivity|]); cbn;
      rewrite ?app_nil_r; auto.
  - eexists. split.
    + rewrite app_nil_r. destruct self; reflexivity.
    + destruct (disper self); cbn; rewrite app_nil_r; auto.
Qed.

Lemma close_step (self : t) (w : World) :
  closed self = false ->
  exists w',
    close (self, w)
    = (Return tt,
       (set_closed true (set_q (q self ++ put_recs self w eof_mark) self), w'))
    /\ displayed w' = displayed w ++ forwarded self (put_recs self w eof_mark)
    /\ env w' = env w.
Proof.
  intros Hc. destruct (put_step self w eof_mark Hc) as (w' & E & Hd & He).
  exists w'. unfold close, bind. unfold eof_mark in E. rewrite E.
  cbn. auto.
Qed.

(** A closed queue has no worker left to run. *)
Lemma worker_closed (n : nat) (self : t) (w : World) :
  closed self = true ->
  readLineAndQPut n (self, w) = (Return Finished, (self, w)).
Proof. intros Hc. destruct n; cbn; rewrite Hc; reflexivity. Qed.

Lemma forwarded_app (self : t) (a b : list Rec.t) :
  forwarded self (a ++ b) = forwarded self a ++ forwarded self b.
Proof. unfold forwarded. destruct (disper self); reflexivity. Qed.

Lemma nonempty_length (s : string) : s <> "" -> (String.length s =? 0)%nat = false.
Proof. destruct s; [congruence|reflexivity]. Qed.

Lemma transformed_set_q (l : list Rec.t) (self : t) :
  transformed (set_q l self) = transformed self.
Proof. reflexivity. Qed.

Lemma transformed_set_fh (h : option infile) (self : t) :
  transformed (set_fh h self) = transformed self.
Proof. reflexivity. Qed.

(** The last turn of a worker: the read that ends it. *)
Lemma worker_last_turn (self : t) (w : World) (h : infile)
    (last : read_result) (rest : list read_result) (k : nat) :
  closed self = false ->
  fh self = Some h ->
  pending h = last :: rest ->
  terminal last ->
  exists self' w' recs,
    readLineAndQPut (S k) (self, w) = (Return Finished, (self', w'))
    /\ closed self' = true
    /\ q self' = q self ++ recs
    /\ displayed w' = displayed w ++ forwarded self recs
    /\ List.map Rec.line recs
       = List.filter kept (List.map (transformed self) (sentinels last))
    /\ fh self' = Some {| pending := rest; fh_closed := true |}.
Proof.
  intros Hc Hfh Hp Hterm.
  cbn [readLineAndQPut fst]. rewrite Hc.
  unfold readLineAndQPut_body, readline. rewrite Hfh, Hp.
  destruct Hterm as [->|[msg ->]].
  - cbn [String.length Nat.eqb]. unfold bind at 1, fh_close at 1.
    cbn [fh set_fh pending fh_closed].
    set (self1 := set_fh (Some {| pending := rest; fh_closed := true |}) _).
    destruct (close_step self1 w Hc) as (w' & E & Hd & _).
    unfold bind at 1. rewrite E. cbn [ret].
    eexists _, w', (put_recs self1 w eof_mark). split; [reflexivity|].
    split; [reflexivity|]. split; [reflexivity|].
    split; [exact Hd|].
    split; [exact (put_recs_lines self1 w eof_mark)|reflexivity].
  - unfold bind at 1.
    set (self1 := set_fh (Some {| pending := rest; fh_closed := fh_closed h |}) self).
    destruct (put_step self1 w (exception_mark msg) Hc) as (w1 & E1 & Hd1 & _).
    cbn [str_of_exn]. unfold exception_mark in E1. rewrite E1.
    unfold bind at 1, fh_close at 1. cbn [fh set_fh set_q pending fh_closed self1].
    set (self2 := set_fh _ _).
    destruct (close_step self2 w1 Hc) as (w2 & E2 & Hd2 & _).
    unfold bind at 1. rewrite E2. cbn [ret].
    eexists _, w2,
      (put_recs self1 w (exception_mark msg) ++ put_recs self2 w1 eof_mark).
    split; [reflexivity|].
    split; [reflexivity|].
    split; [cbn; rewrite <- app_assoc; reflexivity|].
    split; [rewrite Hd2, Hd1, <- app_assoc, forwarded_app; reflexivity|].
    split; [|reflexivity].
    rewrite List.map_app, !put_recs_lines.
    change (sentinels (ReadError msg)) with ([exception_mark msg] ++ [eof_mark]).
    rewrite List.map_app, List.filter_app. reflexivity.
Qed.

(** A whole run: the lines read before the terminal read, then the
    terminal read. *)
Lemma worker_run (lines : list string) :
  forall (self : t) (w : World) (h : infile) (last : read_result)
         (rest : list read_result) (n : nat),
    closed self = false ->
    fh self = Some h ->
    pending h = List.map Line lines ++ last :: rest ->
    Forall (fun s => s <> "") lines ->
    terminal last ->
    (length lines < n)%nat ->
    exists self' w' recs,
      readLineAndQPut n (self, w) = (Return Finished, (self', w'))
      /\ closed self' = true
      /\ q self' = q self ++ recs
      /\ displayed w' = displayed w ++ forwarded self recs
      /\ List.map Rec.line recs
         = List.filter kept
             (List.map (transformed self)
                (List.map (fun s => VStr (rstrip s)) lines ++ sentinels last))
      /\ fh self' = Some {| pending := rest; fh_closed := true |}.
Proof.
  induction lines as [|s lines IH];
    intros self w h last rest n Hc Hfh Hp Hne Hterm Hn.
  - destruct n as [|k]; [cbn in Hn; lia|].
    exact (worker_last_turn self w h last rest k Hc Hfh Hp Hterm).
  - destruct n as [|k]; [cbn in Hn; lia|].
    inversion Hne as [|? ? Hs Hne']; subst.
    cbn [readLineAndQPut fst]. rewrite Hc.
    unfold readLineAndQPut_body, readline. rewrite Hfh, Hp.
    cbn [List.map app]. rewrite (nonempty_length s Hs).
    set (self1 := set_fh _ self).
    destruct (put_step self1 w (VStr (rstrip s)) Hc) as (w1 & E1 & Hd1 & _).
    unfold bind at 1. rewrite E1. cbn [ret].
    set (self2 := set_q _ self1).
    destruct (IH self2 w1
                 {| pending := List.map Line lines ++ last :: rest;
                    fh_closed := fh_closed h |} last rest k)
      as (self' & w' & recs & E & Hc' & Hq & Hd & Hl & Hf);
      [exact Hc|reflexivity|reflexivity|exact Hne'|exact Hterm|cbn in Hn; lia|].
    exists self', w', (put_recs self1 w (VStr (rstrip s)) ++ recs).
    split; [exact E|]. split; [exact Hc'|].
    split; [rewrite Hq; cbn; rewrite <- app_assoc; reflexivity|].
    split; [rewrite Hd, Hd1, <- app_assoc, forwarded_app; reflexivity|].
    split; [|exact Hf].
    rewrite List.map_app, put_recs_lines, Hl.
    change (List.filter kept [transformed self1 (VStr (rstrip s))] ++ ?x)
      with (List.filter kept ([transformed self (VStr (rstrip s))]) ++ x).
    rewrite <- List.filter_app. reflexivity.
Qed.

End Worker.

(** C4 (as the code has it): when the reading worker of an open queue meets
    the read that ends it, after any number of non-empty lines, it ends with
    the queue closed and its file closed, having delivered the lines and
    then the sentinels, and nothing is produced afterwards.  With sentinels
    that the transform leaves as they are, an end of file delivers the one
    sentinel ["<<EOF>>"]; a read exception delivers two, the
    ["<<Exception on stream: ...>>"] record and then ["<<EOF>>"]. *)
Theorem worker_ends_with_sentinels (self : ScanQueue.t) (w : World)
    (h : ScanQueue.infile) (lines : list string) (last : read_result)
    (rest : list read_result) (n : nat) :
  ScanQueue.closed self = false ->
  ScanQueue.fh self = Some h ->
  ScanQueue.pending h = List.map Line lines ++ last :: rest ->
  Forall (fun s => s <> "") lines ->
  terminal last ->
  Forall (fun v => ScanQueue.transformed self v = v) (sentinels last) ->
  (length lines < n)%nat ->
  exists self' w' recs,
    ScanQueue.readLineAndQPut n (self, w)
    = (Return ScanQueue.Finished, (self', w'))
    /\ ScanQueue.closed self' = true
    /\ ScanQueue.fh self'
       = Some {| ScanQueue.pending := rest; ScanQueue.fh_closed := true |}
    /\ ScanQueue.q self' = ScanQueue.q self ++ recs
    /\ List.map Rec.line recs
       = List.filter ScanQueue.kept
           (List.map (fun s => ScanQueue.transformed self (VStr (rstrip s)))
                     lines)
         ++ sentinels last
    /\ length (sentinels last)
       = match last with Line _ => 1%nat | ReadError _ => 2%nat end
    /\ (forall m, ScanQueue.readLineAndQPut m (self', w')
                  = (Return ScanQueue.Finished, (self', w'))).
Proof.
  intros Hc Hfh Hp Hne Hterm Hx Hn.
  destruct (worker_run lines self w h last rest n Hc Hfh Hp Hne Hterm Hn)
    as (self' & w' & recs & E & Hc' & Hq & _ & Hl & Hf).
  exists self', w', recs.
  split; [exact E|]. split; [exact Hc'|]. split; [exact Hf|].
  split; [exact Hq|]. split; [|split].
  - rewrite Hl, List.map_app, List.filter_app, List.map_map. f_equal.
    destruct last as [s|msg]; cbn [sentinels List.map] in *.
    + inversion Hx as [|? ? H1 _]; subst. rewrite H1. reflexivity.
    + inversion Hx as [|? ? H1 Hx']; subst.
      inversion Hx' as [|? ? H2 _]; subst.
      rewrite H1, H2. reflexivity.
  - destruct last; reflexivity.
  - intros m. apply worker_closed, Hc'.
Qed.

Lemma worker_ends_with_sentinels_witness :
  let s := Examples.queue_on [Line "i 0 "; Line ""] in
  exists self' w' recs,
    ScanQueue.readLineAndQPut 2 s = (Return ScanQueue.Finished, (self', w'))
    /\ ScanQueue.closed self' = true
    /\ ScanQueue.fh self'
       = Some {| ScanQueue.pending := []; ScanQueue.fh_closed := true |}
    /\ ScanQueue.q self' = ScanQueue.q (fst s) ++ recs
    /\ List.map Rec.line recs
       = List.filter ScanQueue.kept
           (List.map
              (fun l => ScanQueue.transformed (fst s) (VStr (rstrip l)))
              ["i 0 "])
         ++ sentinels (Line "")
    /\ length (sentinels (Line "")) = 1%nat
    /\ (forall m, ScanQueue.readLineAndQPut m (self', w')
                  = (Return ScanQueue.Finished, (self', w'))).
Proof.
  apply (worker_ends_with_sentinels
           (fst (Examples.queue_on [Line "i 0 "; Line ""]))
           (snd (Examples.queue_on [Line "i 0 "; Line ""]))
           {| ScanQueue.pending := [Line "i 0 "; Line ""];
              ScanQueue.fh_closed := false |}
           ["i 0 "] (Line "") [] 2).
  - reflexivity.
  - reflexivity.
  - reflexivity.
  - constructor; [discriminate|constructor].
  - left; reflexivity.
  - constructor; [reflexivity|constructor].
  - cbn; lia.
Defined.

(** C4 fails as stated: a worker ended by a read exception delivers two
    sentinel records, not one. *)
Lemma read_exception_delivers_two_sentinels :
  let s := Examples.queue_on [ReadError "boom"] in
  let '(r, (self', _)) := ScanQueue.readLineAndQPut 1 s in
  r = Return ScanQueue.Finished
  /\ ScanQueue.closed self' = true
  /\ List.map Rec.line (ScanQueue.q self')
     = [VStr "<<Exception on stream: boom>>"; VStr "<<EOF>>"].
Proof. vm_compute. repeat split; reflexivity. Qed.

(** ** The pattern search *)

Section SearchFacts.
Context `{RE : RegexEngine}.
Import Watcher.

Lemma check_failpats_miss (fps : list pattern) (l : string) :
  Forall (fun fp => search fp l = None) fps ->
  check_failpats fps l = (None, List.map (fun fp => FailProbe fp l) fps).
Proof.
  induction 1 as [|fp fps Hfp _ IH]; cbn; [reflexivity|].
  rewrite Hfp, IH. reflexivity.
Qed.

Lemma check_failpats_None (fps : list pattern) (l : string) (tr : list probe) :
  check_failpats fps l = (None, tr) ->
  Forall (fun fp => search fp l = None) fps
  /\ tr = List.map (fun fp => FailProbe fp l) fps.
Proof.
  revert tr. induction fps as [|fp fps IH]; intros tr E; cbn in E.
  - inversion E; subst. split; [constructor|reflexivity].
  - destruct (search fp l) eqn:Hs; [discriminate|].
    destruct (check_failpats fps l) as [r tr'] eqn:E'.
    inversion E; subst.
    destruct (IH tr' eq_refl) as [Hf Ht]. subst.
    split; [constructor; assumption|reflexivity].
Qed.

Lemma check_failpats_Some (fps : list pattern) (l : string) (fp : pattern)
    (tr : list probe) :
  check_failpats fps l = (Some fp, tr) ->
  exists before after,
    fps = before ++ fp :: after
    /\ Forall (fun p => search p l = None) before
    /\ search fp l <> None
    /\ tr = List.map (fun p => FailProbe p l) (before ++ [fp]).
Proof.
  revert tr. induction fps as [|p fps IH]; intros tr E; cbn in E.
  - discriminate.
  - destruct (search p l) eqn:Hs.
    + inversion E; subst. exists [], fps. cbn.
      repeat split; [constructor|congruence].
    + destruct (check_failpats fps l) as [r tr'] eqn:E'.
      inversion E; subst.
      destruct (IH tr' eq_refl) as (before & after & Hfps & Hb & Hhit & Ht).
      exists (p :: before), after. subst. cbn.
      repeat split; [constructor; assumption|assumption].
Qed.

Lemma check_failpats_hit (fps : list pattern) (l : string) :
  fail_hit fps l -> exists fp tr, check_failpats fps l = (Some fp, tr).
Proof.
  intros H. destruct (check_failpats fps l) as [[fp|] tr] eqn:E; [eauto|].
  apply check_failpats_None in E. destruct E as [Hf _].
  unfold fail_hit in H. apply Exists_exists in H.
  destruct H as (fp & Hin & Hs). rewrite Forall_forall in Hf.
  elim Hs. apply Hf. exact Hin.
Qed.

Lemma drain_quiet (pat : pattern) (fps : list pattern) (r : Rec.t)
    (rest : list Rec.t) :
  quiet pat fps r ->
  drain (r :: rest) pat fps =
  let '(res, lft, tr) := drain rest pat fps in
  (res, lft, quiet_probes pat fps r ++ tr).
Proof.
  intros (Hs & Hm & Hf). cbn [drain].
  unfold searchable, misses, no_fail_hit, quiet_probes in *.
  destruct (Rec.line r) as [|l|b|i].
  - destruct (drain rest pat fps) as [[res lft] tr]. reflexivity.
  - destruct (String.length l =? 0)%nat eqn:El.
    + destruct (drain rest pat fps) as [[res lft] tr]. reflexivity.
    + assert (l <> "") by (intros ->; discriminate).
      destruct Hm as [?|Hm]; [contradiction|].
      destruct Hf as [?|Hf]; [contradiction|].
      rewrite (check_failpats_miss fps l Hf), Hm.
      destruct (drain rest pat fps) as [[res lft] tr].
      rewrite <- app_assoc. reflexivity.
  - subst b. cbn. destruct (drain rest pat fps) as [[res lft] tr].
    reflexivity.
  - contradiction.
Qed.

Lemma drain_quiet_prefix (pat : pattern) (fps : list pattern)
    (pre rest : list Rec.t) :
  Forall (quiet pat fps) pre ->
  drain (pre ++ rest) pat fps =
  let '(res, lft, tr) := drain rest pat fps in
  (res, lft, flat_map (quiet_probes pat fps) pre ++ tr).
Proof.
  induction 1 as [|r pre Hr _ IH]; cbn [app flat_map].
  - destruct (drain rest pat fps) as [[res lft] tr]. reflexivity.
  - rewrite (drain_quiet pat fps r (pre ++ rest) Hr), IH.
    destruct (drain rest pat fps) as [[res lft] tr].
    rewrite <- app_assoc. reflexivity.
Qed.

(** The drain stops on a line that a failure pattern matches. *)
Lemma drain_fail (pat : pattern) (fps : list pattern) (v : Rec.t)
    (post : list Rec.t) (l : string) (fp : pattern) (tr : list probe) :
  Rec.line v = VStr l -> l <> "" ->
  check_failpats fps l = (Some fp, tr) ->
  drain (v :: post) pat fps
  = (Raise (WatcherFailPatFoundException (" while look for " ++ repr fp)),
     post, tr).
Proof.
  intros Hl Hne E. cbn [drain]. rewrite Hl, (nonempty_length l Hne), E.
  reflexivity.
Qed.

(** The drain stops on a line that the success pattern matches and no
    failure pattern does. *)
Lemma drain_success (pat : pattern) (fps : list pattern) (v : Rec.t)
    (post : list Rec.t) (l : string) (m : mtch) :
  Rec.line v = VStr l -> l <> "" ->
  Forall (fun fp => search fp l = None) fps ->
  search pat l = Some m ->
  drain (v :: post) pat fps
  = (Return (Some m), post,
     List.map (fun fp => FailProbe fp l) fps ++ [PatProbe pat l]).
Proof.
  intros Hl Hne Hf Hm. cbn [drain].
  rewrite Hl, (nonempty_length l Hne), (check_failpats_miss fps l Hf), Hm.
  reflexivity.
Qed.

(** Among records that can be searched and that the success pattern does
    not match, followed by a record that a failure pattern matches, there is
    a first record that a failure pattern matches. *)
Lemma first_fail_record (pat : pattern) (fps : list pattern)
    (pre : list Rec.t) (v : Rec.t) (post : list Rec.t) (l : string) :
  Forall searchable pre -> Forall (misses pat) pre ->
  Rec.line v = VStr l -> l <> "" -> fail_hit fps l ->
  exists pre1 v1 post1 l1 fp tr,
    pre ++ v :: post = pre1 ++ v1 :: post1
    /\ (length pre1 <= length pre)%nat
    /\ Forall (quiet pat fps) pre1
    /\ Rec.line v1 = VStr l1 /\ l1 <> ""
    /\ check_failpats fps l1 = (Some fp, tr).
Proof.
  intros Hs Hm Hl Hne Hhit.
  induction pre as [|r pre IH].
  - destruct (check_failpats_hit fps l Hhit) as (fp & tr & E).
    exists [], v, post, l, fp, tr. cbn. repeat split; auto.
  - inversion Hs as [|? ? Hsr Hs']; inversion Hm as [|? ? Hmr Hm']; subst.
    assert (Hrec : quiet pat fps r ->
              exists pre1 v1 post1 l1 fp tr,
                (r :: pre) ++ v :: post = pre1 ++ v1 :: post1
                /\ (length pre1 <= length (r :: pre))%nat
                /\ Forall (quiet pat fps) pre1
                /\ Rec.line v1 = VStr l1 /\ l1 <> ""
                /\ check_failpats fps l1 = (Some fp, tr)).
    { intros Hq.
      destruct (IH Hs' Hm') as (pre1 & v1 & post1 & l1 & fp & tr & E & Hlen
                                & Hq1 & Hl1 & Hne1 & Hc).
      exists (r :: pre1), v1, post1, l1, fp, tr. cbn. rewrite E.
      repeat split; auto. lia. }
    destruct (Rec.line r) as [|lr|b|i] eqn:Er.
    + apply Hrec. unfold quiet, searchable, misses, no_fail_hit.
      rewrite Er. auto.
    + destruct lr as [|c lr'].
      * apply Hrec. unfold quiet, searchable, misses, no_fail_hit.
        rewrite Er. auto.
      * destruct (check_failpats fps (String c lr')) as [[fp|] tr] eqn:E.
        -- exists [], r, (pre ++ v :: post), (String c lr'), fp, tr. cbn.
           repeat split; auto; try lia; discriminate.
        -- apply check_failpats_None in E. destruct E as [Hf _].
           apply Hrec. unfold quiet, searchable, misses, no_fail_hit.
           rewrite Er. unfold misses in Hmr. rewrite Er in Hmr. auto.
    + apply Hrec. unfold quiet, searchable, misses, no_fail_hit.
      unfold searchable in Hsr. rewrite Er in *. auto.
    + unfold searchable in Hsr. rewrite Er in Hsr. contradiction.
Qed.

(** One poll of the loop that ends it with an exception raised by the
    search. *)
Lemma loop_raise (sched : list (list string)) (qname : string)
    (start timeout : Q) (src : string) (pat : pattern) (fps : list pattern)
    (self : t) (w : World) (sq sq' : ScanQueue.t) (e : exn)
    (tr : list probe) :
  queues self !! qname = Some sq ->
  in_time w start timeout ->
  _internalSearcher sq pat fps = (Raise e, sq', tr) ->
  watchFor_loop sched qname start timeout src pat fps (self, w)
  = (Raise e, (attach_queue qname sq' self, set_ticks (S (ticks w)) w), tr).
Proof.
  intros Hq Ht E. unfold in_time in Ht.
  destruct sched; cbn [watchFor_loop time_time]; rewrite Ht, Hq, E;
    reflexivity.
Qed.

(** One poll of the loop that ends it with a match. *)
Lemma loop_got (sched : list (list string)) (qname : string)
    (start timeout : Q) (src : string) (pat : pattern) (fps : list pattern)
    (self : t) (w : World) (sq sq' : ScanQueue.t) (m : mtch)
    (tr : list probe) :
  queues self !! qname = Some sq ->
  in_time w start timeout ->
  _internalSearcher sq pat fps = (Return (Some m), sq', tr) ->
  watchFor_loop sched qname start timeout src pat fps (self, w)
  = (Return (Got m),
     (attach_queue qname sq' self, set_ticks (S (ticks w)) w), tr).
Proof.
  intros Hq Ht E. unfold in_time in Ht.
  destruct sched; cbn [watchFor_loop time_time]; rewrite Ht, Hq, E;
    reflexivity.
Qed.

(** The search stops at a failing record that only quiet records precede. *)
Lemma searcher_fail (sq : ScanQueue.t) (pat : pattern) (fps : list pattern)
    (pre : list Rec.t) (v : Rec.t) (post : list Rec.t) (l : string)
    (fp : pattern) (tr : list probe) :
  ScanQueue.q sq = pre ++ v :: post ->
  Forall (quiet pat fps) pre ->
  Rec.line v = VStr l -> l <> "" ->
  check_failpats fps l = (Some fp, tr) ->
  _internalSearcher sq pat fps
  = (Raise (WatcherFailPatFoundException (" while look for " ++ repr fp)),
     ScanQueue.set_q post sq,
     flat_map (quiet_probes pat fps) pre ++ tr).
Proof.
  intros Hq Hpre Hl Hne E. unfold _internalSearcher.
  rewrite Hq, (drain_quiet_prefix pat fps pre (v :: post) Hpre),
    (drain_fail pat fps v post l fp tr Hl Hne E).
  reflexivity.
Qed.

(** The search stops at a matching record that only quiet records
    precede. *)
Lemma searcher_success (sq : ScanQueue.t) (pat : pattern)
    (fps : list pattern) (pre : list Rec.t) (v : Rec.t) (post : list Rec.t)
    (l : string) (m : mtch) :
  ScanQueue.q sq = pre ++ v :: post ->
  Forall (quiet pat fps) pre ->
  Rec.line v = VStr l -> l <> "" ->
  Forall (fun fp => search fp l = None) fps ->
  search pat l = Some m ->
  _internalSearcher sq pat fps
  = (Return (Some m), ScanQueue.set_q post sq,
     flat_map (quiet_probes pat fps) pre
     ++ List.map (fun fp => FailProbe fp l) fps ++ [PatProbe pat l]).
Proof.
  intros Hq Hpre Hl Hne Hf Hm. unfold _internalSearcher.
  rewrite Hq, (drain_quiet_prefix pat fps pre (v :: post) Hpre),
    (drain_success pat fps v post l m Hl Hne Hf Hm).
  reflexivity.
Qed.

(** On a queue that is closed and empty the search raises the not-found
    exception, and leaves the queue as it is. *)
Lemma searcher_done (sq : ScanQueue.t) (pat : pattern) (fps : list pattern) :
  ScanQueue.done sq = true ->
  _internalSearcher sq pat fps
  = (Raise (WatcherNotFoundException ("while looking for " ++ repr pat)),
     sq, []).
Proof.
  unfold ScanQueue.done, ScanQueue.empty, ScanQueue.closed, _internalSearcher.
  destruct sq as [nm h d x q0 c]; cbn.
  destruct q0; cbn; [|discriminate].
  intros ->. reflexivity.
Qed.

Lemma attach_queue_same (self : t) (key : string) (sq : ScanQueue.t) :
  queues self !! key = Some sq -> attach_queue key sq self = self.
Proof.
  intros H. destruct self; unfold attach_queue; cbn in *.
  f_equal. apply insert_id, H.
Qed.

End SearchFacts.

Section WatchFor.
Context `{RE : RegexEngine}.
Import Watcher.

(** One call on a queue that is closed and empty, made in time. *)
Lemma watchFor_done (sched : list (list string)) (src : string)
    (pat : pattern) (kw : watch_kwargs) (fps : list pattern) (self : t)
    (w : World) (qn : string) (sq : ScanQueue.t) :
  compile src = Return pat ->
  compile_failpats kw = Return fps ->
  select_qname self kw = Some qn ->
  queues self !! qn = Some sq ->
  ScanQueue.done sq = true ->
  Qle_bool (clock (env w) (S (ticks w)))
           (clock (env w) (ticks w) + get_timeout kw) = true ->
  watchFor src kw sched (self, w)
  = (Raise (WatcherNotFoundException ("while looking for " ++ repr pat)),
     (self, set_ticks (S (S (ticks w))) w), []).
Proof.
  intros Hp Hf Hs Hq Hd Ht. unfold watchFor.
  rewrite Hp, Hf, Hs, Hq. cbn [time_time].
  rewrite (loop_raise sched qn _ _ src pat fps self
             (set_ticks (S (ticks w)) w) sq sq _ [] Hq Ht
             (searcher_done sq pat fps Hd)).
  rewrite (attach_queue_same self qn sq Hq). reflexivity.
Qed.

Lemma watchFor_each_done (scheds : list (list (list string))) (src : string)
    (pat : pattern) (kw : watch_kwargs) (fps : list pattern) (self : t)
    (qn : string) (sq : ScanQueue.t) :
  compile src = Return pat ->
  compile_failpats kw = Return fps ->
  select_qname self kw = Some qn ->
  queues self !! qn = Some sq ->
  ScanQueue.done sq = true ->
  forall w : World,
    (forall k, (k < length scheds)%nat ->
       Qle_bool (clock (env w) (S (ticks w + 2 * k)))
                (clock (env w) (ticks w + 2 * k) + get_timeout kw) = true) ->
    watchFor_each scheds src kw (self, w)
    = (repeat (Raise (WatcherNotFoundException
                        ("while looking for " ++ repr pat)))
              (length scheds),
       (self, set_ticks (ticks w + 2 * length scheds) w)).
Proof.
  intros Hp Hf Hs Hq Hd.
  induction scheds as [|sched scheds IH]; intros w Ht.
  - cbn. rewrite Nat.add_0_r. destruct w; reflexivity.
  - cbn [watchFor_each].
    rewrite (watchFor_done sched src pat kw fps self w qn sq Hp Hf Hs Hq Hd).
    + rewrite IH.
      * cbn [length repeat ticks set_ticks env]. f_equal. f_equal.
        unfold set_ticks; cbn. f_equal. lia.
      * intros k Hk. cbn [ticks set_ticks env].
        specialize (Ht (S k)). cbn [length] in Ht.
        replace (S (S (ticks w)) + 2 * k)%nat with (ticks w + 2 * S k)%nat
          by lia.
        apply Ht. lia.
    + specialize (Ht 0%nat). rewrite Nat.mul_0_r, Nat.add_0_r in Ht.
      apply Ht. cbn; lia.
Qed.

End WatchFor.

(** C1 (as the code has it): on an endpoint whose selected queue is closed
    and empty, every call of [watchFor] that is made in time, that is whose
    first reading of the clock in the loop is not past [start + timeout],
    raises the not-found exception, not the timeout exception, and leaves
    the endpoint as it was; so do all the calls of a series of such
    calls. *)
Theorem closed_empty_raises_NotFound `{RE : RegexEngine}
    (scheds : list (list (list string))) (src : string) (pat : pattern)
    (kw : Watcher.watch_kwargs) (fps : list pattern) (self : Watcher.t)
    (w : World) (qn : string) (sq : ScanQueue.t) :
  compile src = Return pat ->
  Watcher.compile_failpats kw = Return fps ->
  Watcher.select_qname self kw = Some qn ->
  Watcher.queues self !! qn = Some sq ->
  ScanQueue.done sq = true ->
  (forall k, (k < length scheds)%nat ->
     Qle_bool (clock (env w) (S (ticks w + 2 * k)))
              (clock (env w) (ticks w + 2 * k) + Watcher.get_timeout kw)
     = true) ->
  Watcher.watchFor_each scheds src kw (self, w)
  = (repeat (Raise (WatcherNotFoundException
                      ("while looking for " ++ repr pat)))
            (length scheds),
     (self, set_ticks (ticks w + 2 * length scheds) w)).
Proof.
  intros Hp Hf Hs Hq Hd Ht.
  exact (watchFor_each_done scheds src pat kw fps self qn sq Hp Hf Hs Hq Hd
                            w Ht).
Qed.

Lemma closed_empty_raises_NotFound_witness :
  let s := Examples.closed_and_empty in
  Watcher.watchFor_each (RE := Examples.literal) [[]; [["dev"]]; []]
    "ready" Watcher.no_kwargs (Examples.endpoint (fst s), snd s)
  = (repeat (Raise (WatcherNotFoundException
                      "while looking for re.compile('ready')")) 3,
     (Examples.endpoint (fst s), set_ticks (ticks (snd s) + 6) (snd s))).
Proof.
  apply (closed_empty_raises_NotFound (RE := Examples.literal)
           [[]; [["dev"]]; []] "ready" "ready" Watcher.no_kwargs []
           (Examples.endpoint (fst Examples.closed_and_empty))
           (snd Examples.closed_and_empty) "dev"
           (fst Examples.closed_and_empty)).
  - reflexivity.
  - reflexivity.
  - vm_compute. reflexivity.
  - vm_compute. reflexivity.
  - reflexivity.
  - intros k _. reflexivity.
Defined.

(** C1 fails as stated: with [timeout=-1] and a clock that stands still,
    [watchFor] on a queue that is closed and empty raises the timeout
    exception. *)
Lemma closed_empty_times_out :
  let s := Examples.closed_and_empty in
  ScanQueue.done (fst s) = true
  /\ Watcher.select_qname (Examples.endpoint (fst s))
       Examples.timeout_minus_one = Some "dev"
  /\ fst (fst (Watcher.watchFor (RE := Examples.literal) "ready"
                 Examples.timeout_minus_one []
                 (Examples.endpoint (fst s), snd s)))
     = Raise (WatcherTimeoutException "while looking for ready").
Proof. vm_compute. repeat split; reflexivity. Qed.

(** C2: at any pass of the [watchFor] loop made in time, let the FIFO hold
    a line that some failure pattern matches, and before it only records
    that can be searched and whose lines the success pattern does not
    match.  Then the call raises the fail-pattern exception, for the first failure
    pattern, in the order given, that matches the first line any failure pattern
    matches.  The searches made are: on each earlier non-empty line every
    failure pattern in the order given and then the success pattern; on the
    failing line the failure patterns up to the one that matches, and not
    the success pattern.  The records after the failing line stay in the
    FIFO, unsearched. *)
Theorem fail_pattern_short_circuits `{RE : RegexEngine}
    (sched : list (list string)) (qname : string) (start timeout : Q)
    (src : string) (pat : pattern) (failpats : list pattern)
    (self : Watcher.t) (w : World) (sq : ScanQueue.t)
    (pre : list Rec.t) (v : Rec.t) (post : list Rec.t) (line : string) :
  Watcher.queues self !! qname = Some sq ->
  ScanQueue.q sq = pre ++ v :: post ->
  Forall searchable pre ->
  Forall (misses pat) pre ->
  Rec.line v = VStr line -> line <> "" ->
  fail_hit failpats line ->
  in_time w start timeout ->
  exists pre1 v1 post1 line1 before fp after,
    ScanQueue.q sq = pre1 ++ v1 :: post1
    /\ (length pre1 <= length pre)%nat
    /\ Forall (quiet pat failpats) pre1
    /\ Rec.line v1 = VStr line1
    /\ failpats = before ++ fp :: after
    /\ Forall (fun p => search p line1 = None) before
    /\ search fp line1 <> None
    /\ Watcher.watchFor_loop sched qname start timeout src pat failpats
         (self, w)
       = (Raise (WatcherFailPatFoundException
                   (" while look for " ++ repr fp)),
          (Watcher.attach_queue qname (ScanQueue.set_q post1 sq) self,
           set_ticks (S (ticks w)) w),
          flat_map (quiet_probes pat failpats) pre1
          ++ List.map (fun p => FailProbe p line1) (before ++ [fp])).
Proof.
  intros Hq Hfifo Hs Hm Hl Hne Hhit Ht.
  destruct (first_fail_record pat failpats pre v post line Hs Hm Hl Hne Hhit)
    as (pre1 & v1 & post1 & l1 & fp & tr & E & Hlen & Hq1 & Hl1 & Hne1 & Hc).
  destruct (check_failpats_Some failpats l1 fp tr Hc)
    as (before & after & Hfps & Hb & Hfp & Htr).
  exists pre1, v1, post1, l1, before, fp, after.
  rewrite Hfifo, E.
  repeat (split; [assumption || reflexivity|]).
  rewrite <- Htr.
  apply (loop_raise sched qname start timeout src pat failpats self w sq
                    (ScanQueue.set_q post1 sq) _
                    (flat_map (quiet_probes pat failpats) pre1 ++ tr) Hq Ht).
  exact (searcher_fail sq pat failpats pre1 v1 post1 l1 fp tr
                       (eq_trans Hfifo E) Hq1 Hl1 Hne1 Hc).
Qed.

Lemma fail_pattern_short_circuits_witness :
  let s := ScanQueue.put_all
             [VStr "booting"; VStr "ERROR: no disk"; VStr "ready"]
             (Examples.queue_on []) in
  let sq := fst (snd s) in
  let w := snd (snd s) in
  exists post1 tr,
    Watcher.watchFor_loop (RE := Examples.literal) [] "dev" 100 5
      "ready" "ready" ["ERROR"] (Examples.endpoint sq, w)
    = (Raise (WatcherFailPatFoundException
                " while look for re.compile('ERROR')"),
       (Watcher.attach_queue "dev" (ScanQueue.set_q post1 sq)
                             (Examples.endpoint sq),
        set_ticks (S (ticks w)) w),
       tr).
Proof.
  cbv zeta.
  destruct (fail_pattern_short_circuits (RE := Examples.literal)
           [] "dev" 100 5 "ready" "ready" ["ERROR"]
           (Examples.endpoint
              (fst (snd (ScanQueue.put_all
                           [VStr "booting"; VStr "ERROR: no disk"; VStr "ready"]
                           (Examples.queue_on [])))))
           (snd (snd (ScanQueue.put_all
                        [VStr "booting"; VStr "ERROR: no disk"; VStr "ready"]
                        (Examples.queue_on []))))
           (fst (snd (ScanQueue.put_all
                        [VStr "booting"; VStr "ERROR: no disk"; VStr "ready"]
                        (Examples.queue_on []))))
           [ {| Rec.ts := Some 100%Q; Rec.name := "dev";
                Rec.line := VStr "booting" |} ]
           {| Rec.ts := Some 100%Q; Rec.name := "dev";
              Rec.line := VStr "ERROR: no disk" |}
           [ {| Rec.ts := Some 100%Q; Rec.name := "dev";
                Rec.line := VStr "ready" |} ]
           "ERROR: no disk")
    as (pre1 & v1 & post1 & line1 & before & fp & after & _ & _ & _ & _
        & Hfps & _ & _ & E).
  - vm_compute. reflexivity.
  - vm_compute. reflexivity.
  - constructor; [exact I|constructor].
  - constructor; [right; vm_compute; reflexivity|constructor].
  - reflexivity.
  - discriminate.
  - constructor. vm_compute. discriminate.
  - vm_compute. reflexivity.
  - exists post1. eexists. rewrite E.
    destruct before as [|b before]; cbn in Hfps.
    + inversion Hfps; subst. reflexivity.
    + inversion Hfps as [[Hb Hnil]]. destruct before; discriminate.
Defined.

(** ** Sentinels in the search *)

Section Sentinels.
Context `{RE : RegexEngine}.
Import Watcher.

Lemma sentinels_kept (last : read_result) :
  Forall (fun v => ScanQueue.kept v = true) (sentinels last).
Proof.
  destruct last as [s|msg]; cbn; repeat constructor.
Qed.

Lemma filter_all {A} (f : A -> bool) (l : list A) :
  Forall (fun x => f x = true) l -> List.filter f l = l.
Proof.
  induction 1 as [|x l Hx _ IH]; cbn; [reflexivity|].
  rewrite Hx, IH. reflexivity.
Qed.

(** Records whose lines are the kept ones of quiet values are quiet. *)
Lemma quiet_records (pat : pattern) (fps : list pattern)
    (pre : list Rec.t) (vs : list value) :
  Forall (quiet_value pat fps) vs ->
  List.map Rec.line pre = List.filter ScanQueue.kept vs ->
  Forall (quiet pat fps) pre.
Proof.
  intros Hvs E. apply List.Forall_forall. intros r Hr.
  assert (Hin : In (Rec.line r) (List.map Rec.line pre))
    by (apply in_map, Hr).
  rewrite E in Hin. apply filter_In in Hin. destruct Hin as [Hin _].
  rewrite List.Forall_forall in Hvs. specialize (Hvs _ Hin).
  unfold quiet, searchable, misses, no_fail_hit.
  destruct (Rec.line r) as [|l|b|i]; cbn in Hvs; auto.
  destruct Hvs as [->|[Hp Hf]]; auto.
Qed.

Lemma map_fixed {A} (f : A -> A) (l : list A) :
  Forall (fun x => f x = x) l -> List.map f l = l.
Proof.
  induction 1 as [|x l Hx _ IH]; cbn; [reflexivity|].
  rewrite Hx, IH. reflexivity.
Qed.

(** The FIFO a finished worker leaves, cut at a sentinel that only quiet
    lines precede, when the transform leaves the sentinels as they are. *)
Lemma fifo_cut_at_sentinel (pat : pattern) (fps : list pattern)
    (sq0 : ScanQueue.t) (w0 : World) (h : ScanQueue.infile)
    (lines : list string) (last : read_result) (rest : list read_result)
    (n : nat) (s_pre : list string) (mark : string) (s_post : list value) :
  ScanQueue.closed sq0 = false ->
  ScanQueue.q sq0 = [] ->
  ScanQueue.fh sq0 = Some h ->
  ScanQueue.pending h = List.map Line lines ++ last :: rest ->
  Forall (fun s => s <> "") lines ->
  terminal last ->
  (length lines < n)%nat ->
  Forall (fun v => ScanQueue.transformed sq0 v = v) (sentinels last) ->
  sentinels last = List.map VStr s_pre ++ VStr mark :: s_post ->
  Forall (quiet_value pat fps)
         (List.map (fun l => ScanQueue.transformed sq0 (VStr (rstrip l)))
                   lines) ->
  Forall (quiet_line pat fps) s_pre ->
  exists pre v post,
    ScanQueue.q (fst (snd (ScanQueue.readLineAndQPut n (sq0, w0))))
    = pre ++ v :: post
    /\ ScanQueue.closed (fst (snd (ScanQueue.readLineAndQPut n (sq0, w0))))
       = true
    /\ Forall (quiet pat fps) pre
    /\ Rec.line v = VStr mark /\ mark <> ""
    /\ List.map Rec.line post = s_post.
Proof.
  intros Hc Hq0 Hfh Hp Hne Hterm Hn Hx Hsent Hlines Hspre.
  destruct (worker_run lines sq0 w0 h last rest n Hc Hfh Hp Hne Hterm Hn)
    as (sq & w' & recs & E & Hc' & Hq & _ & Hl & _).
  rewrite E. cbn [fst snd]. rewrite Hq0 in Hq. cbn [app] in Hq.
  pose proof (sentinels_kept last) as Hk. rewrite Hsent in Hk.
  apply Forall_app in Hk. destruct Hk as [_ Hk].
  inversion Hk as [|? ? Hkm Hkp]; subst.
  assert (Hmark : mark <> "") by (intros ->; discriminate).
  rewrite List.map_app, List.map_map, (map_fixed _ _ Hx), Hsent in Hl.
  rewrite app_assoc, List.filter_app in Hl. cbn [List.filter] in Hl.
  rewrite Hkm, (filter_all _ _ Hkp) in Hl.
  apply map_eq_app in Hl. destruct Hl as (pre & tl & Hrecs & Hpre & Htl).
  apply map_eq_cons in Htl. destruct Htl as (v & post & Htl & Hv & Hpost).
  exists pre, v, post. subst.
  repeat split; auto.
  eapply quiet_records; [|exact Hpre].
  apply Forall_app. split; [exact Hlines|].
  apply List.Forall_forall. intros x Hx'.
  apply in_map_iff in Hx'. destruct Hx' as (l & <- & Hl).
  rewrite List.Forall_forall in Hspre. exact (Hspre l Hl).
Qed.

(** A call of [watchFor] whose first poll is in time ends with what the
    search of that poll ends with. *)
Lemma watchFor_first_poll (sched : list (list string)) (src : string)
    (pat : pattern) (kw : watch_kwargs) (fps : list pattern) (self : t)
    (w : World) (qn : string) (sq sq' : ScanQueue.t)
    (r : outcome (polled mtch)) (rv : outcome (option mtch))
    (tr : list probe) :
  compile src = Return pat ->
  compile_failpats kw = Return fps ->
  select_qname self kw = Some qn ->
  queues self !! qn = Some sq ->
  Qle_bool (clock (env w) (S (ticks w)))
           (clock (env w) (ticks w) + get_timeout kw) = true ->
  _internalSearcher sq pat fps = (rv, sq', tr) ->
  match rv with
  | Raise e => r = Raise e
  | Return (Some m) => r = Return (Got m)
  | Return None => False
  end ->
  watchFor src kw sched (self, w)
  = (r, (attach_queue qn sq' self, set_ticks (S (S (ticks w))) w), tr).
Proof.
  intros Hp Hf Hs Hq Ht E Hr. unfold watchFor.
  rewrite Hp, Hf, Hs, Hq. cbn [time_time].
  destruct rv as [[m|]|e]; [subst r|contradiction|subst r].
  - exact (loop_got sched qn _ _ src pat fps self
                    (set_ticks (S (ticks w)) w) sq sq' m tr Hq Ht E).
  - exact (loop_raise sched qn _ _ src pat fps self
                      (set_ticks (S (ticks w)) w) sq sq' e tr Hq Ht E).
Qed.

End Sentinels.

(** C10 (as the code has it): a sentinel goes through [put] like a line,
    transform and empty-line filter included.  Let the reading worker of a
    fresh queue read some lines and then end, by end of file or by an
    exception; let the transform of the queue, if it has one, leave the
    sentinels as they are; let nothing match what the lines read become,
    nor the sentinels before [mark], one of the sentinels.  Then the queue
    is closed and its FIFO holds a record whose line is [mark], a non-empty
    line, after records on which nothing matches.  A call of [watchFor] on
    that queue whose first reading of the clock in the loop is in time
    searches the sentinel like a line: if the success pattern matches it,
    and no failure pattern does, the call returns that match, and not the
    not-found exception, although the queue is closed; if a failure pattern
    matches it, the call raises the fail-pattern exception, for the first
    such pattern in the order given. *)
Theorem sentinel_is_searched `{RE : RegexEngine}
    (sq0 : ScanQueue.t) (w0 : World) (h : ScanQueue.infile)
    (lines : list string) (last : read_result) (rest : list read_result)
    (n : nat) (s_pre : list string) (mark : string) (s_post : list value)
    (self : Watcher.t) (w : World) (qn : string)
    (sched : list (list string)) (src : string) (kw : Watcher.watch_kwargs)
    (pat : pattern) (fps : list pattern) :
  ScanQueue.closed sq0 = false ->
  ScanQueue.q sq0 = [] ->
  ScanQueue.fh sq0 = Some h ->
  ScanQueue.pending h = List.map Line lines ++ last :: rest ->
  Forall (fun s => s <> "") lines ->
  terminal last ->
  (length lines < n)%nat ->
  Forall (fun v => ScanQueue.transformed sq0 v = v) (sentinels last) ->
  sentinels last = List.map VStr s_pre ++ VStr mark :: s_post ->
  Forall (quiet_value pat fps)
         (List.map (fun l => ScanQueue.transformed sq0 (VStr (rstrip l)))
                   lines) ->
  Forall (quiet_line pat fps) s_pre ->
  compile src = Return pat ->
  Watcher.compile_failpats kw = Return fps ->
  Watcher.select_qname self kw = Some qn ->
  Watcher.queues self !! qn
  = Some (fst (snd (ScanQueue.readLineAndQPut n (sq0, w0)))) ->
  Qle_bool (clock (env w) (S (ticks w)))
           (clock (env w) (ticks w) + Watcher.get_timeout kw) = true ->
  ScanQueue.closed (fst (snd (ScanQueue.readLineAndQPut n (sq0, w0)))) = true
  /\ (exists pre v post,
        ScanQueue.q (fst (snd (ScanQueue.readLineAndQPut n (sq0, w0))))
        = pre ++ v :: post
        /\ Forall (quiet pat fps) pre
        /\ Rec.line v = VStr mark /\ mark <> ""
        /\ List.map Rec.line post = s_post)
  /\ (forall m,
        search pat mark = Some m ->
        Forall (fun fp => search fp mark = None) fps ->
        exists sq' tr,
          Watcher.watchFor src kw sched (self, w)
          = (Return (Watcher.Got m),
             (Watcher.attach_queue qn sq' self,
              set_ticks (S (S (ticks w))) w),
             tr)
          /\ ScanQueue.closed sq' = true
          /\ List.map Rec.line (ScanQueue.q sq') = s_post)
  /\ (fail_hit fps mark ->
        exists before fp after sq' tr,
          fps = before ++ fp :: after
          /\ Forall (fun p => search p mark = None) before
          /\ search fp mark <> None
          /\ Watcher.watchFor src kw sched (self, w)
             = (Raise (WatcherFailPatFoundException
                         (" while look for " ++ repr fp)),
                (Watcher.attach_queue qn sq' self,
                 set_ticks (S (S (ticks w))) w),
                tr)
          /\ ScanQueue.closed sq' = true
          /\ List.map Rec.line (ScanQueue.q sq') = s_post).
Proof.
  intros Hc Hq0 Hfh Hp Hne Hterm Hn Hx Hsent Hlines Hspre
         Hpat Hfps Hsel Hq Ht.
  destruct (fifo_cut_at_sentinel pat fps sq0 w0 h lines last rest n s_pre
              mark s_post Hc Hq0 Hfh Hp Hne Hterm Hn Hx Hsent Hlines Hspre)
    as (pre & v & post & Hfifo & Hclosed & Hpre & Hv & Hmark & Hpost).
  set (sq := fst (snd (ScanQueue.readLineAndQPut n (sq0, w0)))) in *.
  split; [exact Hclosed|].
  split; [exists pre, v, post; auto|].
  split.
  - intros m Hm Hf.
    exists (ScanQueue.set_q post sq). eexists.
    split; [|split; [exact Hclosed | exact Hpost]].
    apply (watchFor_first_poll sched src pat kw fps self w qn sq _ _
             (Return (Some m)) _ Hpat Hfps Hsel Hq Ht);
      [|reflexivity].
    exact (searcher_success sq pat fps pre v post mark m Hfifo Hpre Hv Hmark
                            Hf Hm).
  - intros Hhit.
    destruct (check_failpats_hit fps mark Hhit) as (fp & tr & E).
    destruct (check_failpats_Some fps mark fp tr E)
      as (before & after & Hlist & Hb & Hfp & _).
    exists before, fp, after, (ScanQueue.set_q post sq). eexists.
    split; [exact Hlist|]. split; [exact Hb|]. split; [exact Hfp|].
    split; [|split; [exact Hclosed | exact Hpost]].
    apply (watchFor_first_poll sched src pat kw fps self w qn sq _ _
             (Raise (WatcherFailPatFoundException
                       (" while look for " ++ repr fp))) _
             Hpat Hfps Hsel Hq Ht);
      [|reflexivity].
    exact (searcher_fail sq pat fps pre v post mark fp tr Hfifo Hpre Hv
                         Hmark E).
Qed.

Lemma sentinel_is_searched_witness :
  let s := Examples.queue_after [Line "hello"; Line ""] 2 in
  (exists sq' tr,
      Watcher.watchFor (RE := Examples.literal) "EOF" Examples.failpats_error
        [] (Examples.endpoint (fst s), snd s)
      = (Return (Watcher.Got 2%nat),
         (Watcher.attach_queue "dev" sq' (Examples.endpoint (fst s)),
          set_ticks (S (S (ticks (snd s)))) (snd s)),
         tr)
      /\ ScanQueue.closed sq' = true
      /\ List.map Rec.line (ScanQueue.q sq') = [])
  /\ (exists sq' tr,
        Watcher.watchFor (RE := Examples.literal) "ready"
          Examples.failpat_eof [] (Examples.endpoint (fst s), snd s)
        = (Raise (WatcherFailPatFoundException
                    " while look for re.compile('EOF')"),
           (Watcher.attach_queue "dev" sq' (Examples.endpoint (fst s)),
            set_ticks (S (S (ticks (snd s)))) (snd s)),
           tr)
        /\ ScanQueue.closed sq' = true
        /\ List.map Rec.line (ScanQueue.q sq') = []).
Proof.
  cbv zeta. split.
  - destruct (sentinel_is_searched (RE := Examples.literal)
                (fst (Examples.queue_on [Line "hello"; Line ""]))
                (snd (Examples.queue_on [Line "hello"; Line ""]))
                {| ScanQueue.pending := [Line "hello"; Line ""];
                   ScanQueue.fh_closed := false |}
                ["hello"] (Line "") [] 2 [] "<<EOF>>" []
                (Examples.endpoint
                   (fst (Examples.queue_after [Line "hello"; Line ""] 2)))
                (snd (Examples.queue_after [Line "hello"; Line ""] 2))
                "dev" [] "EOF" Examples.failpats_error "EOF" ["ERROR"])
      as (_ & _ & Hok & _).
    + reflexivity.
    + reflexivity.
    + reflexivity.
    + reflexivity.
    + constructor; [discriminate|constructor].
    + left; reflexivity.
    + cbn; lia.
    + constructor; [reflexivity|constructor].
    + reflexivity.
    + constructor; [|constructor].
      right; split; [reflexivity|]. constructor; [reflexivity|constructor].
    + constructor.
    + reflexivity.
    + reflexivity.
    + vm_compute. reflexivity.
    + vm_compute. reflexivity.
    + vm_compute. reflexivity.
    + apply (Hok 2%nat); [reflexivity|].
      constructor; [reflexivity|constructor].
  - destruct (sentinel_is_searched (RE := Examples.literal)
                (fst (Examples.queue_on [Line "hello"; Line ""]))
                (snd (Examples.queue_on [Line "hello"; Line ""]))
                {| ScanQueue.pending := [Line "hello"; Line ""];
                   ScanQueue.fh_closed := false |}
                ["hello"] (Line "") [] 2 [] "<<EOF>>" []
                (Examples.endpoint
                   (fst (Examples.queue_after [Line "hello"; Line ""] 2)))
                (snd (Examples.queue_after [Line "hello"; Line ""] 2))
                "dev" [] "ready" Examples.failpat_eof "ready" ["EOF"])
      as (_ & _ & _ & Hfail).
    + reflexivity.
    + reflexivity.
    + reflexivity.
    + reflexivity.
    + constructor; [discriminate|constructor].
    + left; reflexivity.
    + cbn; lia.
    + constructor; [reflexivity|constructor].
    + reflexivity.
    + constructor; [|constructor].
      right; split; [reflexivity|]. constructor; [reflexivity|constructor].
    + constructor.
    + reflexivity.
    + reflexivity.
    + vm_compute. reflexivity.
    + vm_compute. reflexivity.
    + vm_compute. reflexivity.
    + destruct Hfail as (before & fp & after & sq' & tr & Hl & _ & _ & E
                         & Hc & Hq).
      { constructor. vm_compute. discriminate. }
      exists sq', tr. split; [|split; assumption].
      rewrite E.
      destruct before as [|b before]; cbn in Hl.
      * inversion Hl; subst. reflexivity.
      * inversion Hl as [[Hb Hnil]]. destruct before; discriminate.
Defined.

(** C10 fails as stated: on an endpoint made with the transform
    [lambda s: ''], whose stream has ended, the sentinel ["<<EOF>>"] went
    through the transform and was dropped as an empty line.  The queue is
    closed and its FIFO is empty; the pattern [EOF] matches the sentinel
    text, and [watchFor] raises the not-found exception. *)
Lemma transform_drops_the_sentinel :
  let '(self, w) := Examples.blanked in
  (exists sq,
      Watcher.queues self !! "dev" = Some sq
      /\ ScanQueue.closed sq = true /\ ScanQueue.q sq = [])
  /\ search (RegexEngine := Examples.literal) "EOF" "<<EOF>>" = Some 2%nat
  /\ fst (fst (Watcher.watchFor (RE := Examples.literal) "EOF"
                 Watcher.no_kwargs [] (self, w)))
     = Raise (WatcherNotFoundException
                "while looking for re.compile('EOF')").
Proof.
  split; [eexists; split; [vm_compute; reflexivity | split; reflexivity]|].
  split; vm_compute; reflexivity.
Qed.

(** ** Attaching a stream *)

Section Attach.
Import Watcher.

Lemma _print_quiet (msg : string) (self : t) (w : World) :
  exists w', _print msg (self, w) = (Return tt, (self, w'))
             /\ os_log w' = os_log w /\ env w' = env w.
Proof.
  unfold _print. destruct (disper self); eexists; split;
    try reflexivity; split; reflexivity.
Qed.

Lemma refuse (msg : string) (self : t) (w : World) :
  exists w',
    (_print msg ;;; ret ReturnedNone)%py (self, w)
    = (Return ReturnedNone, (self, w'))
    /\ os_log w' = os_log w /\ env w' = env w.
Proof.
  destruct (_print_quiet msg self w) as (w' & E & Hlog & Henv).
  exists w'. unfold bind. rewrite E. auto.
Qed.

End Attach.

(** C8: on an endpoint that has been started, each of the four attach calls
    returns nothing and leaves the endpoint as it was, its queues, input
    sink and process handle included; no process is spawned, no connection
    or port opened and no thread started.  All the call does is print its
    error message. *)
Theorem attach_again_is_refused (self : Watcher.t) (w : World) :
  Watcher.started self = true ->
  (forall cmdargs extra, exists w',
      Watcher.subprocess cmdargs extra (self, w)
      = (Return Watcher.ReturnedNone, (self, w'))
      /\ os_log w' = os_log w /\ env w' = env w)
  /\ (forall host port, exists w',
        Watcher.socket host port (self, w)
        = (Return Watcher.ReturnedNone, (self, w'))
        /\ os_log w' = os_log w /\ env w' = env w)
  /\ (forall port speed, exists w',
        Watcher.serial port speed (self, w)
        = (Return Watcher.ReturnedNone, (self, w'))
        /\ os_log w' = os_log w /\ env w' = env w)
  /\ (forall user host port, exists w',
        Watcher.ssh user host port (self, w)
        = (Return Watcher.ReturnedNone, (self, w'))
        /\ os_log w' = os_log w /\ env w' = env w).
Proof.
  intros Hs. repeat split.
  - intros cmdargs extra. unfold Watcher.subprocess. rewrite Hs.
    apply refuse.
  - intros host port. unfold Watcher.socket. rewrite Hs. apply refuse.
  - intros port speed. unfold Watcher.serial.
    destruct (negb (have_pyserial (env w))); [apply refuse|].
    rewrite Hs. apply refuse.
  - intros user host port. unfold Watcher.ssh. rewrite Hs. apply refuse.
Qed.

Lemma attach_again_is_refused_witness :
  let s := Watcher.socket "localhost" 9998
             (Watcher.init (Some "s_sock") None None, Examples.w0) in
  fst s = Return Watcher.ReturnedSelf
  /\ exists w',
       Watcher.subprocess ["./helpers/process_companion.py"] [] (snd s)
       = (Return Watcher.ReturnedNone, (fst (snd s), w'))
       /\ os_log w' = os_log (snd (snd s)) /\ env w' = env (snd (snd s)).
Proof.
  split; [vm_compute; reflexivity|].
  apply (proj1 (attach_again_is_refused
                  (fst (snd (Watcher.socket "localhost" 9998
                               (Watcher.init (Some "s_sock") None None,
                                Examples.w0))))
                  (snd (snd (Watcher.socket "localhost" 9998
                               (Watcher.init (Some "s_sock") None None,
                                Examples.w0))))
                  eq_refl)
               ["./helpers/process_companion.py"] []).
Defined.

(** ** Sending *)

Section Send.
Import Watcher.

Lemma lstrip_spec (s : string) :
  exists a, s = (a ++ lstrip s)%string /\ all_space a
            /\ match first_char (lstrip s) with
               | Some c => isspace c = false
               | None => True
               end.
Proof.
  induction s as [|c s IH]; cbn [lstrip].
  - exists ""%string. repeat split.
  - destruct (isspace c) eqn:Ec.
    + destruct IH as (a & E & Ha & Hf). exists (String c a).
      split; [change (String c s = String c (a ++ lstrip s)%string);
              f_equal; exact E|].
      split; [|exact Hf].
      unfold all_space in *. cbn. rewrite Ec. exact Ha.
    + exists ""%string. repeat split. exact Ec.
Qed.

Lemma rstrip_spec (s : string) :
  exists b, s = (rstrip s ++ b)%string /\ all_space b
            /\ match last_char (rstrip s) with
               | Some c => isspace c = false
               | None => True
               end
            /\ first_char (rstrip s)
               = match rstrip s with
                 | EmptyString => None
                 | _ => first_char s
                 end.
Proof.
  induction s as [|c s IH]; cbn [rstrip].
  - exists ""%string. repeat split.
  - destruct IH as (b & E & Hb & Hl & _).
    destruct (rstrip s) as [|d r] eqn:Er.
    + destruct (isspace c) eqn:Ec.
      * exists (String c b). change (s = b) in E. subst s.
        repeat split. unfold all_space in *. cbn. rewrite Ec. exact Hb.
      * exists b. change (s = b) in E. subst s. repeat split; assumption.
    + exists b.
      split; [change (String c s = String c (String d r ++ b)%string);
              f_equal; exact E|].
      repeat split; assumption.
Qed.

(** [strip] removes whitespace, and only whitespace, at both ends. *)
Lemma strip_spec (s : string) :
  exists a b, s = (a ++ strip s ++ b)%string
              /\ all_space a /\ all_space b /\ trimmed (strip s).
Proof.
  unfold strip.
  destruct (lstrip_spec s) as (a & Ea & Ha & Hf).
  destruct (rstrip_spec (lstrip s)) as (b & Eb & Hb & Hl & Hfirst).
  exists a, b. split; [rewrite <- Eb; exact Ea|].
  split; [exact Ha|]. split; [exact Hb|].
  split; [|exact Hl].
  rewrite Hfirst. destruct (rstrip (lstrip s)); [exact I|exact Hf].
Qed.

(** [" ".join] of the stripped pieces is the message of the
    specification. *)
Lemma join_spaced (pieces : list string) :
  join " " (List.map strip pieces) = spaced pieces.
Proof.
  unfold join. induction pieces as [|p rest IH]; [reflexivity|].
  cbn [List.map String.concat spaced].
  destruct rest as [|p' rest]; [reflexivity|].
  cbn [List.map] in *. rewrite IH. reflexivity.
Qed.

Lemma encode_utf8_app (a b : string) :
  encode_utf8 (a ++ b) = encode_utf8 a ++ encode_utf8 b.
Proof.
  induction a as [|c a IH]; [reflexivity|].
  change (utf8_char c ++ encode_utf8 (a ++ b)%string
          = (utf8_char c ++ encode_utf8 a) ++ encode_utf8 b).
  rewrite IH, app_assoc. reflexivity.
Qed.

(** The text form on an endpoint with an input sink. *)
Lemma send_text (self : t) (w : World) (sink : stream) (args : list arg)
    (kw : send_kwargs) :
  istream self = Some sink ->
  kw_raw kw = None -> kw_json kw = None ->
  send args kw (self, w)
  = (Return tt,
     (self,
      emit (SendAll sink
              (encode_utf8 (spaced (List.map str_of_arg args))
               ++ [Byte.x0d; Byte.x0a])) w)).
Proof.
  intros Hi Hr Hj. unfold send. rewrite Hi, Hr, Hj. cbn [is_None negb].
  rewrite <- (List.map_map str_of_arg strip), join_spaced, encode_utf8_app.
  reflexivity.
Qed.

(** Any form on an endpoint with no input sink. *)
Lemma send_no_sink (self : t) (w : World) (args : list arg)
    (kw : send_kwargs) :
  istream self = None -> send args kw (self, w) = (Return tt, (self, w)).
Proof. intros Hi. unfold send. rewrite Hi. reflexivity. Qed.

(** The [json] form on an endpoint with an input sink. *)
Lemma send_json (self : t) (w : World) (sink : stream) (args : list arg)
    (v : pyobj) :
  istream self = Some sink -> v <> PNone ->
  send args {| kw_raw := None; kw_json := Some v |} (self, w)
  = (Raise (TypeError "dump() missing 1 required positional argument: 'fp'"),
     (self, w)).
Proof.
  intros Hi Hv. unfold send. rewrite Hi. cbn [kw_raw kw_json].
  destruct v; try congruence; reflexivity.
Qed.

End Send.

(** C9: in its text form, on an endpoint with an input sink, [send] hands
    the sink once the UTF-8 bytes of the pieces, each stripped of the
    whitespace at its two ends, joined with single spaces and followed by
    CR LF, changes nothing else and returns nothing; on an endpoint with no
    input sink, [send] in any form returns without doing anything. *)
Theorem send_text_form (self : Watcher.t) (w : World)
    (args : list Watcher.arg) :
  (forall sink kw,
      Watcher.istream self = Some sink ->
      Watcher.kw_raw kw = None -> Watcher.kw_json kw = None ->
      Watcher.send args kw (self, w)
      = (Return tt,
         (self,
          emit (SendAll sink
                  (encode_utf8 (spaced (List.map Watcher.str_of_arg args))
                   ++ [Byte.x0d; Byte.x0a])) w)))
  /\ (forall kw,
        Watcher.istream self = None ->
        Watcher.send args kw (self, w) = (Return tt, (self, w)))
  /\ (forall piece, exists a b,
        piece = (a ++ strip piece ++ b)%string
        /\ all_space a /\ all_space b /\ trimmed (strip piece)).
Proof.
  split; [|split].
  - intros sink kw Hi Hr Hj. apply send_text; assumption.
  - intros kw Hi. apply send_no_sink, Hi.
  - apply strip_spec.
Qed.

Lemma send_text_form_witness :
  let self := Examples.endpoint (fst Examples.closed_and_empty) in
  Watcher.send [Watcher.ArgStr " dave was "; Watcher.ArgInt 2; Watcher.ArgStr "here "]
    {| Watcher.kw_raw := None; Watcher.kw_json := None |} (self, Examples.w0)
  = (Return tt,
     (self,
      emit (SendAll (SocketStream 0)
              (encode_utf8 "dave was 2 here" ++ [Byte.x0d; Byte.x0a]))
           Examples.w0))
  /\ Watcher.send [Watcher.ArgStr "stop"]
       {| Watcher.kw_raw := Some [Byte.x00];
          Watcher.kw_json := Some (Watcher.PInt 1) |}
       (Examples.read_only (fst Examples.closed_and_empty), Examples.w0)
     = (Return tt,
        (Examples.read_only (fst Examples.closed_and_empty), Examples.w0)).
Proof.
  split.
  - apply (proj1 (send_text_form
                    (Examples.endpoint (fst Examples.closed_and_empty))
                    Examples.w0
                    [Watcher.ArgStr " dave was "; Watcher.ArgInt 2;
                     Watcher.ArgStr "here "])
                 (SocketStream 0)
                 {| Watcher.kw_raw := None; Watcher.kw_json := None |});
      reflexivity.
  - apply (proj1 (proj2 (send_text_form
                    (Examples.read_only (fst Examples.closed_and_empty))
                    Examples.w0 [Watcher.ArgStr "stop"]))).
    reflexivity.
Defined.

(** C6, at a failing input: [send(json={"a": 1})] on an endpoint with an
    input sink raises [TypeError] and writes nothing to the sink. *)
Theorem send_json_raises_TypeError :
  let self := Examples.endpoint (fst Examples.closed_and_empty) in
  Watcher.istream self = Some (SocketStream 0)
  /\ Watcher.send []
       {| Watcher.kw_raw := None;
          Watcher.kw_json := Some (Watcher.PDict [("a", Watcher.PInt 1)]) |}
       (self, Examples.w0)
     = (Raise (TypeError "dump() missing 1 required positional argument: 'fp'"),
        (self, Examples.w0)).
Proof.
  split; [reflexivity|].
  apply (send_json _ _ (SocketStream 0)); [reflexivity|discriminate].
Qed.

(** * Further properties *)

(** ** The queue as a FIFO *)

Section QueueMore.
Import ScanQueue.

Lemma put_all_fifo (lines : list value) :
  forall (self : t) (w : World),
    closed self = false ->
    exists self' w' recs,
      put_all lines (self, w) = (Return tt, (self', w'))
      /\ q self' = q self ++ recs
      /\ List.map Rec.line recs
         = List.filter kept (List.map (transformed self) lines)
      /\ closed self' = false.
Proof.
  induction lines as [|l rest IH]; intros self w Hc.
  - exists self, w, []. cbn. rewrite app_nil_r. auto.
  - rewrite put_all_cons by assumption.
    destruct (put_step self w l Hc) as (w1 & E & _ & _). rewrite E.
    cbn [snd].
    destruct (IH (set_q (q self ++ put_recs self w l) self) w1 Hc)
      as (self' & w' & recs & E' & Hq & Hl & Hc').
    exists self', w', (put_recs self w l ++ recs).
    split; [exact E'|]. split; [rewrite Hq; cbn; apply eq_sym, app_assoc|].
    split; [|exact Hc'].
    rewrite List.map_app, put_recs_lines, Hl, transformed_set_q.
    cbn [List.map].
    change (transformed self l :: List.map (transformed self) rest)
      with ([transformed self l] ++ List.map (transformed self) rest).
    rewrite List.filter_app. reflexivity.
Qed.

Lemma get_times_drains (recs : list Rec.t) (extra : nat) :
  forall (self : t) (w : World),
    q self = recs ->
    get_times (length recs + extra) (self, w)
    = (List.map Some recs ++ repeat None extra, (set_q [] self, w)).
Proof.
  induction recs as [|v recs IH]; intros self w Hq.
  - cbn [length Nat.add List.map app].
    assert (Hs : set_q [] self = self)
      by (destruct self; cbn in *; subst; reflexivity).
    rewrite Hs. clear Hs.
    induction extra as [|k IHk]; [reflexivity|].
    cbn [get_times repeat]. unfold get at 1. rewrite Hq, IHk. reflexivity.
  - cbn [length Nat.add get_times]. unfold get at 1. rewrite Hq.
    rewrite (IH (set_q recs self) w eq_refl). reflexivity.
Qed.

End QueueMore.

(** X1: records come out of a queue in the order they went in.  After a
    sequence of [put] calls on an open queue with an empty FIFO, successive
    [get] calls return the records of the lines that were kept, in the order
    of the [put] calls, and then [None] for as long as one keeps asking. *)
Theorem put_then_get_is_fifo (self : ScanQueue.t) (w : World)
    (lines : list value) (extra : nat) :
  ScanQueue.closed self = false ->
  ScanQueue.q self = [] ->
  exists self' w' recs,
    ScanQueue.put_all lines (self, w) = (Return tt, (self', w'))
    /\ List.map Rec.line recs
       = List.filter ScanQueue.kept
           (List.map (ScanQueue.transformed self) lines)
    /\ get_times (length recs + extra) (self', w')
       = (List.map Some recs ++ repeat None extra,
          (ScanQueue.set_q [] self', w')).
Proof.
  intros Hc Hq.
  destruct (put_all_fifo lines self w Hc)
    as (self' & w' & recs & E & Hq' & Hl & _).
  exists self', w', recs. split; [exact E|]. split; [exact Hl|].
  apply get_times_drains. rewrite Hq', Hq. reflexivity.
Qed.

Lemma put_then_get_is_fifo_witness :
  exists self' w' recs,
    ScanQueue.put_all [VStr "a"; VStr ""; VInt 7] (Examples.queue_on [])
    = (Return tt, (self', w'))
    /\ List.map Rec.line recs = [VStr "a"; VInt 7]
    /\ get_times (length recs + 2) (self', w')
       = (List.map Some recs ++ [None; None],
          (ScanQueue.set_q [] self', w')).
Proof.
  apply (put_then_get_is_fifo (fst (Examples.queue_on []))
           (snd (Examples.queue_on [])) [VStr "a"; VStr ""; VInt 7] 2);
    reflexivity.
Defined.

Section QueueClosed.
Import ScanQueue.

Lemma close_closed (self : t) (w : World) :
  closed self = true -> close (self, w) = (Raise AssertionError, (self, w)).
Proof.
  intros Hc. unfold close, bind. rewrite (put_closed self w _ Hc).
  reflexivity.
Qed.

(** One call on a closed queue: the queue stays closed, its FIFO loses at
    most its head, and the world is not touched. *)
Lemma perform_closed (c : call) (self : t) (w : World) :
  closed self = true ->
  closed (fst (perform c (self, w))) = true
  /\ (exists k, q (fst (perform c (self, w))) = skipn k (q self))
  /\ snd (perform c (self, w)) = w.
Proof.
  intros Hc. destruct c as [line| | |n]; cbn [perform].
  - rewrite put_closed by assumption. cbn. repeat split; auto.
    exists 0%nat; reflexivity.
  - unfold get. destruct (q self) as [|v rest] eqn:E; cbn.
    + repeat split; auto. exists 0%nat. rewrite ?E. reflexivity.
    + repeat split; auto. exists 1%nat. rewrite ?E. reflexivity.
  - rewrite close_closed by assumption. cbn. repeat split; auto.
    exists 0%nat; reflexivity.
  - rewrite worker_closed by assumption. cbn. repeat split; auto.
    exists 0%nat; reflexivity.
Qed.

Lemma rstrip_all_space (s : string) : all_space s -> rstrip s = "".
Proof.
  unfold all_space. induction s as [|c s IH]; cbn; [reflexivity|].
  intros H. apply andb_true_iff in H. destruct H as [Hc Hs].
  rewrite (IH Hs), Hc. reflexivity.
Qed.

Lemma set_fh_same (self : t) (h : infile) :
  fh self = Some h ->
  set_fh (Some {| pending := pending h; fh_closed := fh_closed h |}) self
  = self.
Proof. destruct self, h; cbn; intros ->; reflexivity. Qed.

End QueueClosed.

(** X2: a closed queue never gains a record.  Whatever calls follow ([put],
    [get], [close], turns of the worker), the queue stays closed, its FIFO
    is what is left of the old one after some [get] calls, and nothing
    reaches the displayer or reads the clock. *)
Theorem closed_queue_gains_nothing (cs : list ScanQueue.call)
    (self : ScanQueue.t) (w : World) :
  ScanQueue.closed self = true ->
  ScanQueue.closed (fst (ScanQueue.perform_all cs (self, w))) = true
  /\ (exists k, ScanQueue.q (fst (ScanQueue.perform_all cs (self, w)))
                = skipn k (ScanQueue.q self))
  /\ snd (ScanQueue.perform_all cs (self, w)) = w.
Proof.
  revert self. induction cs as [|c cs IH]; intros self Hc.
  - cbn. repeat split; auto. exists 0%nat; reflexivity.
  - cbn [ScanQueue.perform_all fold_left].
    destruct (perform_closed c self w Hc) as (Hc1 & [k Hk] & Hw).
    destruct (ScanQueue.perform c (self, w)) as [self1 w1] eqn:E.
    cbn [fst snd] in *. subst w1.
    destruct (IH self1 Hc1) as (Hc2 & [k' Hk'] & Hw').
    split; [exact Hc2|]. split; [|exact Hw'].
    exists (k' + k)%nat.
    change (fold_left (fun s c => ScanQueue.perform c s) cs (self1, w))
      with (ScanQueue.perform_all cs (self1, w)).
    rewrite Hk', Hk. apply skipn_skipn.
Qed.

Lemma closed_queue_gains_nothing_witness :
  let s := Examples.queue_after [Line "x"; Line ""] 2 in
  ScanQueue.closed
    (fst (ScanQueue.perform_all
            [ScanQueue.CallPut (VStr "late"); ScanQueue.CallGet;
             ScanQueue.CallClose] s)) = true
  /\ (exists k, ScanQueue.q
                  (fst (ScanQueue.perform_all
                          [ScanQueue.CallPut (VStr "late"); ScanQueue.CallGet;
                           ScanQueue.CallClose] s))
                = skipn k (ScanQueue.q (fst s)))
  /\ snd (ScanQueue.perform_all
            [ScanQueue.CallPut (VStr "late"); ScanQueue.CallGet;
             ScanQueue.CallClose] s) = snd s.
Proof.
  apply (closed_queue_gains_nothing
           [ScanQueue.CallPut (VStr "late"); ScanQueue.CallGet;
            ScanQueue.CallClose]
           (fst (Examples.queue_after [Line "x"; Line ""] 2))
           (snd (Examples.queue_after [Line "x"; Line ""] 2))).
  reflexivity.
Defined.

(** X3: a line that is not empty but holds only whitespace, such as a bare
    newline, is neither the end of the stream nor a record.  Provided the
    queue drops the empty string after its transform, the worker reads such
    lines one after the other and leaves the queue open with its FIFO as it
    was; only the clock is read, once for each line. *)
Theorem blank_lines_are_dropped (blanks : list string) :
  forall (self : ScanQueue.t) (w : World) (h : ScanQueue.infile)
         (rest : list read_result),
    ScanQueue.closed self = false ->
    ScanQueue.fh self = Some h ->
    ScanQueue.pending h = List.map Line blanks ++ rest ->
    Forall (fun s => s <> "" /\ all_space s) blanks ->
    ScanQueue.kept (ScanQueue.transformed self (VStr "")) = false ->
    ScanQueue.readLineAndQPut (length blanks) (self, w)
    = (Return ScanQueue.Running,
       (ScanQueue.set_fh
          (Some {| ScanQueue.pending := rest;
                   ScanQueue.fh_closed := ScanQueue.fh_closed h |}) self,
        set_ticks (ticks w + length blanks) w)).
Proof.
  induction blanks as [|s blanks IH]; intros self w h rest Hc Hfh Hp Hb Hk.
  - cbn [length ScanQueue.readLineAndQPut fst]. rewrite Hc.
    cbn [List.map app] in Hp. rewrite <- Hp, (set_fh_same self h Hfh).
    rewrite Nat.add_0_r. destruct w; reflexivity.
  - inversion Hb as [|? ? [Hne Hsp] Hb']; subst.
    cbn [length ScanQueue.readLineAndQPut fst]. rewrite Hc.
    unfold ScanQueue.readLineAndQPut_body, ScanQueue.readline.
    rewrite Hfh, Hp. cbn [List.map app].
    rewrite (nonempty_length s Hne), (rstrip_all_space s Hsp).
    unfold bind at 1. rewrite put_open by exact Hc.
    rewrite transformed_set_fh, Hk. cbn [ret].
    rewrite (IH _ _ {| ScanQueue.pending := List.map Line blanks ++ rest;
                       ScanQueue.fh_closed := ScanQueue.fh_closed h |} rest);
      try reflexivity; try assumption.
    cbn [length ticks set_ticks].
    replace (ticks w + S (length blanks))%nat
      with (S (ticks w) + length blanks)%nat by lia.
    reflexivity.
Qed.

Lemma blank_lines_are_dropped_witness :
  let nl := String "010"%char EmptyString in
  let s := Examples.queue_on [Line nl; Line ("  " ++ nl); Line "x"] in
  ScanQueue.readLineAndQPut 2 s
  = (Return ScanQueue.Running,
     (ScanQueue.set_fh
        (Some {| ScanQueue.pending := [Line "x"];
                 ScanQueue.fh_closed := false |}) (fst s),
      set_ticks (ticks (snd s) + 2) (snd s))).
Proof.
  apply (blank_lines_are_dropped
           [String "010"%char EmptyString;
            ("  " ++ String "010"%char EmptyString)%string]
           (fst (Examples.queue_on
                   [Line (String "010"%char EmptyString);
                    Line ("  " ++ String "010"%char EmptyString);
                    Line "x"]))
           (snd (Examples.queue_on
                   [Line (String "010"%char EmptyString);
                    Line ("  " ++ String "010"%char EmptyString);
                    Line "x"]))
           {| ScanQueue.pending :=
                [Line (String "010"%char EmptyString);
                 Line ("  " ++ String "010"%char EmptyString);
                 Line "x"];
              ScanQueue.fh_closed := false |}
           [Line "x"]).
  - reflexivity.
  - reflexivity.
  - reflexivity.
  - repeat constructor; discriminate.
  - reflexivity.
Defined.

(** ** What a search consumes *)

Section Consumption.
Context `{RE : RegexEngine}.
Import Watcher.

Lemma check_failpats_lines (fps : list pattern) (l : string) :
  Forall (fun p => probe_line p = l) (snd (check_failpats fps l)).
Proof.
  induction fps as [|fp fps IH]; cbn; [constructor|].
  destruct (search fp l); cbn; [repeat constructor|].
  destruct (check_failpats fps l) as [r tr]; cbn in *.
  constructor; [reflexivity|exact IH].
Qed.

Lemma searched_in_cons (v : Rec.t) (consumed : list Rec.t) (tr : list probe) :
  Forall (searched_in consumed) tr -> Forall (searched_in (v :: consumed)) tr.
Proof.
  apply List.Forall_impl. intros p H. right. exact H.
Qed.

Lemma drain_consumes (pat : pattern) (fps : list pattern)
    (items : list Rec.t) :
  exists consumed,
    items = consumed ++ snd (fst (drain items pat fps))
    /\ Forall (searched_in consumed) (snd (drain items pat fps))
    /\ (fst (fst (drain items pat fps)) = Return None ->
        snd (fst (drain items pat fps)) = []).
Proof.
  induction items as [|v rest IH].
  - exists []. cbn. repeat split; auto.
  - destruct IH as (consumed & E & Htr & Hnone).
    assert (Hskip :
      exists consumed0,
        v :: rest = consumed0 ++ snd (fst (drain rest pat fps))
        /\ Forall (searched_in consumed0) (snd (drain rest pat fps))
        /\ (fst (fst (drain rest pat fps)) = Return None ->
            snd (fst (drain rest pat fps)) = [])).
    { exists (v :: consumed). split; [cbn; f_equal; exact E|].
      split; [apply searched_in_cons, Htr|exact Hnone]. }
    cbn [drain]. destruct (Rec.line v) as [|l|b|i] eqn:El.
    + exact Hskip.
    + destruct (String.length l =? 0)%nat; [exact Hskip|].
      pose proof (check_failpats_lines fps l) as Hfl.
      assert (Hhere : forall tr, Forall (fun p => probe_line p = l) tr ->
                                 Forall (searched_in (v :: consumed)) tr).
      { intros tr. apply List.Forall_impl. intros p Hp.
        left. rewrite El, Hp. reflexivity. }
      assert (Hhere1 : forall tr, Forall (fun p => probe_line p = l) tr ->
                                  Forall (searched_in [v]) tr).
      { intros tr. apply List.Forall_impl. intros p Hp.
        left. rewrite El, Hp. reflexivity. }
      destruct (check_failpats fps l) as [[fp|] tr]; cbn [snd] in Hfl.
      * exists [v]. cbn. repeat split; auto. discriminate.
      * destruct (search pat l) as [m|].
        -- exists [v]. cbn. repeat split; [|discriminate].
           apply Hhere1, Forall_app. split; [exact Hfl|].
           repeat constructor.
        -- destruct (drain rest pat fps) as [[r lft] tr'] eqn:Ed.
           cbn [fst snd] in *.
           exists (v :: consumed). split; [cbn; f_equal; exact E|].
           split; [|exact Hnone].
           apply Forall_app. split.
           ++ apply Hhere. exact Hfl.
           ++ constructor; [left; rewrite El; reflexivity|].
              apply searched_in_cons, Htr.
    + destruct (length b =? 0)%nat; [exact Hskip|].
      exists [v]. cbn. repeat split; [constructor|discriminate].
    + exists [v]. cbn. repeat split; [constructor|discriminate].
Qed.

End Consumption.

Section DrainRaises.
Context `{RE : RegexEngine}.
Import Watcher.

(** The drain raises nothing but a type error or the fail-pattern
    exception. *)
Lemma drain_raises (pat : pattern) (fps : list pattern) (items : list Rec.t)
    (e : exn) :
  fst (fst (drain items pat fps)) = Raise e ->
  (exists msg, e = TypeError msg)
  \/ (exists msg, e = WatcherFailPatFoundException msg).
Proof.
  induction items as [|v rest IH]; cbn [drain]; [discriminate|].
  destruct (Rec.line v) as [|l|b|i]; auto.
  - destruct (String.length l =? 0)%nat; auto.
    destruct (check_failpats fps l) as [[fp|] tr].
    + cbn. intros H; inversion H; eauto.
    + destruct (search pat l); [discriminate|].
      destruct (drain rest pat fps) as [[r lft] tr']. exact IH.
  - destruct (length b =? 0)%nat; auto.
    cbn. intros H; inversion H; eauto.
  - cbn. intros H; inversion H; eauto.
Qed.

End DrainRaises.

(** X4: a search consumes a prefix of the FIFO and looks at nothing else.
    Whatever [_internalSearcher] ends with, the FIFO it found is the records
    it removed followed by the FIFO it leaves; every search it made was on
    the line of a removed record; and when it found nothing (it returns
    [None], or raises the not-found exception) the FIFO is left empty.  A
    later call therefore never sees a line again. *)
Theorem search_consumes_a_prefix `{RE : RegexEngine} (sq : ScanQueue.t)
    (pat : pattern) (fps : list pattern) :
  exists consumed,
    let '(r, sq', tr) := Watcher._internalSearcher sq pat fps in
    ScanQueue.q sq = consumed ++ ScanQueue.q sq'
    /\ sq' = ScanQueue.set_q (ScanQueue.q sq') sq
    /\ Forall (searched_in consumed) tr
    /\ match r with
       | Return None | Raise (WatcherNotFoundException _) =>
           ScanQueue.q sq' = []
       | _ => True
       end.
Proof.
  destruct (drain_consumes pat fps (ScanQueue.q sq))
    as (consumed & E & Htr & Hnone).
  pose proof (drain_raises pat fps (ScanQueue.q sq)) as Hraise.
  exists consumed. unfold Watcher._internalSearcher.
  destruct (Watcher.drain (ScanQueue.q sq) pat fps) as [[r lft] tr].
  cbn [fst snd] in *.
  destruct r as [[m|]|e].
  - repeat split; auto.
  - rewrite (Hnone eq_refl) in *.
    destruct (ScanQueue.empty (ScanQueue.set_q [] sq)
              && ScanQueue.closed (ScanQueue.set_q [] sq));
      repeat split; auto.
  - repeat split; auto.
    destruct (Hraise e eq_refl) as [[msg ->]|[msg ->]]; exact I.
Qed.

Section WatchForMore.
Context `{RE : RegexEngine}.
Import Watcher.





End WatchForMore.

(** X5: [watchFor] returns the match on the first line its pattern matches.
    Let the selected queue hold a non-empty line that the success pattern
    matches and no failure pattern does, and before it only records on
    which nothing matches.  A call whose first reading of the clock in the
    loop is in time returns that match at once; the records after the line
    stay in the FIFO, and the searches made are those on the lines up to and
    including the matching one. *)
Theorem watchFor_returns_first_match `{RE : RegexEngine}
    (sched : list (list string)) (src : string) (pat : pattern)
    (kw : Watcher.watch_kwargs) (fps : list pattern) (self : Watcher.t)
    (w : World) (qn : string) (sq : ScanQueue.t)
    (pre : list Rec.t) (v : Rec.t) (post : list Rec.t) (l : string)
    (m : mtch) :
  compile src = Return pat ->
  Watcher.compile_failpats kw = Return fps ->
  Watcher.select_qname self kw = Some qn ->
  Watcher.queues self !! qn = Some sq ->
  ScanQueue.q sq = pre ++ v :: post ->
  Forall (quiet pat fps) pre ->
  Rec.line v = VStr l -> l <> "" ->
  Forall (fun fp => search fp l = None) fps ->
  search pat l = Some m ->
  Qle_bool (clock (env w) (S (ticks w)))
           (clock (env w) (ticks w) + Watcher.get_timeout kw) = true ->
  Watcher.watchFor src kw sched (self, w)
  = (Return (Watcher.Got m),
     (Watcher.attach_queue qn (ScanQueue.set_q post sq) self,
      set_ticks (S (S (ticks w))) w),
     flat_map (quiet_probes pat fps) pre
     ++ List.map (fun fp => FailProbe fp l) fps ++ [PatProbe pat l]).
Proof.
  intros Hp Hf Hs Hq Hfifo Hpre Hl Hne Hnf Hm Ht. unfold Watcher.watchFor.
  rewrite Hp, Hf, Hs, Hq. cbn [time_time].
  apply (loop_got sched qn _ _ src pat fps self (set_ticks (S (ticks w)) w)
                  sq _ m _ Hq Ht).
  exact (searcher_success sq pat fps pre v post l m Hfifo Hpre Hl Hne Hnf Hm).
Qed.

Lemma watchFor_returns_first_match_witness :
  let s := ScanQueue.put_all [VStr "i 0"; VStr "i 1"; VStr "i 2"]
                             (Examples.queue_on []) in
  let sq := fst (snd s) in
  let w := snd (snd s) in
  exists sq' tr,
    Watcher.watchFor (RE := Examples.literal) "i 1" Watcher.no_kwargs []
                     (Examples.endpoint sq, w)
    = (Return (Watcher.Got 0%nat),
       (Watcher.attach_queue "dev" sq' (Examples.endpoint sq),
        set_ticks (S (S (ticks w))) w), tr)
    /\ List.map Rec.line (ScanQueue.q sq') = [VStr "i 2"].
Proof.
  cbv zeta. eexists. eexists. split.
  - apply (watchFor_returns_first_match (RE := Examples.literal) []
             "i 1" "i 1" Watcher.no_kwargs [] _ _ "dev"
             (fst (snd (ScanQueue.put_all [VStr "i 0"; VStr "i 1"; VStr "i 2"]
                                          (Examples.queue_on []))))
             [ {| Rec.ts := Some 100%Q; Rec.name := "dev";
                  Rec.line := VStr "i 0" |} ]
             {| Rec.ts := Some 100%Q; Rec.name := "dev";
                Rec.line := VStr "i 1" |}
             [ {| Rec.ts := Some 100%Q; Rec.name := "dev";
                  Rec.line := VStr "i 2" |} ]
             "i 1" 0%nat).
    + reflexivity.
    + reflexivity.
    + vm_compute. reflexivity.
    + vm_compute. reflexivity.
    + vm_compute. reflexivity.
    + constructor; [|constructor].
      split; [exact I|]. split; [right; vm_compute; reflexivity|].
      right. constructor.
    + reflexivity.
    + discriminate.
    + constructor.
    + vm_compute. reflexivity.
    + vm_compute. reflexivity.
  - reflexivity.
Defined.

(** X6: [watchFor] on an endpoint that was never attached raises
    [UnboundLocalError], not a watcher exception.  With no queue at all the
    variable [qname] is never bound; once the patterns have compiled, the
    lookup of the queue fails on it.  Nothing is printed and the clock is
    not read. *)
Theorem watchFor_unattached `{RE : RegexEngine} (nm : option string)
    (d : option (option DispQueue.t)) (x : option (value -> value))
    (src : string) (pat : pattern) (kw : Watcher.watch_kwargs)
    (fps : list pattern) (sched : list (list string)) (w : World) :
  compile src = Return pat ->
  Watcher.compile_failpats kw = Return fps ->
  Watcher.watchFor src kw sched (Watcher.init nm d x, w)
  = (Raise (UnboundLocalError "qname"), (Watcher.init nm d x, w), []).
Proof.
  intros Hp Hf. unfold Watcher.watchFor. rewrite Hp, Hf.
  unfold Watcher.select_qname. cbn [Watcher.init Watcher.queues].
  rewrite map_size_empty. reflexivity.
Qed.

Lemma watchFor_unattached_witness :
  Watcher.watchFor (RE := Examples.literal) "ready" Watcher.no_kwargs []
    (Watcher.init None None None, Examples.w0)
  = (Raise (UnboundLocalError "qname"),
     (Watcher.init None None None, Examples.w0), []).
Proof.
  apply (watchFor_unattached (RE := Examples.literal) None None None
           "ready" "ready" Watcher.no_kwargs [] [] Examples.w0);
    reflexivity.
Defined.

(** *** Deadlines *)

Lemma float_slack_nonneg (x : Q) : (0 <= float_slack x)%Q.
Proof.
  unfold float_slack. apply Qmult_le_0_compat; [apply Qabs_nonneg|].
  discriminate.
Qed.

(** A reading clearly after a deadline is after the exact deadline. *)
Lemma clearly_after_late (t deadline : Q) :
  clearly_after t deadline -> Qle_bool t deadline = false.
Proof.
  unfold clearly_after. intros H.
  destruct (Qle_bool t deadline) eqn:E; [|reflexivity].
  apply Qle_bool_iff in E.
  assert (Hle : (t <= deadline + float_slack deadline)%Q).
  { apply Qle_trans with (deadline + 0)%Q.
    - rewrite Qplus_0_r. exact E.
    - apply Qplus_le_r, float_slack_nonneg. }
  apply Qle_bool_iff in Hle. congruence.
Qed.

(** A reading clearly before a deadline is before the exact deadline. *)
Lemma clearly_before_early (t deadline : Q) :
  clearly_before t deadline -> Qle_bool deadline t = false.
Proof.
  unfold clearly_before. intros H.
  destruct (Qle_bool deadline t) eqn:E; [|reflexivity].
  apply Qle_bool_iff in E.
  assert (Hle : (deadline - float_slack deadline <= t)%Q).
  { apply Qle_trans with deadline; [|exact E].
    apply Qle_trans with (deadline - 0)%Q.
    - unfold Qminus. apply Qplus_le_r, Qopp_le_compat, float_slack_nonneg.
    - unfold Qminus. rewrite Qplus_0_r. apply Qle_refl. }
  apply Qle_bool_iff in Hle. congruence.
Qed.

(** X7: a call of [watchFor] whose first reading of the clock in its loop
    is clearly after the deadline, that is after it by more than the
    rounding of the sum [start + timeout], raises the timeout exception
    without searching: the endpoint and the FIFO of its queue are left as
    they were, whatever the FIFO holds, a line that matches included. *)
Theorem watchFor_late_searches_nothing `{RE : RegexEngine}
    (sched : list (list string)) (src : string) (pat : pattern)
    (kw : Watcher.watch_kwargs) (fps : list pattern) (self : Watcher.t)
    (w : World) (qn : string) (sq : ScanQueue.t) :
  compile src = Return pat ->
  Watcher.compile_failpats kw = Return fps ->
  Watcher.select_qname self kw = Some qn ->
  Watcher.queues self !! qn = Some sq ->
  clearly_after (clock (env w) (S (ticks w)))
                (clock (env w) (ticks w) + Watcher.get_timeout kw) ->
  Watcher.watchFor src kw sched (self, w)
  = (Raise (WatcherTimeoutException ("while looking for " ++ src)),
     (self, set_ticks (S (S (ticks w))) w), []).
Proof.
  intros Hp Hf Hs Hq Ht. apply clearly_after_late in Ht.
  unfold Watcher.watchFor.
  rewrite Hp, Hf, Hs, Hq. cbn [time_time].
  destruct sched; cbn [Watcher.watchFor_loop time_time ticks set_ticks env];
    rewrite Ht; reflexivity.
Qed.

Lemma watchFor_late_searches_nothing_witness :
  let s := ScanQueue.put_all [VStr "ready"] (Examples.queue_on []) in
  Watcher.watchFor (RE := Examples.literal) "ready"
    Examples.timeout_minus_one []
    (Examples.endpoint (fst (snd s)), snd (snd s))
  = (Raise (WatcherTimeoutException "while looking for ready"),
     (Examples.endpoint (fst (snd s)),
      set_ticks (S (S (ticks (snd (snd s))))) (snd (snd s))), []).
Proof.
  apply (watchFor_late_searches_nothing (RE := Examples.literal) []
           "ready" "ready" Examples.timeout_minus_one []
           (Examples.endpoint
              (fst (snd (ScanQueue.put_all [VStr "ready"]
                                           (Examples.queue_on [])))))
           (snd (snd (ScanQueue.put_all [VStr "ready"]
                                        (Examples.queue_on []))))
           "dev"
           (fst (snd (ScanQueue.put_all [VStr "ready"]
                                        (Examples.queue_on []))))).
  - reflexivity.
  - reflexivity.
  - vm_compute. reflexivity.
  - vm_compute. reflexivity.
  - vm_compute. reflexivity.
Defined.



(** ** Attaching, once *)

Section AttachMore.
Import Watcher.

Lemma select_one (self : t) (key : string) (a : ScanQueue.t)
    (kw : watch_kwargs) :
  queues self = <[key := a]> ∅ -> select_qname self kw = Some key.
Proof.
  intros H. unfold select_qname. rewrite H, insert_empty.
  rewrite map_size_singleton, map_to_list_singleton. reflexivity.
Qed.

End AttachMore.

(** X9: the first [subprocess] call on a fresh endpoint, when the process
    can be spawned, returns the endpoint, started, with the standard input
    of the new process as its input sink and two open, empty queues,
    ["stdout"] and ["stderr"], each reading its pipe; it spawns one process
    and starts three threads.  From then on [watchFor] searches ["stdout"],
    or ["stderr"] when [stderr] is set. *)
Theorem subprocess_attaches (nm : option string)
    (d : option (option DispQueue.t)) (x : option (value -> value))
    (cmdargs extra : list string) (w : World) :
  forallb (fun k => existsb (String.eqb k) Watcher.popen_keywords) extra
  = true ->
  popen_ok (env w) cmdargs = true ->
  let self := Watcher.init nm d x in
  let pid := count_popen w in
  let queue_on key input :=
    {| ScanQueue.name := (Watcher.name self ++ key)%string;
       ScanQueue.fh := Some {| ScanQueue.pending := input;
                               ScanQueue.fh_closed := false |};
       ScanQueue.disper := Watcher.disper self;
       ScanQueue.xformer := x;
       ScanQueue.q := []; ScanQueue._closed := false |} in
  exists self',
    Watcher.subprocess cmdargs extra (self, w)
    = (Return Watcher.ReturnedSelf,
       (self',
        {| env := env w; ticks := ticks w; displayed := displayed w;
           os_log := os_log w ++
             [ Popen cmdargs;
               ThreadStart (ReaderThread (Watcher.name self ++ ":stdout"));
               ThreadStart (ReaderThread (Watcher.name self ++ ":stderr"));
               ThreadStart (ExitWatchThread (Watcher.name self)) ] |}))
    /\ Watcher.started self' = true
    /\ Watcher.istream self' = Some (ProcStdin pid)
    /\ Watcher.proc_handle self' = Some pid
    /\ Watcher.retcode self' = None
    /\ Watcher.queues self'
       = <["stderr" := queue_on ":stderr" (proc_stderr (env w) pid)]>
           (<["stdout" := queue_on ":stdout" (proc_stdout (env w) pid)]> ∅)
    /\ forall kw,
         Watcher.select_qname self' kw
         = Some (if Watcher.kw_stderr kw then "stderr" else "stdout").
Proof.
  intros Hx Hp. cbv zeta. unfold Watcher.subprocess.
  cbn [Watcher.init Watcher.started]. rewrite Hx, Hp. cbn [negb].
  eexists. split.
  - unfold bind, modify, Watcher.new_queue, ScanQueue.init, ret, emit.
    cbn. rewrite <- !app_assoc. reflexivity.
  - repeat split; try reflexivity.
Qed.

Lemma subprocess_attaches_witness :
  exists self',
    fst (Watcher.subprocess ["./helpers/process_companion.py"] []
           (Watcher.init (Some "proc") None None, Examples.w0))
    = Return Watcher.ReturnedSelf
    /\ snd (Watcher.subprocess ["./helpers/process_companion.py"] []
              (Watcher.init (Some "proc") None None, Examples.w0))
       = (self',
          {| env := Examples.env0; ticks := 0; displayed := [];
             os_log := [ Popen ["./helpers/process_companion.py"];
                         ThreadStart (ReaderThread "proc:stdout");
                         ThreadStart (ReaderThread "proc:stderr");
                         ThreadStart (ExitWatchThread "proc") ] |})
    /\ forall kw,
         Watcher.select_qname self' kw
         = Some (if Watcher.kw_stderr kw then "stderr" else "stdout").
Proof.
  destruct (subprocess_attaches (Some "proc") None None
              ["./helpers/process_companion.py"] [] Examples.w0
              eq_refl eq_refl)
    as (self' & E & _ & _ & _ & _ & _ & Hsel).
  exists self'. rewrite E. repeat split. exact Hsel.
Defined.

(** X10: the first [socket] call on a fresh endpoint, when the connection
    can be made, returns the endpoint, started, with the socket as its
    input sink and one open, empty queue under the endpoint's own name; it
    opens one connection and starts one thread, and sets no process handle.
    From then on [watchFor] searches that queue whether [stderr] is set or
    not. *)
Theorem socket_attaches (nm : option string)
    (d : option (option DispQueue.t)) (x : option (value -> value))
    (host : string) (port : Z) (w : World) :
  connect_ok (env w) host port = true ->
  let self := Watcher.init nm d x in
  exists self' w',
    Watcher.socket host port (self, w)
    = (Return Watcher.ReturnedSelf, (self', w'))
    /\ os_log w' = os_log w ++ [ Connect host port;
                                ThreadStart (ReaderThread (Watcher.name self)) ]
    /\ Watcher.started self' = true
    /\ Watcher.istream self' = Some (SocketStream (count_connect w))
    /\ Watcher.proc_handle self' = None
    /\ Watcher.queues self'
       = <[Watcher.name self :=
             {| ScanQueue.name := Watcher.name self;
                ScanQueue.fh :=
                  Some {| ScanQueue.pending :=
                            sock_input (env w) (count_connect w);
                          ScanQueue.fh_closed := false |};
                ScanQueue.disper := Watcher.disper self;
                ScanQueue.xformer := x;
                ScanQueue.q := []; ScanQueue._closed := false |}]> ∅
    /\ forall kw, Watcher.select_qname self' kw = Some (Watcher.name self).
Proof.
  intros Hc. cbv zeta. unfold Watcher.socket.
  cbn [Watcher.init Watcher.started]. rewrite Hc. cbn [negb].
  unfold bind, modify, Watcher.new_queue, ScanQueue.init, ret, emit,
    Watcher._print.
  destruct d as [[dq|]|]; cbn; eexists; eexists;
    (split; [reflexivity|]); cbn; rewrite <- ?app_assoc;
    (repeat split; try reflexivity);
    intros kw; eapply select_one; reflexivity.
Qed.

Lemma socket_attaches_witness :
  exists self' w',
    Watcher.socket "" 9042 (Watcher.init (Some "s_sock") None None,
                            Examples.w0)
    = (Return Watcher.ReturnedSelf, (self', w'))
    /\ os_log w' = [ Connect "" 9042; ThreadStart (ReaderThread "s_sock") ]
    /\ forall kw, Watcher.select_qname self' kw = Some "s_sock".
Proof.
  destruct (socket_attaches (Some "s_sock") None None "" 9042 Examples.w0
              eq_refl)
    as (self' & w' & E & Hlog & _ & _ & _ & _ & Hsel).
  exists self', w'. repeat split; assumption.
Defined.

(** X11: [ssh] with a [port] never spawns anything.  The keyword [port] is
    read but left among the keywords handed to [subprocess], which passes
    them on to [Popen], and [Popen] rejects it with a type error; the
    endpoint and the world are unchanged.  Without a port, [ssh] is
    [subprocess] on the [ssh] command line. *)
Theorem ssh_with_port_raises (self : Watcher.t) (w : World)
    (user host : string) (port : Z) :
  Watcher.started self = false ->
  Watcher.ssh user host (Some port) (self, w)
  = (Raise (TypeError "unexpected keyword argument"), (self, w))
  /\ Watcher.ssh user host None (self, w)
     = Watcher.subprocess
         [ "ssh"; "-t"; "-t"; "-o"; "StrictHostKeyChecking=no";
           (user ++ "@" ++ host)%string ] [] (self, w).
Proof.
  intros Hs. unfold Watcher.ssh, Watcher.subprocess. rewrite Hs.
  split; reflexivity.
Qed.

Lemma ssh_with_port_raises_witness :
  Watcher.ssh "pi" "bench" (Some 2222%Z)
    (Watcher.init None None None, Examples.w0)
  = (Raise (TypeError "unexpected keyword argument"),
     (Watcher.init None None None, Examples.w0)).
Proof.
  apply (proj1 (ssh_with_port_raises (Watcher.init None None None)
                  Examples.w0 "pi" "bench" 2222%Z eq_refl)).
Defined.

(** Without the pyserial module, [serial] opens nothing: it prints
    its message and returns nothing, on any endpoint, started or not, and
    leaves the endpoint as it was, so that another attach call can still be
    made on it. *)
Theorem serial_without_pyserial (self : Watcher.t) (w : World)
    (port : string) (speed : Z) :
  have_pyserial (env w) = false ->
  exists w',
    Watcher.serial port speed (self, w)
    = (Return Watcher.ReturnedNone, (self, w'))
    /\ os_log w' = os_log w /\ env w' = env w.
Proof.
  intros H. unfold Watcher.serial. rewrite H. apply refuse.
Qed.

Lemma serial_without_pyserial_witness :
  exists w',
    Watcher.serial "/dev/ttyACM0" 115200
      (Watcher.init None None None, Examples.no_pyserial)
    = (Return Watcher.ReturnedNone, (Watcher.init None None None, w'))
    /\ os_log w' = [] /\ env w' = env Examples.no_pyserial.
Proof.
  apply (serial_without_pyserial (Watcher.init None None None)
           Examples.no_pyserial "/dev/ttyACM0" 115200 eq_refl).
Defined.

(** ** Waiting for the child process *)

Section Waiting.
Import Watcher.

Lemma wait_loop_zero (sched : list (option Z)) (now timeout : Q) :
  Qeq_bool timeout 0 = true ->
  forall s : st, exists r s', wait_loop sched now timeout s = (Return r, s').
Proof.
  intros Hz. induction sched as [|ev sched IH]; intros [self w];
    cbn [wait_loop time_time]; rewrite Hz, orb_true_r.
  - destruct (retcode self); eauto.
  - destruct (retcode self); eauto.
Qed.

Lemma wait_loop_exit (now timeout : Q) (rc : Z) (rest : list (option Z))
    (pid : nat) :
  Qeq_bool timeout 0 = true ->
  forall (k : nat) (self : t) (w : World),
    retcode self = None -> proc_handle self = Some pid ->
    fst (wait_loop (repeat None k ++ Some rc :: rest) now timeout (self, w))
    = Return (Got rc).
Proof.
  intros Hz. induction k as [|k IH]; intros self w Hr Hp;
    cbn [repeat app wait_loop time_time]; rewrite Hz, orb_true_r, Hr.
  - unfold _subp_watchForExit. rewrite Hp.
    unfold bind, modify, _print. cbn.
    destruct rest as [|ev rest]; destruct (disper self);
      cbn; rewrite Hz, orb_true_r; reflexivity.
  - apply IH; assumption.
Qed.

End Waiting.

(** X12: with no timeout, or a timeout of zero, [wait_subp_done] never
    raises, however late the clock: it keeps polling, and on an endpoint
    with a process handle and no exit code yet it returns the exit code at
    the first pass after the exit-watch thread has recorded it. *)
Theorem wait_without_timeout_never_raises (timeout : option Q)
    (sched : list (option Z)) (self : Watcher.t) (w : World) :
  Qeq_bool (match timeout with Some t => t | None => 0 end) 0 = true ->
  (exists r s',
      Watcher.wait_subp_done timeout sched (self, w) = (Return r, s'))
  /\ (forall k rc rest pid,
        Watcher.retcode self = None ->
        Watcher.proc_handle self = Some pid ->
        sched = repeat None k ++ Some rc :: rest ->
        fst (Watcher.wait_subp_done timeout sched (self, w))
        = Return (Watcher.Got rc)).
Proof.
  intros Hz. unfold Watcher.wait_subp_done. cbn [time_time]. split.
  - apply wait_loop_zero, Hz.
  - intros k rc rest pid Hr Hp ->.
    apply (wait_loop_exit _ _ rc rest pid Hz k); assumption.
Qed.

Lemma wait_without_timeout_never_raises_witness :
  let s := snd (Watcher.subprocess ["./helpers/process_companion.py"] []
                  (Watcher.init (Some "proc") None None, Examples.w0)) in
  fst (Watcher.wait_subp_done None [None; None; Some 0%Z; None] s)
  = Return (Watcher.Got 0%Z).
Proof.
  apply (proj2 (wait_without_timeout_never_raises None
                  [None; None; Some 0%Z; None]
                  (fst (snd (Watcher.subprocess
                               ["./helpers/process_companion.py"] []
                               (Watcher.init (Some "proc") None None,
                                Examples.w0))))
                  (snd (snd (Watcher.subprocess
                               ["./helpers/process_companion.py"] []
                               (Watcher.init (Some "proc") None None,
                                Examples.w0))))
                  eq_refl)
               2%nat 0%Z [None] 0%nat); reflexivity.
Defined.

(** X13: with a timeout other than zero, [wait_subp_done] looks at the
    clock before it looks at the exit code.  On an endpoint whose exit code
    is already recorded it raises the timeout exception when its first
    reading of the clock in the loop is at or past the deadline, the
    process having exited notwithstanding; it returns the code when that
    reading is clearly before the deadline, that is before it by more than
    the rounding of the sum [now + timeout]. *)
Theorem wait_checks_the_clock_first (timeout : Q) (sched : list (option Z))
    (self : Watcher.t) (w : World) (rc : Z) :
  Watcher.retcode self = Some rc ->
  Qeq_bool timeout 0 = false ->
  (Qle_bool (clock (env w) (ticks w) + timeout)
            (clock (env w) (S (ticks w))) = true ->
   Watcher.wait_subp_done (Some timeout) sched (self, w)
   = (Raise (WatcherTimeoutException
               ("ran out of time wating for " ++ Watcher.name self
                ++ " to complete")),
      (self, set_ticks (S (S (ticks w))) w)))
  /\ (clearly_before (clock (env w) (S (ticks w)))
                     (clock (env w) (ticks w) + timeout) ->
      Watcher.wait_subp_done (Some timeout) sched (self, w)
      = (Return (Watcher.Got rc), (self, set_ticks (S (S (ticks w))) w))).
Proof.
  intros Hr Hz. unfold Watcher.wait_subp_done. cbn [time_time].
  split; intros Ht; [|apply clearly_before_early in Ht];
    destruct sched; cbn [Watcher.wait_loop time_time ticks set_ticks env];
    rewrite Hz, orb_false_r, Hr, Ht; reflexivity.
Qed.

Lemma wait_checks_the_clock_first_witness :
  let s := snd (Watcher._subp_watchForExit 0
                  (snd (Watcher.subprocess ["./helpers/process_companion.py"]
                          [] (Watcher.init (Some "proc") None None,
                              Examples.w0)))) in
  fst (Watcher.wait_subp_done (Some (-1)%Q) [] s)
  = Raise (WatcherTimeoutException
             "ran out of time wating for proc to complete").
Proof.
  intros s. rewrite (surjective_pairing s).
  rewrite (proj1 (wait_checks_the_clock_first (-1)%Q [] (fst s) (snd s) 0%Z
                    eq_refl eq_refl) eq_refl).
  reflexivity.
Defined.

(** X14: [proc_running] works only on an endpoint attached with
    [subprocess].  The attribute [proc_handle] is set by [subprocess] alone:
    after a first [socket] call that succeeded, [proc_running] raises
    [AttributeError]; after a first [subprocess] call that succeeded, it
    answers whether the process it spawned is still running. *)
Theorem proc_running_needs_subprocess (nm : option string)
    (d : option (option DispQueue.t)) (x : option (value -> value))
    (poll : nat -> option Z) (w : World) :
  (forall host port,
      connect_ok (env w) host port = true ->
      fst (Watcher.proc_running poll
             (snd (Watcher.socket host port (Watcher.init nm d x, w))))
      = Raise (AttributeError "proc_handle"))
  /\ (forall cmdargs,
        popen_ok (env w) cmdargs = true ->
        fst (Watcher.proc_running poll
               (snd (Watcher.subprocess cmdargs []
                       (Watcher.init nm d x, w))))
        = Return (match poll (count_popen w) with
                  | None => true
                  | Some _ => false
                  end)).
Proof.
  split.
  - intros host port Hc.
    destruct (socket_attaches nm d x host port w Hc)
      as (self' & w' & E & _ & _ & _ & Hp & _).
    rewrite E. cbn [snd]. unfold Watcher.proc_running. rewrite Hp.
    reflexivity.
  - intros cmdargs Hp.
    destruct (subprocess_attaches nm d x cmdargs [] w eq_refl Hp)
      as (self' & E & _ & _ & Hh & _).
    rewrite E. cbn [snd]. unfold Watcher.proc_running. rewrite Hh.
    reflexivity.
Qed.

Lemma proc_running_needs_subprocess_witness :
  fst (Watcher.proc_running (fun _ => None)
         (snd (Watcher.socket "" 9042
                 (Watcher.init (Some "s_sock") None None, Examples.w0))))
  = Raise (AttributeError "proc_handle").
Proof.
  apply (proj1 (proc_running_needs_subprocess (Some "s_sock") None None
                  (fun _ => None) Examples.w0) "" 9042%Z eq_refl).
Defined.

(** ** Colours *)

Section Colours.
Import ansi_color.

Lemma str_app_assoc (a b c : string) :
  ((a ++ b) ++ c = a ++ (b ++ c))%string.
Proof.
  induction a as [|x a IH]; [reflexivity|].
  change (String x ((a ++ b) ++ c) = String x (a ++ (b ++ c)))%string.
  rewrite IH. reflexivity.
Qed.

Lemma str_app_nil_l (a : string) : ("" ++ a = a)%string.
Proof. reflexivity. Qed.

Lemma position_nth (x : string) (l : list string) (n : nat) :
  position x l = Some n -> nth_error l n = Some x.
Proof.
  revert n. induction l as [|y l IH]; intros n; cbn; [discriminate|].
  destruct (String.eqb y x) eqn:E.
  - intros H; inversion H; subst. apply String.eqb_eq in E. subst.
    reflexivity.
  - destruct (position x l) as [k|]; [|discriminate].
    intros H; inversion H; subst. cbn. apply IH. reflexivity.
Qed.

Lemma position_None (x : string) (l : list string) :
  position x l = None -> ~ In x l.
Proof.
  induction l as [|y l IH]; cbn; [tauto|].
  destruct (String.eqb y x) eqn:E; [discriminate|].
  destruct (position x l) as [k|]; [discriminate|].
  intros _ [H|H].
  - subst. rewrite String.eqb_refl in E. discriminate.
  - exact (IH eq_refl H).
Qed.

Lemma position_In (x : string) (l : list string) :
  In x l -> exists n, position x l = Some n.
Proof.
  intros H. destruct (position x l) as [n|] eqn:E; [eauto|].
  elim (position_None x l E H).
Qed.

Lemma colorize_valid (text fg bg st : string) (bf bb : bool) :
  In st styles -> In fg colors -> In bg colors ->
  exists si fi bi,
    nth_error styles si = Some st
    /\ nth_error colors fi = Some fg
    /\ nth_error colors bi = Some bg
    /\ colorize text fg bg st bf bb
       = Ok (open_escape ++ str_of_position si ++ ";"
             ++ (if bf then "9" else "3") ++ str_of_position fi ++ ";"
             ++ (if bb then "10" else "4") ++ str_of_position bi
             ++ close_escape ++ text ++ reset)%string.
Proof.
  intros Hs Hf Hb.
  destruct (position_In st styles Hs) as [si Esi].
  destruct (position_In fg colors Hf) as [fi Efi].
  destruct (position_In bg colors Hb) as [bi Ebi].
  exists si, fi, bi.
  repeat (split; [apply position_nth; assumption|]).
  unfold colorize, index. rewrite Esi, Efi, Ebi.
  destruct bf, bb; cbn [String.concat]; unfold reset;
    generalize (str_of_position si), (str_of_position fi),
               (str_of_position bi); intros a b c;
    f_equal; rewrite ?str_app_assoc, ?str_app_nil_l; reflexivity.
Qed.

Lemma colorize_invalid (text fg bg st : string) (bf bb : bool) :
  ~ (In st styles /\ In fg colors /\ In bg colors) ->
  exists msg, colorize text fg bg st bf bb = Fail (ValueError msg).
Proof.
  intros H. unfold colorize, index.
  destruct (position st styles) as [si|] eqn:Esi; [|eauto].
  destruct (position fg colors) as [fi|] eqn:Efi; [|eauto].
  destruct (position bg colors) as [bi|] eqn:Ebi; [|eauto].
  elim H. repeat split; eapply nth_error_In, position_nth; eassumption.
Qed.

End Colours.

(** X15: [colorize] accepts the names of the palettes and no others.  For
    a style, a foreground and a background that are entries of their
    palettes it returns the text between the escape sequence made of their
    three positions (the foreground after [9] or [3], the background after
    [10] or [4]) and the reset sequence; for any other name it raises
    [ValueError]. *)
Theorem colorize_accepts_palette_names (text fg bg st : string)
    (bf bb : bool) :
  (In st ansi_color.styles /\ In fg ansi_color.colors
   /\ In bg ansi_color.colors ->
   exists si fi bi,
     nth_error ansi_color.styles si = Some st
     /\ nth_error ansi_color.colors fi = Some fg
     /\ nth_error ansi_color.colors bi = Some bg
     /\ ansi_color.colorize text fg bg st bf bb
        = Ok (ansi_color.open_escape ++ ansi_color.str_of_position si ++ ";"
              ++ (if bf then "9" else "3") ++ ansi_color.str_of_position fi
              ++ ";"
              ++ (if bb then "10" else "4") ++ ansi_color.str_of_position bi
              ++ ansi_color.close_escape ++ text ++ reset)%string)
  /\ (~ (In st ansi_color.styles /\ In fg ansi_color.colors
         /\ In bg ansi_color.colors) ->
      exists msg,
        ansi_color.colorize text fg bg st bf bb = Fail (ValueError msg)).
Proof.
  split.
  - intros (Hs & Hf & Hb). apply colorize_valid; assumption.
  - apply colorize_invalid.
Qed.

Lemma colorize_accepts_palette_names_witness :
  (exists si fi bi,
      nth_error ansi_color.styles si = Some "bold"
      /\ nth_error ansi_color.colors fi = Some "red"
      /\ nth_error ansi_color.colors bi = Some "nochange"
      /\ ansi_color.colorize "x" "red" "nochange" "bold" true false
         = Ok (ansi_color.open_escape ++ ansi_color.str_of_position si ++ ";"
               ++ "9" ++ ansi_color.str_of_position fi ++ ";"
               ++ "4" ++ ansi_color.str_of_position bi
               ++ ansi_color.close_escape ++ "x" ++ reset)%string)
  /\ exists msg,
       ansi_color.colorize "x" "purple" "nochange" "bold" true false
       = Fail (ValueError msg).
Proof.
  split.
  - apply (proj1 (colorize_accepts_palette_names "x" "red" "nochange" "bold"
                    true false)).
    cbn. tauto.
  - apply (proj2 (colorize_accepts_palette_names "x" "purple" "nochange"
                    "bold" true false)).
    cbn. intros (_ & H & _).
    repeat (destruct H as [H|H]; [discriminate|]). exact H.
Defined.

(** X16: the displayer can always colour with what the allocator gives.
    Whatever the counters hold, the colour [getnextcolor] returns is one
    [colorize] accepts as a foreground over the background ["nochange"] in
    style ["normal"], as [printLoop] uses it: the result is the text
    between [ESC[0;9k;48m], for a [k] from 1 to 7, and the reset
    sequence. *)
Theorem allocated_colour_is_accepted (st : ansi_color.attrs) (text : string) :
  exists c k,
    fst (ansi_color.getnextcolor st) = Return c
    /\ (1 <= k <= 7)%nat
    /\ nth_error ansi_color.colors k = Some c
    /\ ansi_color.colorize text c "nochange" "normal" true false
       = Ok (ansi_color.open_escape ++ "0;9" ++ ansi_color.str_of_position k
             ++ ";48" ++ ansi_color.close_escape ++ text ++ reset)%string.
Proof.
  rewrite getnextcolor_eq; cbn [fst].
  destruct (mod7_cases (ansi_color.getattr0
                          (ansi_color.getnextcolor_index st) + 1))
    as [E|[E|[E|[E|[E|[E|E]]]]]]; cbv zeta in E; rewrite E;
    [ exists "red", 1%nat | exists "green", 2%nat | exists "yellow", 3%nat
    | exists "blue", 4%nat | exists "magenta", 5%nat | exists "cyan", 6%nat
    | exists "white", 7%nat ];
    (split; [reflexivity|]); (split; [lia|]); (split; [reflexivity|]);
    reflexivity.
Qed.

(** ** The printing thread *)

Section Printing.
Import DispQueue.

Lemma real_colour_valid (c : string) :
  In c ansi_color.real_colors ->
  valid_colour {| foreground := c; background := "nochange";
                  style := "normal" |}.
Proof.
  intros H. unfold valid_colour; cbn [foreground background style].
  split; [cbn; tauto|]. split; [|cbn; tauto].
  cbn in H. cbn. tauto.
Qed.

(** Printing a stamped record under a sound [colorlist] raises nothing and
    prints one line, which ends with the text of the record. *)
Lemma show_record_ok (v : Rec.t) (s : state) (t : Q) :
  colorlist_ok s -> Rec.ts v = Some t ->
  exists out s',
    show_record v s = (None, s')
    /\ stdout s' = stdout s ++ [out]
    /\ printed_as v out
    /\ colorlist_ok s'
    /\ taken s' = taken s
    /\ running s' = running s
    /\ last_name s' = Rec.name v.
Proof.
  intros Hok Hts. unfold show_record. rewrite Hts.
  set (os := (format_8_3f (t - starttime s) ++ " | "
              ++ rjust 17 " " (if (Rec.name v =? last_name s)%string
                               then "" else Rec.name v)
              ++ " | " ++ str_of_value (Rec.line v))%string).
  assert (Hplain : printed_as v os).
  { exists (format_8_3f (t - starttime s) ++ " | "
            ++ rjust 17 " " (if (Rec.name v =? last_name s)%string
                             then "" else Rec.name v))%string, ""%string.
    split; [|left; reflexivity].
    unfold os. rewrite !str_app_assoc.
    repeat f_equal.
    generalize (str_of_value (Rec.line v)). intros x.
    induction x as [|a x IH]; [reflexivity|].
    change (String a x = String a (x ++ ""))%string. f_equal. exact IH. }
  assert (Hcol : forall c, valid_colour c ->
            exists out,
              ansi_color.colorize os (foreground c) (background c) (style c)
                                  true false = Ok out
              /\ printed_as v out).
  { intros c (Hs & Hf & Hb).
    destruct (colorize_valid os (foreground c) (background c) (style c)
                true false Hs Hf Hb) as (si & fi & bi & _ & _ & _ & E).
    eexists. split; [exact E|].
    exists (ansi_color.open_escape ++ ansi_color.str_of_position si ++ ";"
            ++ "9" ++ ansi_color.str_of_position fi ++ ";"
            ++ "4" ++ ansi_color.str_of_position bi
            ++ ansi_color.close_escape
            ++ format_8_3f (t - starttime s) ++ " | "
            ++ rjust 17 " " (if (Rec.name v =? last_name s)%string
                             then "" else Rec.name v))%string, reset.
    split; [|right; reflexivity].
    unfold os. rewrite !str_app_assoc. reflexivity. }
  destruct (colorlist s !! Rec.name v) as [c|] eqn:El.
  - destruct (colorize s) eqn:Ec.
    + rewrite El. destruct (Hcol c (Hok _ _ El)) as (out & E & Hp).
      rewrite E. exists out. eexists. split; [reflexivity|].
      split; [reflexivity|]. split; [exact Hp|]. split; [exact Hok|].
      repeat split.
    + exists os. eexists. split; [reflexivity|].
      split; [reflexivity|]. split; [exact Hplain|]. split; [exact Hok|].
      repeat split.
  - destruct (colorize s) eqn:Ec.
    + destruct (getnextcolor_real (palette s)) as (c & Ec' & Hreal & _).
      destruct (ansi_color.getnextcolor (palette s)) as [r pal'].
      cbn [fst] in Ec'. subst r.
      rewrite lookup_insert_eq.
      destruct (Hcol _ (real_colour_valid c Hreal)) as (out & E & Hp).
      rewrite E.
      exists out. eexists. split; [reflexivity|].
      split; [reflexivity|]. split; [exact Hp|]. split; [|repeat split].
      intros name c0 Hl. cbn in Hl.
      destruct (decide (Rec.name v = name)) as [Heq|Hne].
      * rewrite Heq, lookup_insert_eq in Hl. inversion Hl; subst c0.
        apply real_colour_valid, Hreal.
      * rewrite lookup_insert_ne in Hl by assumption. eapply Hok, Hl.
    + exists os. eexists. split; [reflexivity|].
      split; [reflexivity|]. split; [exact Hplain|]. split; [exact Hok|].
      repeat split.
Qed.

Lemma waiting_next (w : World) (s : state) (v : Rec.t) (rest : list Rec.t) :
  waiting w s = v :: rest -> waiting w (take s) = rest.
Proof.
  unfold waiting. cbn [take taken].
  generalize (displayed w). generalize (taken s).
  induction n as [|n IH]; intros l H.
  - change (l = v :: rest) in H. subst l. reflexivity.
  - destruct l as [|x l]; [discriminate|].
    rewrite skipn_cons in H. rewrite skipn_cons. apply IH, H.
Qed.

(** A thread that has been told to stop prints what is waiting and ends. *)
Lemma printLoop_drains (w : World) (backlog : list Rec.t) :
  forall (s : state) (n : nat),
    waiting w s = backlog ->
    Forall (fun v => Rec.ts v <> None) backlog ->
    colorlist_ok s ->
    running s = false ->
    (length backlog <= n)%nat ->
    exists s' lines,
      printLoop n w s = (Ended, s')
      /\ stdout s' = stdout s ++ lines
      /\ Forall2 printed_as backlog lines
      /\ taken s' = (taken s + length backlog)%nat.
Proof.
  induction backlog as [|v rest IH]; intros s n Hw Hts Hok Hrun Hn.
  - exists s, []. destruct n; cbn [printLoop]; rewrite Hrun, Hw; cbn;
      rewrite app_nil_r, Nat.add_0_r; repeat split; constructor.
  - destruct n as [|n]; [cbn in Hn; lia|].
    cbn [printLoop]. rewrite Hrun, Hw. cbn [length Nat.eqb negb orb].
    unfold printLoop_body. rewrite Hw.
    inversion Hts as [|? ? Hv Hrest]; subst.
    destruct (Rec.ts v) as [t|] eqn:Et; [|congruence].
    assert (Hok' : colorlist_ok (take s)) by exact Hok.
    destruct (show_record_ok v (take s) t Hok' Et)
      as (out & s1 & E & Hout & Hp & Hok1 & Htk & Hrun1 & _).
    rewrite E.
    assert (Hw1 : waiting w s1 = rest).
    { unfold waiting. rewrite Htk. apply (waiting_next w s v rest Hw). }
    destruct (IH s1 n Hw1 Hrest Hok1) as (s' & lines & E' & Hout' & Hp' & Htk').
    { rewrite Hrun1. exact Hrun. }
    { cbn in Hn. lia. }
    exists s', (out :: lines). split; [exact E'|].
    split; [rewrite Hout', Hout; cbn; rewrite <- app_assoc; reflexivity|].
    split; [constructor; assumption|].
    rewrite Htk', Htk. cbn. lia.
Qed.

(** A name keeps the colour it has. *)
Lemma show_record_keeps (v : Rec.t) (s : state) (name : string) (c : colour) :
  colorlist s !! name = Some c ->
  colorlist (snd (show_record v s)) !! name = Some c.
Proof.
  intros H. unfold show_record.
  destruct (Rec.ts v) as [t|]; [|exact H].
  destruct (colorlist s !! Rec.name v) as [c0|] eqn:El.
  - cbn iota. repeat match goal with
                     | |- context [match ?x with _ => _ end] =>
                         destruct x; cbn [snd colorlist]
                     end; exact H.
  - assert (Hne : Rec.name v <> name)
      by (intros Heq; rewrite Heq in El; congruence).
    destruct (colorize s).
    + destruct (ansi_color.getnextcolor (palette s)) as [[c1|e] pal'];
        cbn iota.
      * repeat match goal with
               | |- context [match ?x with _ => _ end] =>
                   destruct x; cbn [snd colorlist]
               end; rewrite lookup_insert_ne by assumption; exact H.
      * exact H.
    + cbn iota. exact H.
Qed.

Lemma printLoop_keeps (n : nat) (w : World) :
  forall (s : state) (name : string) (c : colour),
    colorlist s !! name = Some c ->
    colorlist (snd (printLoop n w s)) !! name = Some c.
Proof.
  induction n as [|n IH]; intros s name c H; cbn [printLoop].
  - destruct (running s || _); exact H.
  - destruct (running s || _); [|exact H].
    unfold printLoop_body. destruct (waiting w s) as [|v rest].
    + apply IH, H.
    + pose proof (show_record_keeps v (take s) name c H) as H1.
      destruct (show_record v (take s)) as [[e|] s1]; cbn [snd] in *.
      * exact H1.
      * apply IH, H1.
Qed.

(** Without colouring the thread neither assigns nor allocates a colour. *)
Lemma show_record_plain (v : Rec.t) (s : state) :
  colorize s = false ->
  colorize (snd (show_record v s)) = false
  /\ colorlist (snd (show_record v s)) = colorlist s
  /\ palette (snd (show_record v s)) = palette s.
Proof.
  intros Hc. unfold show_record. rewrite Hc.
  destruct (Rec.ts v); [|auto].
  destruct (colorlist s !! Rec.name v); cbn; auto.
Qed.

Lemma printLoop_plain (n : nat) (w : World) :
  forall s : state,
    colorize s = false ->
    colorlist (snd (printLoop n w s)) = colorlist s
    /\ palette (snd (printLoop n w s)) = palette s.
Proof.
  induction n as [|n IH]; intros s Hc; cbn [printLoop].
  - destruct (running s || _); auto.
  - destruct (running s || _); [|auto].
    unfold printLoop_body. destruct (waiting w s) as [|v rest].
    + apply IH, Hc.
    + destruct (show_record_plain v (take s) Hc) as (Hc1 & Hl & Hp).
      destruct (show_record v (take s)) as [[e|] s1]; cbn [snd] in *.
      * auto.
      * destruct (IH s1 Hc1) as [Hl' Hp']. rewrite Hl', Hp'. auto.
Qed.

End Printing.

Section Stopping.
Import DispQueue.

(** A thread that has been told to stop, given as many passes as there are
    records in [done], the first records of its queue, prints them and is
    still looping when more are waiting. *)
Lemma printLoop_prefix (w : World) (done : list Rec.t) :
  forall (s : state) (rest : list Rec.t),
    waiting w s = done ++ rest ->
    rest <> [] ->
    Forall (fun v => Rec.ts v <> None) done ->
    colorlist_ok s ->
    running s = false ->
    exists s' lines,
      printLoop (length done) w s = (Looping, s')
      /\ stdout s' = stdout s ++ lines
      /\ Forall2 printed_as done lines
      /\ taken s' = (taken s + length done)%nat
      /\ colorlist_ok s'
      /\ running s' = false.
Proof.
  induction done as [|v done IH]; intros s rest Hw Hrest Hts Hok Hrun.
  - exists s, []. cbn [length printLoop]. rewrite Hrun, Hw. cbn [app].
    destruct rest as [|r rest]; [congruence|]. cbn.
    rewrite app_nil_r, Nat.add_0_r.
    split; [reflexivity|]. split; [reflexivity|].
    split; [constructor|]. split; [reflexivity|].
    split; [exact Hok | reflexivity].
  - cbn [length printLoop]. rewrite Hrun, Hw. cbn [app length Nat.eqb negb orb].
    unfold printLoop_body. rewrite Hw. cbn [app].
    inversion Hts as [|? ? Hv Hdone]; subst.
    destruct (Rec.ts v) as [t|] eqn:Et; [|congruence].
    assert (Hok' : colorlist_ok (take s)) by exact Hok.
    destruct (show_record_ok v (take s) t Hok' Et)
      as (out & s1 & E & Hout & Hp & Hok1 & Htk & Hrun1 & _).
    rewrite E.
    assert (Hw1 : waiting w s1 = done ++ rest).
    { unfold waiting. rewrite Htk.
      apply (waiting_next w s v (done ++ rest) Hw). }
    destruct (IH s1 rest Hw1 Hrest Hdone Hok1)
      as (s' & lines & E' & Hout' & Hp' & Htk' & Hok2 & Hrun2).
    { rewrite Hrun1. exact Hrun. }
    exists s', (out :: lines). split; [exact E'|].
    split; [rewrite Hout', Hout; cbn; rewrite <- app_assoc; reflexivity|].
    split; [constructor; assumption|].
    split; [rewrite Htk', Htk; cbn; lia|].
    split; assumption.
Qed.

(** Once the last record is in the queue, a thread that has been told to
    stop and is still looping prints what is waiting, the last record
    included, and ends with its queue empty. *)
Lemma printLoop_after_put (w w1 : World) (last : Rec.t) (s : state)
    (n : nat) :
  displayed w1 = displayed w ++ [last] ->
  Rec.ts last <> None ->
  (taken s <= length (displayed w))%nat ->
  Forall (fun v => Rec.ts v <> None) (waiting w s) ->
  colorlist_ok s ->
  running s = false ->
  (length (waiting w s) < n)%nat ->
  exists s' lines out,
    printLoop n w1 s = (Ended, s')
    /\ stdout s' = stdout s ++ lines ++ [out]
    /\ Forall2 printed_as (waiting w s) lines
    /\ printed_as last out
    /\ waiting w1 s' = [].
Proof.
  intros Hd Hlast Htk Hts Hok Hrun Hn.
  assert (Hw : waiting w1 s = waiting w s ++ [last]).
  { unfold waiting. rewrite Hd, skipn_app.
    replace (taken s - length (displayed w))%nat with 0%nat by lia.
    reflexivity. }
  destruct (printLoop_drains w1 (waiting w s ++ [last]) s n Hw)
    as (s' & all & E & Hout & Hp & Htk').
  - apply Forall_app. split; [exact Hts|].
    constructor; [exact Hlast|constructor].
  - exact Hok.
  - exact Hrun.
  - rewrite length_app. cbn. lia.
  - apply List.Forall2_app_inv_l in Hp.
    destruct Hp as (lines & tl & Hp1 & Hp2 & ->).
    inversion Hp2 as [|? out ? tl' Hpo Hnil]; subst.
    inversion Hnil; subst.
    exists s', lines, out. split; [exact E|].
    split; [exact Hout|]. split; [exact Hp1|]. split; [exact Hpo|].
    unfold waiting.
    replace (taken s') with (length (displayed w1)); [apply skipn_all|].
    rewrite Htk', length_app, Hd, length_app. unfold waiting.
    rewrite length_skipn. cbn [length]. lia.
Qed.

End Stopping.

(** X17: [stop] loses no record that was put before it.  On a displayer
    whose [colorlist] names palette entries and whose waiting records are
    stamped, whatever the thread does between the two statements of [stop],
    the thread, given enough passes and nothing else put meanwhile, prints
    one line for each waiting record, in the order they were put, and
    ends.  Each line ends with the text of its record, followed by the
    reset sequence when it is coloured.  The record ["stopping"] is put in
    every case.  It is printed after the others, leaving the queue empty,
    unless the thread found its queue empty between the two statements and
    ended there: then it is never printed, and stays in the queue. *)
Theorem stop_prints_the_backlog (s : DispQueue.state) (w : World)
    (between : option nat) (n : nat) :
  colorlist_ok s ->
  (DispQueue.taken s <= length (displayed w))%nat ->
  Forall (fun v => Rec.ts v <> None) (DispQueue.waiting w s) ->
  (length (DispQueue.waiting w s) < n)%nat ->
  exists s' w' last lines,
    DispQueue.stop between n s w = (DispQueue.Ended, s', w')
    /\ displayed w' = displayed w ++ [last]
    /\ Rec.name last = "DispQueue" /\ Rec.line last = VStr "stopping"
    /\ Forall2 printed_as (DispQueue.waiting w s) lines
    /\ if ends_before_put between (length (DispQueue.waiting w s))
       then DispQueue.stdout s' = DispQueue.stdout s ++ lines
            /\ DispQueue.waiting w' s' = [last]
       else exists out,
              DispQueue.stdout s' = DispQueue.stdout s ++ lines ++ [out]
              /\ printed_as last out
              /\ DispQueue.waiting w' s' = [].
Proof.
  intros Hok Htk Hts Hn. unfold DispQueue.stop, DispQueue.put.
  cbn [Rec.ts time_time Rec.name Rec.line].
  set (last := {| Rec.ts := Some (clock (env w) (ticks w));
                  Rec.name := "DispQueue"; Rec.line := VStr "stopping" |}).
  set (w1 := show last (set_ticks (S (ticks w)) w)).
  set (s1 := DispQueue.set_running false s).
  assert (Hd : displayed w1 = displayed w ++ [last]) by reflexivity.
  assert (Hlast : Rec.ts last <> None) by discriminate.
  assert (Hlen : length (DispQueue.waiting w s)
                 = (length (displayed w) - DispQueue.taken s)%nat)
    by (unfold DispQueue.waiting; apply length_skipn).
  destruct between as [k|]; cbn [ends_before_put].
  - destruct (Nat.leb_spec (length (DispQueue.waiting w s)) k) as [Hk|Hk].
    + (* the thread drains its queue and ends before the put *)
      destruct (printLoop_drains w (DispQueue.waiting w s) s1 k eq_refl Hts
                  Hok eq_refl Hk) as (s' & lines & E & Hout & Hp & Htk').
      rewrite E. exists s', w1, last, lines.
      split; [reflexivity|]. split; [exact Hd|].
      split; [reflexivity|]. split; [reflexivity|].
      split; [exact Hp|]. split; [exact Hout|].
      unfold DispQueue.waiting. rewrite Hd, skipn_app.
      replace (DispQueue.taken s') with (length (displayed w))
        by (rewrite Htk'; unfold s1; cbn [DispQueue.taken
              DispQueue.set_running]; lia).
      rewrite skipn_all, Nat.sub_diag. reflexivity.
    + (* the thread is still printing when the last record is put *)
      assert (Hsplit : DispQueue.waiting w s1
                       = firstn k (DispQueue.waiting w s)
                         ++ skipn k (DispQueue.waiting w s))
        by (symmetry; apply firstn_skipn).
      assert (Hfl : length (firstn k (DispQueue.waiting w s)) = k)
        by (rewrite length_firstn; lia).
      assert (Hrest : skipn k (DispQueue.waiting w s) <> []).
      { intros Hnil. apply (f_equal (@length _)) in Hnil.
        rewrite length_skipn in Hnil. cbn in Hnil. lia. }
      pose proof Hts as Hts'. rewrite <- (firstn_skipn k) in Hts'.
      apply Forall_app in Hts'. destruct Hts' as [Hts1 Hts2].
      destruct (printLoop_prefix w (firstn k (DispQueue.waiting w s)) s1
                  (skipn k (DispQueue.waiting w s)) Hsplit Hrest Hts1 Hok
                  eq_refl)
        as (s2 & lines1 & E & Hout & Hp & Htk2 & Hok2 & Hrun2).
      rewrite Hfl in E. rewrite E.
      assert (Hw2 : DispQueue.waiting w s2
                    = skipn k (DispQueue.waiting w s)).
      { unfold DispQueue.waiting. rewrite Htk2, Hfl.
        unfold s1; cbn [DispQueue.taken DispQueue.set_running].
        rewrite List.skipn_skipn. f_equal. lia. }
      destruct (printLoop_after_put w w1 last s2 n Hd Hlast)
        as (s' & lines2 & out & E' & Hout' & Hp' & Hpo & Hw').
      * rewrite Htk2, Hfl. unfold s1.
        cbn [DispQueue.taken DispQueue.set_running]. lia.
      * rewrite Hw2. exact Hts2.
      * exact Hok2.
      * exact Hrun2.
      * rewrite Hw2, length_skipn. lia.
      * rewrite E'. exists s', w1, last, (lines1 ++ lines2).
        split; [reflexivity|]. split; [exact Hd|].
        split; [reflexivity|]. split; [reflexivity|].
        split.
        { rewrite <- (firstn_skipn k (DispQueue.waiting w s)).
          apply List.Forall2_app; [exact Hp|]. rewrite <- Hw2. exact Hp'. }
        exists out. split; [|split; [exact Hpo | exact Hw']].
        rewrite Hout', Hout. unfold s1.
        cbn [DispQueue.stdout DispQueue.set_running].
        rewrite <- !app_assoc. reflexivity.
  - destruct (printLoop_after_put w w1 last s1 n Hd Hlast Htk Hts Hok eq_refl
                Hn)
      as (s' & lines & out & E & Hout & Hp & Hpo & Hw').
    rewrite E. exists s', w1, last, lines.
    split; [reflexivity|]. split; [exact Hd|].
    split; [reflexivity|]. split; [reflexivity|].
    split; [exact Hp|].
    exists out. split; [exact Hout|]. split; [exact Hpo | exact Hw'].
Qed.

Lemma stop_prints_the_backlog_witness :
  let w := snd (ScanQueue.put_all [VStr "i 0"; VStr "i 1"]
                                  (Examples.queue_on [])) in
  exists s' w' last lines,
    DispQueue.stop (Some 2%nat) 5 (Examples.fresh_displayer true) (snd w)
    = (DispQueue.Ended, s', w')
    /\ DispQueue.stdout s' = lines
    /\ length lines = 2%nat
    /\ DispQueue.waiting w' s' = [last]
    /\ Rec.line last = VStr "stopping".
Proof.
  cbv zeta.
  destruct (stop_prints_the_backlog (Examples.fresh_displayer true)
              (snd (snd (ScanQueue.put_all [VStr "i 0"; VStr "i 1"]
                                           (Examples.queue_on []))))
              (Some 2%nat) 5)
    as (s' & w' & last & lines & E & _ & _ & Hl & Hp & Hcase).
  - intros name c H. cbn in H. rewrite lookup_empty in H. discriminate.
  - cbn. lia.
  - repeat constructor; discriminate.
  - cbn. lia.
  - cbn in Hcase. destruct Hcase as [Hout Hw].
    exists s', w', last, lines. split; [exact E|]. split; [exact Hout|].
    split; [|split; [exact Hw | exact Hl]].
    apply Forall2_length in Hp. rewrite <- Hp. reflexivity.
Defined.

(** X18: a source keeps its colour.  Whatever the thread prints, a name
    that has an entry in [colorlist] keeps that entry; and a displayer
    without colouring never assigns an entry nor advances the counters of
    the colour module. *)
Theorem colours_are_stable (n : nat) (w : World) (s : DispQueue.state) :
  (forall name c,
      DispQueue.colorlist s !! name = Some c ->
      DispQueue.colorlist (snd (DispQueue.printLoop n w s)) !! name = Some c)
  /\ (DispQueue.colorize s = false ->
      DispQueue.colorlist (snd (DispQueue.printLoop n w s))
      = DispQueue.colorlist s
      /\ DispQueue.palette (snd (DispQueue.printLoop n w s))
         = DispQueue.palette s).
Proof.
  split.
  - intros name c H. apply printLoop_keeps, H.
  - apply printLoop_plain.
Qed.

Lemma colours_are_stable_witness :
  let w := snd (snd (ScanQueue.put_all [VStr "i 0"; VStr "i 1"]
                                       (Examples.queue_on []))) in
  let s := snd (DispQueue.printLoop 1 w (Examples.fresh_displayer true)) in
  DispQueue.colorlist s !! "dev"
  = Some {| DispQueue.foreground := "green";
            DispQueue.background := "nochange";
            DispQueue.style := "normal" |}
  /\ DispQueue.colorlist (snd (DispQueue.printLoop 4 w s)) !! "dev"
     = Some {| DispQueue.foreground := "green";
               DispQueue.background := "nochange";
               DispQueue.style := "normal" |}.
Proof.
  cbv zeta. split; [vm_compute; reflexivity|].
  apply (proj1 (colours_are_stable 4 _ _)). vm_compute. reflexivity.
Defined.

Section NameColumn.
Import DispQueue.

Lemma padding_length (n : nat) (c : ascii) (s : string) :
  String.length (padding n c ++ s) = (n + String.length s)%nat.
Proof.
  induction n as [|n IH]; [reflexivity|].
  change (S (String.length (padding n c ++ s)) = S (n + String.length s)).
  rewrite IH. reflexivity.
Qed.

Lemma rjust_length (width : nat) (c : ascii) (s : string) :
  String.length (rjust width c s) = Nat.max width (String.length s).
Proof. unfold rjust. rewrite padding_length. lia. Qed.

End NameColumn.

(** X19: the name column.  Without colouring, when two records of the same
    source follow each other, after a record of another source, the first
    is printed with the name right-aligned in a column of 17 characters and
    the second with that column blank; each row is the time since the
    displayer started, the column and the text, separated by [" | "].  The
    column is widened, not cut, for a name longer than 17 characters. *)
Theorem same_source_blank_label (s : DispQueue.state) (u v : Rec.t)
    (tu tv : Q) (nm : string) :
  DispQueue.colorize s = false ->
  Rec.ts u = Some tu -> Rec.ts v = Some tv ->
  Rec.name u = nm -> Rec.name v = nm ->
  nm <> DispQueue.last_name s ->
  exists s1 s2,
    DispQueue.show_record u s = (None, s1)
    /\ DispQueue.show_record v s1 = (None, s2)
    /\ DispQueue.stdout s2
       = DispQueue.stdout s
         ++ [ row (DispQueue.starttime s) tu (rjust 17 " " nm) (Rec.line u);
              row (DispQueue.starttime s) tv (padding 17 " ") (Rec.line v) ]
    /\ String.length (rjust 17 " " nm) = Nat.max 17 (String.length nm).
Proof.
  intros Hc Hu Hv Hnu Hnv Hne.
  assert (E1 : (nm =? DispQueue.last_name s)%string = false)
    by (apply String.eqb_neq, Hne).
  unfold DispQueue.show_record at 1. rewrite Hu, Hc, Hnu, E1.
  eexists. eexists. split.
  - destruct (DispQueue.colorlist s !! nm); reflexivity.
  - split.
    + unfold DispQueue.show_record. rewrite Hv, Hnv.
      cbn [DispQueue.colorize DispQueue.colorlist DispQueue.last_name
           DispQueue.palette DispQueue.starttime].
      rewrite String.eqb_refl.
      destruct (DispQueue.colorlist s !! nm); reflexivity.
    + split; [|apply rjust_length].
      cbn [DispQueue.stdout]. rewrite <- app_assoc. reflexivity.
Qed.

Lemma same_source_blank_label_witness :
  let u := {| Rec.ts := Some (1001 # 10);
              Rec.name := "proc:stdout"; Rec.line := VStr "i 0" |} in
  let v := {| Rec.ts := Some (1003 # 10);
              Rec.name := "proc:stdout"; Rec.line := VStr "i 1" |} in
  exists s1 s2,
    DispQueue.show_record u (Examples.fresh_displayer false) = (None, s1)
    /\ DispQueue.show_record v s1 = (None, s2)
    /\ DispQueue.stdout s2
       = [ "   0.100 |       proc:stdout | i 0";
           "   0.300 |                   | i 1" ].
Proof.
  cbv zeta.
  destruct (same_source_blank_label (Examples.fresh_displayer false)
              {| Rec.ts := Some (1001 # 10);
                 Rec.name := "proc:stdout"; Rec.line := VStr "i 0" |}
              {| Rec.ts := Some (1003 # 10);
                 Rec.name := "proc:stdout"; Rec.line := VStr "i 1" |}
              (1001 # 10) (1003 # 10) "proc:stdout")
    as (s1 & s2 & E1 & E2 & Hout & _).
  - reflexivity.
  - reflexivity.
  - reflexivity.
  - reflexivity.
  - reflexivity.
  - discriminate.
  - exists s1, s2. split; [exact E1|]. split; [exact E2|].
    rewrite Hout. vm_compute. reflexivity.
Defined.
